(** * Report pipeline: SharePoint extraction and Elasticsearch indexing

    A shallow embedding of the two batch scripts
    [SharepointDataExtractor.py] and [S3toExHistoricalIndexer.py],
    followed by the properties established about them.

    Python values are modelled as the interpreter has them: a [str] is a
    sequence of Unicode code points, a decoded JSON document is a tree of
    [json] values, an exception is a value of [exn] carried by [Raise].
    Everything outside the two scripts (the remote API, the object store,
    the inference service, the HTML parser) is a parameter of the
    definitions. *)

From Stdlib Require Import List ZArith NArith Lia Bool String Ascii DecimalString.
Import ListNotations.

Set Warnings "-register-all".

(* ================================================================= *)
(** * Python primitives *)

Module Py.

(** A Python [str]: a sequence of code points. *)
Definition pystr := list N.

(** Decoding of the UTF-8 bytes of a string literal of this file. *)
Fixpoint utf8_decode (bs : list N) : pystr :=
  match bs with
  | [] => []
  | b0 :: t0 =>
    if (b0 <? 128)%N then b0 :: utf8_decode t0 else
    match t0 with
    | [] => []
    | b1 :: t1 =>
      if (b0 <? 224)%N
      then ((b0 mod 32) * 64 + b1 mod 64)%N :: utf8_decode t1 else
      match t1 with
      | [] => []
      | b2 :: t2 =>
        if (b0 <? 240)%N
        then ((b0 mod 16) * 4096 + (b1 mod 64) * 64 + b2 mod 64)%N
               :: utf8_decode t2 else
        match t2 with
        | [] => []
        | b3 :: t3 =>
          ((b0 mod 8) * 262144 + (b1 mod 64) * 4096
           + (b2 mod 64) * 64 + b3 mod 64)%N :: utf8_decode t3
        end
      end
    end
  end.

Definition py (s : string) : pystr :=
  utf8_decode (map N_of_ascii (list_ascii_of_string s)).

Fixpoint str_eqb (a b : pystr) : bool :=
  match a, b with
  | [], [] => true
  | x :: a', y :: b' => (x =? y)%N && str_eqb a' b'
  | _, _ => false
  end.

(** Decoded JSON, which is also the shape of the Python values the
    scripts handle: [JNull] is [None]. A float is carried as the text
    [str()] gives for it. *)
Inductive json :=
| JNull
| JBool (b : bool)
| JInt (z : Z)
| JFloat (shown : pystr)
| JStr (s : pystr)
| JArr (items : list json)
| JObj (fields : list (pystr * json)).

(** Exceptions, by class. [HTTPError] and [RequestError] are the
    subclasses of [requests.exceptions.RequestException]; [PyException]
    is a plain [Exception(msg)]. A message that ends with the text of
    another exception is kept without that ending. *)
Inductive exn :=
| ValueError (msg : string)
| TypeError (msg : string)
| NameError (name : string)
| AttributeError (msg : string)
| OverflowError (msg : string)
| HTTPError (status : Z) (reason : pystr)
| RequestError (kind : string)
| JSONDecodeError
| ClientError (msg : string)
| ESConnectionError
| PyException (msg : string).

Definition is_RequestException (e : exn) : bool :=
  match e with
  | HTTPError _ _ | RequestError _ => true
  | _ => false
  end.

Inductive result (A : Type) :=
| Ok (a : A)
| Raise (e : exn).
Arguments Ok {A} a.
Arguments Raise {A} e.

Definition bind {A B} (r : result A) (k : A -> result B) : result B :=
  match r with
  | Ok a => k a
  | Raise e => Raise e
  end.

(** [print] takes the keyword arguments [sep], [end], [file] and
    [flush]: any other keyword argument makes the call raise [TypeError]
    before anything is written. What is written is not modelled. *)
Definition print_keywords : list string :=
  ["sep"; "end"; "file"; "flush"]%string.

Definition print (kwargs : list string) : result unit :=
  if forallb (fun k => existsb (String.eqb k) print_keywords) kwargs
  then Ok tt
  else Raise (TypeError "invalid keyword argument for print()").

(** Truth value of an object. *)
Definition truthy (v : json) : bool :=
  match v with
  | JNull => false
  | JBool b => b
  | JInt z => negb (z =? 0)%Z
  | JFloat s => negb (str_eqb s (py "0.0") || str_eqb s (py "-0.0"))
  | JStr s => match s with [] => false | _ => true end
  | JArr l => match l with [] => false | _ => true end
  | JObj l => match l with [] => false | _ => true end
  end.

(** [d.get(key, default)] on the fields of a dict: the last binding of a
    key is the one a dict built from the pairs keeps. *)
Fixpoint lookup (key : pystr) (fields : list (pystr * json)) : option json :=
  match fields with
  | [] => None
  | (k, v) :: rest =>
    match lookup key rest with
    | Some v' => Some v'
    | None => if str_eqb k key then Some v else None
    end
  end.

(** [obj.get(key, default)]: only a dict has the method. *)
Definition get (obj : json) (key : pystr) (default : json) : result json :=
  match obj with
  | JObj fields =>
    Ok (match lookup key fields with Some v => v | None => default end)
  | _ => Raise (AttributeError "object has no attribute 'get'")
  end.

(** [str.isspace] on one character, which is also what [\s] matches in a
    [str] pattern and what [str.strip()] removes. *)
Definition isspace (c : N) : bool :=
  ((9 <=? c) && (c <=? 13) || (28 <=? c) && (c <=? 32)
   || (c =? 133) || (c =? 160) || (c =? 5760)
   || (8192 <=? c) && (c <=? 8202)
   || (c =? 8232) || (c =? 8233) || (c =? 8239) || (c =? 8287)
   || (c =? 12288))%N.

Fixpoint lstrip (s : pystr) : pystr :=
  match s with
  | [] => []
  | c :: t => if isspace c then lstrip t else s
  end.

Definition rstrip (s : pystr) : pystr := rev (lstrip (rev s)).

Definition strip (s : pystr) : pystr := rstrip (lstrip s).

(** The line boundaries of [str.splitlines]. *)
Definition is_linebreak (c : N) : bool :=
  ((10 <=? c) && (c <=? 13) || (28 <=? c) && (c <=? 30)
   || (c =? 133) || (c =? 8232) || (c =? 8233))%N.

(** [str.splitlines()]: [cur] is the line being read, reversed. A
    carriage return directly followed by a line feed is one boundary. *)
Fixpoint splitlines_from (cur : pystr) (s : pystr) : list pystr :=
  match s with
  | [] => match cur with [] => [] | _ => [rev cur] end
  | c :: t =>
    if (c =? 13)%N then
      match t with
      | c' :: t' =>
        if (c' =? 10)%N then rev cur :: splitlines_from [] t'
        else rev cur :: splitlines_from [] t
      | [] => rev cur :: splitlines_from [] t
      end
    else if is_linebreak c then rev cur :: splitlines_from [] t
    else splitlines_from (c :: cur) t
  end.

Definition splitlines (s : pystr) : list pystr := splitlines_from [] s.

(** [s.replace(old, new)] for one-character [old] and [new]. *)
Definition replace (old new : N) (s : pystr) : pystr :=
  map (fun c => if (c =? old)%N then new else c) s.

(** [sep.join(parts)]. *)
Fixpoint join (sep : pystr) (parts : list pystr) : pystr :=
  match parts with
  | [] => []
  | p :: rest =>
    match rest with
    | [] => p
    | _ => p ++ sep ++ join sep rest
    end
  end.

Fixpoint startswith (prefix s : pystr) : bool :=
  match prefix, s with
  | [], _ => true
  | _ :: _, [] => false
  | a :: p, b :: t => (a =? b)%N && startswith p t
  end.

(** A string is [edged] when it is not empty and does not start with
    white space. A stripped, non-empty line is edged at both ends. *)
Definition edged (s : pystr) : Prop :=
  match s with
  | [] => False
  | c :: _ => isspace c = false
  end.

(** [str(n)] for an integer. *)
Definition decimal (z : Z) : pystr :=
  map N_of_ascii (list_ascii_of_string (NilZero.string_of_int (Z.to_int z))).

(** The text an f-string puts for a value that is a [str] or [None]. *)
Definition fmt (v : option pystr) : pystr :=
  match v with
  | Some s => s
  | None => map N_of_ascii (list_ascii_of_string "None")
  end.

(** [not v] for a value that is a [str] or [None]. *)
Definition unset (v : option pystr) : bool :=
  match v with
  | Some (_ :: _) => false
  | _ => true
  end.

(** Evaluation of a global name in a module that binds [names]: a name
    that is neither bound there nor a builtin raises [NameError]. *)
Definition resolve (names : list string) (name : string) : result unit :=
  if existsb (String.eqb name) names then Ok tt
  else Raise (NameError name).

(** [p in s] for strings. *)
Definition occurs (p s : pystr) : Prop := exists a b, s = a ++ p ++ b.

(** The decimal digits of Unicode (category Nd, version 14) come in
    runs of ten, from the digit zero of a script to its digit nine.
    These are the zeros. A [str] pattern matches them all with the
    class of decimal digits, and [int()] reads them all. *)
Definition decimal_zeros : list N :=
  [ 48; 1632; 1776; 1984; 2406; 2534; 2662; 2790; 2918; 3046; 3174; 3302;
    3430; 3558; 3664; 3792; 3872; 4160; 4240; 6112; 6160; 6470; 6608; 6784;
    6800; 6992; 7088; 7232; 7248; 42528; 43216; 43264; 43472; 43504; 43600;
    44016; 65296; 66720; 68912; 69734; 69872; 69942; 70096; 70384; 70736;
    70864; 71248; 71360; 71472; 71904; 72016; 72784; 73040; 73120; 92768;
    92864; 93008; 120782; 120792; 120802; 120812; 120822; 123200; 123632;
    125264; 130032 ]%N.

(** The value of a decimal digit, if [c] is one. *)
Definition decimal_digit (c : N) : option Z :=
  match find (fun z => (z <=? c) && (c <? z + 10))%N decimal_zeros with
  | Some z => Some (Z.of_N (c - z))
  | None => None
  end.

End Py.

Import Py.

Notation "x <- c ;; k" := (Py.bind c (fun x => k))
  (at level 61, c at next level, right associativity).

(* ================================================================= *)
(** * The [datetime] module, as far as the extractor uses it *)

Module Datetime.

Local Open Scope Z_scope.

(** A [datetime.datetime] in UTC. *)
Record datetime := {
  year : Z; month : Z; day : Z;
  hour : Z; minute : Z; second : Z; microsecond : Z
}.

Definition MAXORDINAL : Z := 3652059.

Definition is_leap (y : Z) : bool :=
  (y mod 4 =? 0) && (negb (y mod 100 =? 0) || (y mod 400 =? 0)).

Definition days_before_year (y : Z) : Z :=
  let p := y - 1 in p * 365 + p / 4 - p / 100 + p / 400.

(** The tables [_DAYS_IN_MONTH] and [_DAYS_BEFORE_MONTH], indexed by the
    month; index 0 is a placeholder in both. *)
Definition days_in_month_table (m : Z) : Z :=
  match m with
  | 1 => 31 | 2 => 28 | 3 => 31 | 4 => 30 | 5 => 31 | 6 => 30
  | 7 => 31 | 8 => 31 | 9 => 30 | 10 => 31 | 11 => 30 | 12 => 31
  | _ => -1
  end.

Definition days_before_month_table (m : Z) : Z :=
  match m with
  | 1 => 0 | 2 => 31 | 3 => 59 | 4 => 90 | 5 => 120 | 6 => 151
  | 7 => 181 | 8 => 212 | 9 => 243 | 10 => 273 | 11 => 304 | 12 => 334
  | _ => -1
  end.

Definition days_in_month (y m : Z) : Z :=
  if (m =? 2) && is_leap y then 29 else days_in_month_table m.

Definition days_before_month (y m : Z) : Z :=
  days_before_month_table m + (if (2 <? m) && is_leap y then 1 else 0).

(** [date.toordinal()]: day 1 is 0001-01-01. *)
Definition ymd2ord (y m d : Z) : Z :=
  days_before_year y + days_before_month y m + d.

(** [date.fromordinal(n)]. *)
Definition ord2ymd (n : Z) : Z * Z * Z :=
  let n := n - 1 in
  let n400 := n / 146097 in let n := n mod 146097 in
  let n100 := n / 36524 in let n := n mod 36524 in
  let n4 := n / 1461 in let n := n mod 1461 in
  let n1 := n / 365 in let n := n mod 365 in
  let y := n400 * 400 + 1 + n100 * 100 + n4 * 4 + n1 in
  if (n1 =? 4) || (n100 =? 4) then (y - 1, 12, 31)
  else
    let leapyear := (n1 =? 3) && (negb (n4 =? 24) || (n100 =? 3)) in
    let m := Z.shiftr (n + 50) 5 in
    let preceding :=
      days_before_month_table m + (if (2 <? m) && leapyear then 1 else 0) in
    if n <? preceding then
      let m' := m - 1 in
      let preceding' :=
        preceding
        - (days_in_month_table m' + (if (m' =? 2) && leapyear then 1 else 0)) in
      (y, m', n - preceding' + 1)
    else (y, m, n - preceding + 1).

(** The dates a [datetime] can hold. *)
Definition valid_date (y m d : Z) : bool :=
  (1 <=? y) && (y <=? 9999) && (1 <=? m) && (m <=? 12)
  && (1 <=? d) && (d <=? days_in_month y m).

(** [dt + timedelta(seconds=delta)], for a whole number of seconds of
    either sign: the sum is normalised into days and seconds, and a day
    outside the ordinals of years 1 to 9999 is an [OverflowError]. *)
Definition add_seconds (dt : datetime) (delta : Z) : result datetime :=
  let total :=
    ymd2ord (year dt) (month dt) (day dt) * 86400
    + hour dt * 3600 + minute dt * 60 + second dt + delta in
  let days := total / 86400 in
  let secs := total mod 86400 in
  if (0 <? days) && (days <=? MAXORDINAL) then
    let '(y, m, d) := ord2ymd days in
    Ok {| year := y; month := m; day := d;
          hour := secs / 3600; minute := (secs mod 3600) / 60;
          second := secs mod 60; microsecond := microsecond dt |}
  else Raise (OverflowError "date value out of range").

Definition digit (c : N) : option Z :=
  if ((48 <=? c) && (c <=? 57))%N then Some (Z.of_N c - 48) else None.

Definition digit_in (lo hi : Z) (c : N) : option Z :=
  match digit c with
  | Some v => if (lo <=? v) && (v <=? hi) then Some v else None
  | None => None
  end.

(** The alternatives of the month group of [%m], in the order the
    pattern lists them: [1[0-2]], [0[1-9]], [[1-9]]. Each gives the
    value read and the rest of the input. *)
Definition month_alternatives (s : pystr) : list (Z * pystr) :=
  match s with
  | c1 :: c2 :: t =>
    match digit_in 1 1 c1, digit_in 0 2 c2 with
    | Some _, Some v => [(10 + v, t)]
    | _, _ => []
    end
  | _ => []
  end
  ++ match s with
     | c1 :: c2 :: t =>
       match digit_in 0 0 c1, digit_in 1 9 c2 with
       | Some _, Some v => [(v, t)]
       | _, _ => []
       end
     | _ => []
     end
  ++ match s with
     | c1 :: t =>
       match digit_in 1 9 c1 with
       | Some v => [(v, t)]
       | None => []
       end
     | _ => []
     end.

(** The alternatives of the day group of [%d]: [3[01]], [[12]\d],
    [0[1-9]], [[1-9]], and a space before [[1-9]]. The classes written
    with a range hold ASCII digits only; [\d] is any decimal digit. *)
Definition day_alternatives (s : pystr) : list (Z * pystr) :=
  match s with
  | c1 :: c2 :: t =>
    match digit_in 3 3 c1, digit_in 0 1 c2 with
    | Some _, Some v => [(30 + v, t)]
    | _, _ => []
    end
    ++ match digit_in 1 2 c1, decimal_digit c2 with
       | Some a, Some v => [(10 * a + v, t)]
       | _, _ => []
       end
    ++ match digit_in 0 0 c1, digit_in 1 9 c2 with
       | Some _, Some v => [(v, t)]
       | _, _ => []
       end
  | _ => []
  end
  ++ match s with
     | c1 :: t =>
       match digit_in 1 9 c1 with
       | Some v => [(v, t)]
       | None => []
       end
     | _ => []
     end
  ++ match s with
     | c1 :: c2 :: t =>
       match (c1 =? 32)%N, digit_in 1 9 c2 with
       | true, Some v => [(v, t)]
       | _, _ => []
       end
     | _ => []
     end.

(** The first month alternative after which a hyphen and a day follow,
    with the first day alternative there. *)
Fixpoint first_month_day (ms : list (Z * pystr)) : option (Z * Z * pystr) :=
  match ms with
  | [] => None
  | (m, rest) :: later =>
    match rest with
    | c :: after =>
      if (c =? 45)%N then
        match day_alternatives after with
        | (d, remains) :: _ => Some (m, d, remains)
        | [] => first_month_day later
        end
      else first_month_day later
    | [] => first_month_day later
    end
  end.

(** [datetime.datetime.strptime(s, '%Y-%m-%d')]: four decimal digits of
    any script for the year, a hyphen, a month, a hyphen, a day, and
    nothing more; then the date has to exist. *)
Definition strptime (s : pystr) : result datetime :=
  match s with
  | y1 :: y2 :: y3 :: y4 :: h :: rest =>
    match decimal_digit y1, decimal_digit y2, decimal_digit y3,
          decimal_digit y4, (h =? 45)%N with
    | Some a, Some b, Some c, Some d, true =>
      match first_month_day (month_alternatives rest) with
      | Some (m, dd, remains) =>
        match remains with
        | [] =>
          let y := 1000 * a + 100 * b + 10 * c + d in
          if valid_date y m dd then
            Ok {| year := y; month := m; day := dd;
                  hour := 0; minute := 0; second := 0; microsecond := 0 |}
          else Raise (ValueError "date is out of range")
        | _ => Raise (ValueError "unconverted data remains")
        end
      | None => Raise (ValueError "time data does not match format")
      end
    | _, _, _, _, _ => Raise (ValueError "time data does not match format")
    end
  | _ => Raise (ValueError "time data does not match format")
  end.

Definition pad2 (n : Z) : pystr :=
  if n <? 10 then 48%N :: decimal n else decimal n.

(** [dt.strftime('%Y-%m-%d')]. The year is written without padding, as
    the C library does for years below 1000. *)
Definition strftime_date (dt : datetime) : pystr :=
  decimal (year dt) ++ py "-" ++ pad2 (month dt) ++ py "-" ++ pad2 (day dt).

(** [dt.strftime('%Y-%m-%dT%H:%M:%SZ')]. *)
Definition strftime_iso (dt : datetime) : pystr :=
  strftime_date dt ++ py "T" ++ pad2 (hour dt) ++ py ":"
  ++ pad2 (minute dt) ++ py ":" ++ pad2 (second dt) ++ py "Z".


(** The character of a decimal digit. *)
Definition digit_char (v : Z) : N := Z.to_N (48 + v).

(** A date written as [YYYY-MM-DD], every field padded with zeros. *)
Definition iso_date (y m d : Z) : pystr :=
  [ digit_char (y / 1000); digit_char ((y / 100) mod 10);
    digit_char ((y / 10) mod 10); digit_char (y mod 10); 45%N;
    digit_char (m / 10); digit_char (m mod 10); 45%N;
    digit_char (d / 10); digit_char (d mod 10) ].

(** The first and the last whole second of a day. *)
Definition midnight (y m d : Z) : datetime :=
  {| year := y; month := m; day := d;
     hour := 0; minute := 0; second := 0; microsecond := 0 |}.

Definition last_second (dt : datetime) : datetime :=
  {| year := year dt; month := month dt; day := day dt;
     hour := 23; minute := 59; second := 59; microsecond := 0 |}.

(** The [n] integers from [lo] on. *)
Definition numbers (lo : Z) (n : nat) : list Z :=
  map (fun k => lo + Z.of_nat k) (seq 0 n).

(** Whether the month and day groups read [m] and [d] back from their
    two-digit forms. *)
Definition month_day_read (m d : Z) : bool :=
  match first_month_day
          (month_alternatives
             [ digit_char (m / 10); digit_char (m mod 10); 45%N;
               digit_char (d / 10); digit_char (d mod 10) ]) with
  | Some (m', d', []) => (m' =? m) && (d' =? d)
  | _ => false
  end.

End Datetime.

(* ================================================================= *)
(** * SharepointDataExtractor.py *)

Module Extractor.

Import Datetime.

(** [os.environ]. *)
Definition environ := string -> option pystr.

(** The names the module binds before anything runs: the ten imports of
    its first lines, then its constants, its client and its functions.
    No builtin is called [urllib]. *)
Definition module_names : list string :=
  [ "requests"; "HttpNtlmAuth"; "BeautifulSoup"; "re"; "datetime"; "json";
    "os"; "traceback"; "urllib3"; "boto3";
    "DOMAIN_PASSWORD"; "SITE_URL"; "DOMAIN"; "LOGINNAME"; "LOGINPASSWORD";
    "HTTP_PROXY"; "HTTPS_PROXY"; "proxies"; "BUCKET_NAME";
    "S3_OUTPUT_PREFIX"; "s3_client";
    "FIELD_TITLE"; "FIELD_ID"; "FIELD_BODY"; "FIELD_APPROVED_DATE";
    "FIELD_FILE_REF"; "FIELD_CUSTOMER_PARTICIPANT";
    "FIELD_MURATA_PARTICIPANT"; "FIELD_SUMMARY_SP";
    "parse_visit_date"; "store_json_to_s3";
    "process_sharepoint_data_for_batch" ]%string.

(** The module constants read from the environment at import. *)
Record settings := {
  SITE_URL : option pystr;
  DOMAIN : option pystr;
  LOGINNAME : option pystr;
  LOGINPASSWORD : option pystr;
  BUCKET_NAME : option pystr;
  S3_OUTPUT_PREFIX : pystr
}.

Definition settings_of (env : environ) : settings :=
  {| SITE_URL := env "SITE_URL"%string;
     DOMAIN := env "DOMAIN"%string;
     LOGINNAME := env "LOGINNAME"%string;
     LOGINPASSWORD := env "LOGINPASSWORD"%string;
     BUCKET_NAME := env "BUCKET_NAME"%string;
     S3_OUTPUT_PREFIX :=
       match env "S3_OUTPUT_PREFIX"%string with
       | Some v => v
       | None => py "raw_sharepoint_reports_daily/"
       end |}.

Definition FIELD_TITLE : pystr := py "Title".
Definition FIELD_ID : pystr := py "ID".
Definition FIELD_BODY : pystr := py "mrtBody".
Definition FIELD_APPROVED_DATE : pystr := py "mrtApprovedDate".
Definition FIELD_FILE_REF : pystr := py "FileLeafRef".
Definition FIELD_CUSTOMER_PARTICIPANT : pystr := py "mrtCustomerParticipant".
Definition FIELD_MURATA_PARTICIPANT : pystr := py "mrtMurataParticipant".
Definition FIELD_SUMMARY_SP : pystr := py "mrtSummary".

(** ** The outside world *)

(** What [requests.get] gives: a response, with its status, its reason
    and what [response.json()] gives, or an exception. *)
Inductive http_reply :=
| Response (status_code : Z) (reason : pystr) (body : result json)
| Failed (e : exn).

(** Calls that leave the process, in the order they are made. The body
    of a put is the JSON text of [data], kept here as [data]. *)
Inductive event :=
| HttpGet (url : json) (user : pystr) (password : option pystr)
| S3Put (bucket key : pystr) (data : json).

Definition trace := list event.

Definition is_HttpGet (e : event) : bool :=
  match e with HttpGet _ _ _ => true | _ => false end.

Definition requests_made (tr : trace) : nat :=
  List.length (filter is_HttpGet tr).

(** The remote API answers the [n]-th request of the run, the object
    store answers a put, [urlencode] is [urllib.parse.urlencode], and
    [dumps_utf8] is [json.dumps(data, ensure_ascii=False, indent=2)]
    followed by [.encode('utf-8')]: it gives the bytes of the body, kept
    in a put as the data itself, or raises. *)
Record world := {
  remote : nat -> json -> http_reply;
  put_object : pystr -> pystr -> json -> result unit;
  urlencode : list (pystr * pystr) -> pystr;
  dumps_utf8 : json -> result unit
}.

(** ** [parse_visit_date] *)

(** A group of one or two decimal digits, greedy: the reading with two
    digits comes before the reading with one. Each reading gives the
    number and the rest of the input. *)
Definition one_or_two_digits (s : pystr) : list (Z * pystr) :=
  match s with
  | c1 :: c2 :: t =>
    match decimal_digit c1, decimal_digit c2 with
    | Some a, Some b => [((10 * a + b)%Z, t)]
    | _, _ => []
    end
  | _ => []
  end
  ++ match s with
     | c1 :: t =>
       match decimal_digit c1 with
       | Some a => [(a, t)]
       | None => []
       end
     | [] => []
     end.

(** A group of exactly four decimal digits. *)
Definition four_digits (s : pystr) : option (Z * pystr) :=
  match s with
  | c1 :: c2 :: c3 :: c4 :: t =>
    match decimal_digit c1, decimal_digit c2,
          decimal_digit c3, decimal_digit c4 with
    | Some a, Some b, Some c, Some d =>
      Some (1000 * a + 100 * b + 10 * c + d, t)%Z
    | _, _, _, _ => None
    end
  | _ => None
  end.

(** The class of a slash and a hyphen, and the class of the three range
    marks: the fullwidth tilde, the tilde and the hyphen. *)
Definition date_separator (c : N) : bool := ((c =? 47) || (c =? 45))%N.

Definition range_mark (c : N) : bool :=
  ((c =? 65374) || (c =? 126) || (c =? 45))%N.

(** The ways the common start of the two patterns matches at the head
    of [s], in the order the matcher tries them: four digits, a
    separator, one or two digits, a separator, one or two digits. Each
    way gives the three numbers and what follows the day. *)
Definition date_readings (s : pystr) : list (Z * Z * Z * pystr) :=
  match four_digits s with
  | Some (y, c :: after_year) =>
    if date_separator c then
      flat_map
        (fun month =>
           match snd month with
           | c' :: after_month =>
             if date_separator c' then
               map (fun day => (y, fst month, fst day, snd day))
                   (one_or_two_digits after_month)
             else []
           | [] => []
           end)
        (one_or_two_digits after_year)
    else []
  | _ => []
  end.

(** [re.match] of the first pattern: the optional group in brackets
    after the day can always match nothing, so the first reading is the
    match. *)
Definition match_single_date (s : pystr) : option (Z * Z * Z) :=
  match date_readings s with
  | (y, m, d, _) :: _ => Some (y, m, d)
  | [] => None
  end.

(** [re.match] of the second pattern: the first reading that is followed
    by a range mark and a second date. Only the groups of the first
    date are used. *)
Definition match_range_date (s : pystr) : option (Z * Z * Z) :=
  match
    find (fun r =>
            match snd r with
            | c :: after_mark =>
              range_mark c
              && match date_readings after_mark with
                 | [] => false
                 | _ => true
                 end
            | [] => false
            end)
         (date_readings s)
  with
  | Some (y, m, d, _) => Some (y, m, d)
  | None => None
  end.

(** [datetime.datetime(year, month, day).strftime('%Y-%m-%d')] inside
    [try], with [except ValueError: pass]. *)
Definition formatted_date (ymd : Z * Z * Z) : option pystr :=
  let '(y, m, d) := ymd in
  if valid_date y m d then Some (strftime_date (midnight y m d)) else None.

Definition parse_visit_date (date_str : option pystr) : option pystr :=
  match date_str with
  | None | Some [] => None
  | Some s =>
    let single :=
      match match_single_date s with
      | Some ymd => formatted_date ymd
      | None => None
      end in
    match single with
    | Some r => Some r
    | None =>
      match match_range_date s with
      | Some ymd => formatted_date ymd
      | None => None
      end
    end
  end.

(** Writing a date the way the two patterns read it: [script_digit zero v]
    is the digit [v] of the script whose digit zero is [zero]; a year
    takes four digits, a month or a day two digits, or one digit when it
    is below ten and not padded. *)
Definition script_digit (zero : N) (v : Z) : N := (zero + Z.to_N v)%N.

Definition year_field (zero : N) (y : Z) : pystr :=
  [ script_digit zero (y / 1000); script_digit zero ((y / 100) mod 10);
    script_digit zero ((y / 10) mod 10); script_digit zero (y mod 10) ]%Z.

Definition date_field (zero : N) (padded : bool) (n : Z) : pystr :=
  if (padded || (10 <=? n)%Z)%bool
  then [script_digit zero (n / 10); script_digit zero (n mod 10)]%Z
  else [script_digit zero n].

(** Whether the next character is a decimal digit. *)
Definition digit_ahead (s : pystr) : bool :=
  match s with
  | c :: _ => match decimal_digit c with Some _ => true | None => false end
  | [] => false
  end.

(** ** [store_json_to_s3] *)

Definition store_json_to_s3 (w : world) (c : settings)
    (data : json) (filename : pystr) (tr : trace) : result bool * trace :=
  match BUCKET_NAME c with
  | Some (b :: ucket) =>
    let bucket := b :: ucket in
    (* the body of the [try] block: the text, its bytes, the put *)
    match dumps_utf8 w data with
    | Raise _ =>
      (* except Exception as e: print(..., exc_info=True); return False *)
      (_ <- print ["exc_info"%string] ;; Ok false, tr)
    | Ok _ =>
      let tr := tr ++ [S3Put bucket filename data] in
      match put_object w bucket filename data with
      | Ok _ => (Ok true, tr)
      | Raise _ =>
        (_ <- print ["exc_info"%string] ;; Ok false, tr)
      end
    end
  | _ => (Ok false, tr)
  end.

(** ** [process_sharepoint_data_for_batch] *)

Definition required_envs : list string :=
  [ "DOMAIN_PASSWORD"; "SITE_URL"; "DOMAIN"; "LOGINNAME"; "LOGINPASSWORD";
    "BUCKET_NAME" ]%string.

Fixpoint check_required_envs (env : environ) (names : list string)
    : result unit :=
  match names with
  | [] => Ok tt
  | env_var :: rest =>
    if unset (env env_var)
    then Raise (ValueError ("必須環境変数 '" ++ env_var
                            ++ "' が設定されてないわよ！")%string)
    else check_required_envs env rest
  end.

(** The first [try] block: the day, and the two bounds of the filter as
    the [datetime] values that are then formatted. Whatever goes wrong
    inside reaches the handler, whose [print] call comes first. *)
Definition day_bounds (target_date_str : pystr)
    : result (datetime * datetime) :=
  let attempt :=
    target_dt_utc <- strptime target_date_str ;;
    next_day <- add_seconds target_dt_utc 86400 ;;
    end_dt <- add_seconds next_day (-1) ;;
    Ok (target_dt_utc, end_dt) in
  match attempt with
  | Ok r => Ok r
  | Raise _ =>
    _ <- print ["exc_info"%string] ;;
    Raise (ValueError "不正な日付形式よ！YYYY-MM-DD形式で日付を指定しなさい")
  end.

(** The [$filter] of the query, from the two formatted bounds. *)
Definition filter_text (start_string_gmt end_string_gmt : pystr) : pystr :=
  py "mrtApprovedDate ge datetime'" ++ start_string_gmt
  ++ py "' and mrtApprovedDate le datetime'" ++ end_string_gmt ++ py "'".

Definition query_params_base (start_string_gmt end_string_gmt : pystr)
    : list (pystr * pystr) :=
  [ (py "$filter", filter_text start_string_gmt end_string_gmt);
    (py "$select",
     FIELD_TITLE ++ py "," ++ FIELD_ID ++ py "," ++ FIELD_BODY ++ py ","
     ++ FIELD_APPROVED_DATE ++ py "," ++ FIELD_FILE_REF ++ py ","
     ++ FIELD_CUSTOMER_PARTICIPANT ++ py "," ++ FIELD_MURATA_PARTICIPANT
     ++ py "," ++ FIELD_SUMMARY_SP ++ py ",Author/Id");
    (py "$expand", py "Author") ].


(** ** The remote API's reading of a filter *)








Definition written (dt : datetime) : Prop :=
  (1 <= year dt <= 9999 /\ 0 <= month dt <= 99 /\ 0 <= day dt <= 99
   /\ 0 <= hour dt <= 99 /\ 0 <= minute dt <= 99 /\ 0 <= second dt <= 99
   /\ microsecond dt = 0)%Z.






(** [response.raise_for_status()]. *)
Definition raise_for_status (status_code : Z) (reason : pystr)
    : result unit :=
  if ((400 <=? status_code) && (status_code <? 600))%Z
  then Raise (HTTPError status_code reason)
  else Ok tt.

Definition auth_failed : exn :=
  PyException "SharePoint認証に繰り返し失敗しました。正しいパスワードを確認しなさい！".

Definition fetch_failed : exn :=
  PyException "SharePointからのデータ取得に失敗しました。認証を再試行しても成功しませんでした。".

(** The request for [url], with the credentials of
    [HttpNtlmAuth]: the domain, a backslash and the login name, and the
    password. *)
Definition get_event (c : settings) (url : json) : event :=
  HttpGet url (fmt (DOMAIN c) ++ [92%N] ++ fmt (LOGINNAME c)) (LOGINPASSWORD c).

(** One [requests.get]: the request is recorded and the remote API
    answers according to how many requests came before. *)
Definition http_get (w : world) (c : settings) (url : json) (tr : trace)
    : http_reply * trace :=
  (remote w (requests_made tr) url,
   tr ++ [get_event c url]).

(** The loop [for count in range(3)] over one page. [Ok (Some body)] is
    the [break] with [sharepoint_response] set, [Ok None] the end of the
    range with [sharepoint_response] still [None]. *)
Fixpoint for_count (w : world) (c : settings) (next_link : json)
    (counts : list Z) (tr : trace) : result (option (result json)) * trace :=
  match counts with
  | [] => (Ok None, tr)
  | count :: later =>
    let '(reply, tr) := http_get w c next_link tr in
    match reply with
    | Response status_code reason body =>
      if (status_code =? 200)%Z then (Ok (Some body), tr)
      else if (status_code =? 401)%Z then
        if (count <? 2)%Z then for_count w c next_link later tr
        else (Raise auth_failed, tr)
      else
        match raise_for_status status_code reason with
        | Ok _ => for_count w c next_link later tr
        | Raise e =>
          (* except requests.exceptions.RequestException *)
          if (count <? 2)%Z then for_count w c next_link later tr
          else (Raise e, tr)
        end
    | Failed e =>
      if is_RequestException e then
        if (count <? 2)%Z then for_count w c next_link later tr
        else (Raise e, tr)
      else (Raise e, tr)
    end
  end.

(** The exception a reply turns into inside the [try] block, when it is
    one that the handler of [RequestException] catches: the [HTTPError]
    of [raise_for_status], or what [requests.get] raised. *)
Definition caught (reply : http_reply) : option exn :=
  match reply with
  | Response status_code reason _ =>
    if (status_code =? 200)%Z || (status_code =? 401)%Z then None
    else
      match raise_for_status status_code reason with
      | Raise e => Some e
      | Ok _ => None
      end
  | Failed e => if is_RequestException e then Some e else None
  end.

Definition request_page (w : world) (c : settings) (next_link : json)
    (tr : trace) : result (option (result json)) * trace :=
  for_count w c next_link [0; 1; 2]%Z tr.

(** The keys of a dict, each once, in the order of first insertion. *)
Fixpoint dict_keys (seen : list pystr) (fields : list (pystr * json))
    : list pystr :=
  match fields with
  | [] => []
  | (k, _) :: rest =>
    if existsb (str_eqb k) seen then dict_keys seen rest
    else k :: dict_keys (k :: seen) rest
  end.

(** [all_items.extend(v)]: [v] is iterated. *)
Definition extend (all_items : list json) (v : json) : result (list json) :=
  match v with
  | JArr items => Ok (all_items ++ items)
  | JStr s => Ok (all_items ++ map (fun ch => JStr [ch]) s)
  | JObj fields => Ok (all_items ++ map JStr (dict_keys [] fields))
  | _ => Raise (TypeError "object is not iterable")
  end.

(** One page, once received: its items are appended and the next link
    is read. *)
Definition read_page (body : result json) (all_items : list json)
    : result (list json * json) :=
  json_data <- body ;;
  value <- get json_data (py "value") (JArr []) ;;
  all_items <- extend all_items value ;;
  next <- get json_data (py "__next") JNull ;;
  next_link <- get json_data (py "odata.nextLink") next ;;
  Ok (all_items, next_link).

(** The loop [while next_link]. [None] is a run that is still
    following links after [fuel] pages. *)
Fixpoint fetch_pages (w : world) (c : settings) (fuel : nat)
    (next_link : json) (all_items : list json) (tr : trace)
    : option (result (list json) * trace) :=
  if negb (truthy next_link) then Some (Ok all_items, tr) else
  match fuel with
  | O => None
  | S fuel =>
    match request_page w c next_link tr with
    | (Raise e, tr) => Some (Raise e, tr)
    | (Ok None, tr) => Some (Raise fetch_failed, tr)
    | (Ok (Some body), tr) =>
      match read_page body all_items with
      | Raise e => Some (Raise e, tr)
      | Ok (all_items, next_link) =>
        fetch_pages w c fuel next_link all_items tr
      end
    end
  end.

(** A reply after which the loop over [count] goes on to its next
    attempt, when one is left: any status other than 200, or an
    exception of the [requests] library. *)
Definition retried (reply : http_reply) : bool :=
  match reply with
  | Response status_code _ _ => negb (status_code =? 200)%Z
  | Failed e => is_RequestException e
  end.

(** The remote API serves [pages] from its [n]-th request on, starting
    at [url]: each page is answered at the first attempt with status 200
    and a body that [read_page] reads as the items of the page and the
    link to the next page, and the link of the last page is not one the
    loop follows. *)
Fixpoint serves (w : world) (n : nat) (url : json)
    (pages : list (list json * json)) : Prop :=
  match pages with
  | [] => truthy url = false
  | (items, next) :: later =>
    truthy url = true
    /\ (exists reason body,
          remote w n url = Response 200 reason body
          /\ forall seen, read_page body seen = Ok (seen ++ items, next))
    /\ serves w (S n) next later
  end.

(** The pages a run of the loop goes through from its [n]-th request on,
    starting at [url], each with the number of requests sent for it: the
    link of a page is one the loop follows, a page costs one to three
    requests, and the loop goes from a page to the next one only when
    the last request for the page was answered with status 200 and a
    body in which [read_page] reads the link of the next page. *)
Fixpoint visits_from (w : world) (n : nat) (url : json)
    (visits : list (json * nat)) : Prop :=
  match visits with
  | [] => True
  | (u, k) :: later =>
    u = url /\ truthy url = true /\ (1 <= k <= 3)%nat
    /\ match later with
       | [] => True
       | (u', _) :: _ =>
         (exists reason body seen all_items,
            remote w (n + k - 1) url = Response 200 reason body
            /\ read_page body seen = Ok (all_items, u'))
         /\ visits_from w (n + k) u' later
       end
  end.

(** The requests of a list of visits, in order. *)
Definition visit_requests (c : settings) (visits : list (json * nat))
    : trace :=
  flat_map (fun visit => repeat (get_event c (fst visit)) (snd visit)) visits.

(** The requests that fetch [pages], one for each page. *)
Fixpoint page_requests (c : settings) (url : json)
    (pages : list (list json * json)) : trace :=
  match pages with
  | [] => []
  | (_, next) :: later => get_event c url :: page_requests c next later
  end.

(** The dict the function returns. *)
Record batch_result := {
  status : pystr;
  message : pystr;
  s3_output_key : option pystr
}.

(** The end of the function, from [if not all_sharepoint_items] on. *)
Definition store_batch (w : world) (c : settings)
    (target_date_str : pystr) (target_dt_utc : datetime)
    (all_sharepoint_items : list json) (tr : trace)
    : result batch_result * trace :=
  if negb (truthy (JArr all_sharepoint_items)) then
    (Ok {| status := py "SUCCESS";
           message := py "SharePointから日付 " ++ target_date_str
                      ++ py " のデータが見つかりませんでした。";
           s3_output_key := None |}, tr)
  else
    let s3_output_filename :=
      S3_OUTPUT_PREFIX c ++ strftime_date target_dt_utc
      ++ py "_raw_reports.json" in
    match store_json_to_s3 w c (JArr all_sharepoint_items)
                           s3_output_filename tr with
    | (Raise e, tr) => (Raise e, tr)
    | (Ok false, tr) =>
      (Raise (PyException "S3へのレポートリストの保存に失敗したわ。"), tr)
    | (Ok true, tr) =>
      (Ok {| status := py "SUCCESS";
             message := py "SharePointから日付 " ++ target_date_str
                        ++ py " のデータ取得とS3への保存が完了したわ！S3キー: "
                        ++ s3_output_filename;
             s3_output_key := Some s3_output_filename |}, tr)
    end.

Definition process_sharepoint_data_for_batch (w : world) (env : environ)
    (fuel : nat) (target_date_str : pystr)
    : option (result batch_result * trace) :=
  let c := settings_of env in
  let tr : trace := [] in
  match check_required_envs env required_envs with
  | Raise e => Some (Raise e, tr)
  | Ok _ =>
  match day_bounds target_date_str with
  | Raise e => Some (Raise e, tr)
  | Ok (target_dt_utc, end_dt) =>
    let start_string_gmt := strftime_iso target_dt_utc in
    let end_string_gmt := strftime_iso end_dt in
    let params := query_params_base start_string_gmt end_string_gmt in
    (* the f-string of [next_link] evaluates [urllib.parse.urlencode] *)
    match resolve module_names "urllib" with
    | Raise e => Some (Raise e, tr)
    | Ok _ =>
      let next_link :=
        JStr (fmt (SITE_URL c)
              ++ py "/_api/web/lists/getbytitle('For Global')/items?"
              ++ urlencode w params) in
      match fetch_pages w c fuel next_link [] tr with
      | None => None
      | Some (Raise e, tr) => Some (Raise e, tr)
      | Some (Ok all_sharepoint_items, tr) =>
        Some (store_batch w c target_date_str target_dt_utc
                          all_sharepoint_items tr)
      end
    end
  end
  end.

(** ** The script

    What the entry point does with the outcome of the function: the
    exit status. [except Exception] catches every exception of [exn]. *)
Definition exit_status (outcome : result batch_result) : Z :=
  match outcome with
  | Ok result =>
    if str_eqb (status result) (py "SUCCESS") then 0%Z else 1%Z
  | Raise _ => 1%Z
  end.

Definition main (w : world) (env : environ) (fuel : nat)
    : option (Z * trace) :=
  match env "TARGET_DATE"%string with
  | Some (t :: arget) =>
    match process_sharepoint_data_for_batch w env fuel (t :: arget) with
    | None => None
    | Some (outcome, tr) => Some (exit_status outcome, tr)
    end
  | _ => Some (1%Z, [])
  end.

End Extractor.

(* ================================================================= *)
(** * S3toExHistoricalIndexer.py: text extraction *)

Module Indexer.

(** ** [extract_text_from_html]

    [soup_text html] stands for the three library steps
    [BeautifulSoup(html, 'html.parser')], removal of every [script] and
    [style] element, and [soup.get_text()]. *)

Definition normalize_text (text : pystr) : pystr :=
  let text := replace 160 32 (replace 12288 32 (replace 8203 32 text)) in
  let lines :=
    map strip
        (filter (fun line => truthy (JStr (strip line))) (splitlines text)) in
  join (py " ") lines.

Definition extract_text_from_html
    (soup_text : json -> result pystr) (html : json) : result pystr :=
  text <- soup_text html ;;
  Ok (normalize_text text).

(** Characters that [normalize_text] leaves in a line: no line boundary
    and none of the three characters it replaces. *)
Definition settled (c : N) : Prop :=
  is_linebreak c = false /\ c <> 8203%N /\ c <> 12288%N /\ c <> 160%N.

(** What [normalize_text] returns: the empty string, or a string with no
    white space at either end whose characters are all settled. *)
Definition flat (y : pystr) : Prop :=
  y = [] \/ (edged y /\ edged (rev y) /\ Forall settled y).

(** Input without markup: no tag opener and no character reference. *)
Definition markup_free (s : pystr) : bool :=
  forallb (fun c => negb ((c =? 60) || (c =? 38))%N) s.

(** The characters the tree builder counts as ASCII spaces: space, line
    feed, tab, form feed, carriage return. *)
Definition ascii_blank (s : pystr) : bool :=
  forallb (fun c => ((c =? 32) || (c =? 10) || (c =? 9) || (c =? 12)
                     || (c =? 13))%N) s.

(** What the parser does with a string in which nothing is markup: the
    whole input is one text node, and a text node made only of ASCII
    spaces is kept as a single line feed or a single space. Used where a
    concrete parser is needed; it says nothing about input with tags. *)
Definition soup_of_plain_text (html : json) : result pystr :=
  match html with
  | JStr x =>
    if ascii_blank x then
      Ok (match x with
          | [] => []
          | _ => if existsb (N.eqb 10) x then [10%N] else [32%N]
          end)
    else Ok x
  | _ => Raise (TypeError "markup is not a string")
  end.

(** ** [extract_sections] *)

Definition label_summary : pystr := py "概要：".
Definition label_detail : pystr := py "詳細：".
Definition label_comment : pystr := py "所感：".
Definition key_summary : pystr := py "概要".
Definition key_detail : pystr := py "詳細".
Definition key_comment : pystr := py "所感".
Definition NA : pystr := py "N/A".

(** [$] without [re.MULTILINE]: the end of the string, or just before a
    line feed that ends the string. *)
Definition at_dollar (s : pystr) : bool :=
  match s with
  | [] => true
  | [c] => (c =? 10)%N
  | _ => false
  end.

(** [(?:<br/>|\n|$)] followed by the literal [next], tried at the head
    of [s], alternatives in order. *)
Definition boundary_then (next s : pystr) : bool :=
  startswith (py "<br/>" ++ next) s
  || startswith (10%N :: next) s
  || (at_dollar s && startswith next s).

(** The lazy group (any characters, [re.DOTALL]) followed by the boundary
    and [next]: the shortest prefix of [s] after which the rest of the
    pattern matches. [acc] is the captured text, reversed. *)
Fixpoint lazy_group (next : pystr) (acc s : pystr) : option pystr :=
  match s with
  | [] => if boundary_then next [] then Some (rev acc) else None
  | c :: t =>
    if boundary_then next s then Some (rev acc)
    else lazy_group next (c :: acc) t
  end.

(** The white-space star before the group is greedy: the longest run of
    white space is tried first, then shorter ones, down to none. *)
Fixpoint spaces_then_group (next : pystr) (s : pystr) : option pystr :=
  match s with
  | [] => lazy_group next [] []
  | c :: t =>
    if isspace c then
      match spaces_then_group next t with
      | Some g => Some g
      | None => lazy_group next [] s
      end
    else lazy_group next [] s
  end.

(** [re.search] with [re.DOTALL] for the first two patterns: [label],
    optional white space, the lazy group, the boundary, [next]. The
    leftmost start at which the pattern matches wins; the value is
    [group(1)]. *)
Fixpoint search_until (label next : pystr) (s : pystr) : option pystr :=
  let here :=
    if startswith label s
    then spaces_then_group next (skipn (List.length label) s)
    else None in
  match here with
  | Some g => Some g
  | None =>
    match s with
    | [] => None
    | _ :: t => search_until label next t
    end
  end.

(** [re.search] with [re.DOTALL] for the third pattern: [label],
    optional white space, a greedy group. After the leftmost [label] the
    two greedy stars always succeed, the first on all the white space,
    the group on all that follows. *)
Fixpoint search_rest (label : pystr) (s : pystr) : option pystr :=
  if startswith label s
  then Some (lstrip (skipn (List.length label) s))
  else
    match s with
    | [] => None
    | _ :: t => search_rest label t
    end.

Definition section_value (m : option pystr) : pystr :=
  match m with
  | Some g => strip g
  | None => NA
  end.

(** The returned dict, in insertion order. *)
Definition extract_sections (body_text_html : pystr)
    : list (pystr * pystr) :=
  let summary_match := search_until label_summary label_detail body_text_html in
  let detail_match := search_until label_detail label_comment body_text_html in
  let comment_match := search_rest label_comment body_text_html in
  [ (key_summary, section_value summary_match);
    (key_detail, section_value detail_match);
    (key_comment, section_value comment_match) ].

(** ** Configuration and the outside world *)

Definition environ := string -> option pystr.

(** [os.environ.get(name, default)]. *)
Definition environ_get (env : environ) (name : string) (default : pystr)
    : pystr :=
  match env name with
  | Some v => v
  | None => default
  end.

(** The names the module binds: its imports, constants, clients and
    functions. The call site of [index_data_to_elasticsearch] has no
    definition to go with it. *)
Definition module_names : list string :=
  [ "json"; "os"; "traceback"; "Elasticsearch"; "ConnectionError"; "boto3";
    "ELASTICSEARCH_HOST"; "ELASTICSEARCH_INDEX_NAME"; "S3_BUCKET_NAME";
    "S3_INPUT_PREFIX"; "BEDROCK_SUMMARY_MODEL_ID";
    "BEDROCK_EMBEDDING_MODEL_ID"; "AWS_REGION"; "EMBEDDING_DIMS";
    "s3_client"; "bedrock_runtime"; "get_elasticsearch_client";
    "summarize_text_with_bedrock"; "get_embedding_from_bedrock";
    "extract_text_from_html"; "extract_sections";
    "list_json_files_from_s3"; "process_s3_data_and_index_es" ]%string.

(** The module constants read from the environment at import. *)
Record settings := {
  ELASTICSEARCH_HOST : option pystr;
  ELASTICSEARCH_INDEX_NAME : option pystr;
  S3_BUCKET_NAME : option pystr;
  S3_INPUT_PREFIX : pystr;
  BEDROCK_SUMMARY_MODEL_ID : pystr;
  BEDROCK_EMBEDDING_MODEL_ID : pystr
}.

Definition settings_of (env : environ) : settings :=
  {| ELASTICSEARCH_HOST := env "ELASTICSEARCH_HOST"%string;
     ELASTICSEARCH_INDEX_NAME := env "ELASTICSEARCH_INDEX_NAME"%string;
     S3_BUCKET_NAME := env "S3_BUCKET_NAME"%string;
     S3_INPUT_PREFIX :=
       environ_get env "S3_INPUT_PREFIX" (py "raw_sharepoint_reports_daily/");
     BEDROCK_SUMMARY_MODEL_ID :=
       environ_get env "BEDROCK_SUMMARY_MODEL_ID"
                   (py "anthropic.claude-instant-v1");
     BEDROCK_EMBEDDING_MODEL_ID :=
       environ_get env "BEDROCK_EMBEDDING_MODEL_ID"
                   (py "amazon.titan-embed-text-v1") |}.

(** The document handed to the index writer: a dict, in the order of
    its literal. *)
Definition es_doc := list (pystr * json).

(** The answers of [list_objects_v2], one page after the other: the
    keys of a page, if it has any, and whether a continuation token
    leads to a further page. A call can also raise. *)
Inductive listing :=
| LastPage (contents : option (list pystr))
| MorePages (contents : option (list pystr)) (rest : listing)
| ListingError (e : exn).

(** The outside world of the indexing stage. [invoke_model] answers the
    [n]-th invocation of the run with the decoded body of the response,
    or raises; [read_json] is [get_object], the decoding of its body
    and [json.loads]; [str_of] is the text an f-string or [str()] puts
    for a value. *)
Record world := {
  bucket_listing : listing;
  read_json : pystr -> result json;
  es_ping : bool;
  invoke_model : nat -> pystr -> pystr -> result json;
  soup_text : json -> result pystr;
  str_of : json -> pystr;
  es_accepts : pystr -> es_doc -> bool
}.

(** What the run has done so far: the number of model invocations, the
    documents handed to the call of the index writer, and the documents
    upserted, each with its index name. *)
Record state := {
  invocations : nat;
  attempts : list es_doc;
  upserts : list (pystr * es_doc)
}.

Definition initial : state :=
  {| invocations := 0; attempts := []; upserts := [] |}.

(** Modelled from the spec: the Index Writer [index_data_to_elasticsearch],
    of which the module has the call and not the definition. Given one
    document it upserts it under the configured index name and returns
    whether the write succeeded; a failed write leaves the index as it
    was. *)
Definition index_data_to_elasticsearch (w : world) (c : settings)
    (doc : es_doc) (st : state) : bool * state :=
  let index_name := fmt (ELASTICSEARCH_INDEX_NAME c) in
  if es_accepts w index_name doc then
    (true, {| invocations := invocations st; attempts := attempts st;
              upserts := upserts st ++ [(index_name, doc)] |})
  else (false, st).

(** ** Control flow of the body of a loop

    A step goes on with a value, leaves the iteration with [continue],
    or raises. *)
Inductive flow (A : Type) :=
| Go (a : A)
| Continue
| Throw (e : exn).
Arguments Go {A} a.
Arguments Continue {A}.
Arguments Throw {A} e.

Definition M (A : Type) := state -> flow A * state.

Definition ret {A} (a : A) : M A := fun st => (Go a, st).

Definition and_then {A B} (m : M A) (k : A -> M B) : M B :=
  fun st =>
    match m st with
    | (Go a, st') => k a st'
    | (Continue, st') => (Continue, st')
    | (Throw e, st') => (Throw e, st')
    end.

Definition lift {A} (r : result A) : M A :=
  fun st =>
    match r with
    | Ok a => (Go a, st)
    | Raise e => (Throw e, st)
    end.

Definition continue {A} : M A := fun st => (Continue, st).

Notation "x <~ m ;;; k" := (and_then m (fun x => k))
  (at level 61, m at next level, right associativity).

(** A step that touches neither the documents handed to the index call
    nor the index. *)
Definition quiet {A} (m : M A) : Prop :=
  forall st r st', m st = (r, st') ->
    attempts st' = attempts st /\ upserts st' = upserts st.

(** ** The two inference helpers *)

(** One [bedrock_runtime.invoke_model] with the decoding of its body. *)
Definition invoke (w : world) (model_id input : pystr) : M json :=
  fun st =>
    let st' := {| invocations := S (invocations st);
                  attempts := attempts st; upserts := upserts st |} in
    match invoke_model w (invocations st) model_id input with
    | Ok body => (Go body, st')
    | Raise e => (Throw e, st')
    end.

(** [s[:n]] when [len(s) > n]. *)
Definition truncate (n : Z) (text : pystr) : pystr :=
  if (n <? Z.of_nat (List.length text))%Z then firstn (Z.to_nat n) text
  else text.

(** [v.strip()]: only a [str] has the method here. *)
Definition strip_method (v : json) : result pystr :=
  match v with
  | JStr s => Ok (strip s)
  | _ => Raise (AttributeError "object has no attribute 'strip'")
  end.

(** A [try] block whose handler is
    [except Exception as e: print(..., exc_info=True); return None]:
    the handler's [print] call comes first. *)
Definition or_none {A} (body : M A) : M (option A) :=
  fun st =>
    match body st with
    | (Go a, st') => (Go (Some a), st')
    | (Continue, st') => (Continue, st')
    | (Throw _, st') =>
      match print ["exc_info"%string] with
      | Ok _ => (Go None, st')
      | Raise e => (Throw e, st')
      end
    end.

Definition summarize_text_with_bedrock (w : world) (c : settings)
    (text : pystr) : M (option pystr) :=
  if negb (truthy (JStr (BEDROCK_SUMMARY_MODEL_ID c))) then ret None else
  let text := truncate 5000 text in
  let prompt :=
    [10; 10]%N ++ py "Human: 以下の出張報告を簡潔に、かつ重要な情報を失わずに要約してください。"
    ++ [10; 10]%N ++ py "<report>" ++ [10%N] ++ text ++ [10%N]
    ++ py "</report>" ++ [10; 10]%N ++ py "Assistant:" in
  or_none
    (response_body <~ invoke w (BEDROCK_SUMMARY_MODEL_ID c) prompt ;;;
     completion <~ lift (get response_body (py "completion") JNull) ;;;
     lift (strip_method completion)).

(** The value is the embedding, [JNull] standing for [None]. *)
Definition get_embedding_from_bedrock (w : world) (c : settings)
    (text : pystr) : M json :=
  if negb (truthy (JStr (BEDROCK_EMBEDDING_MODEL_ID c))) then ret JNull else
  let text := truncate 8000 text in
  r <~ or_none
         (response_body <~ invoke w (BEDROCK_EMBEDDING_MODEL_ID c) text ;;;
          lift (get response_body (py "embedding") JNull)) ;;;
  ret (match r with Some v => v | None => JNull end).

(** ** [list_json_files_from_s3] *)

Fixpoint listed_files (l : listing) : result (list pystr) :=
  match l with
  | LastPage contents =>
    Ok (match contents with Some keys => keys | None => [] end)
  | MorePages contents rest =>
    more <- listed_files rest ;;
    Ok (match contents with Some keys => keys | None => [] end ++ more)
  | ListingError e => Raise e
  end.

(** [key.endswith('.json')]. *)
Definition endswith_json (key : pystr) : bool :=
  startswith (rev (py ".json")) (rev key).

Definition list_json_files_from_s3 (w : world) (c : settings)
    : result (list pystr) :=
  if unset (S3_BUCKET_NAME c)
  then Raise (ValueError "S3_BUCKET_NAME環境変数が設定されてないわよ！")
  else
    files <- listed_files (bucket_listing w) ;;
    Ok (filter endswith_json files).

Definition get_elasticsearch_client (w : world) (c : settings)
    : result unit :=
  if unset (ELASTICSEARCH_HOST c)
  then Raise (ValueError "ELASTICSEARCH_HOST環境変数が設定されてないわよ！")
  else if es_ping w then Ok tt else Raise ESConnectionError.

(** ** One record *)

(** The dict literal [es_doc]: the fixed translation from the names used
    while a record is processed to the field names of the index. *)
Definition make_es_doc (Title mrtApprovedDate customer murata summary
    detail detail_summary full_vector summary_vector URL ID FileLeafRef
    : json) : es_doc :=
  [ (py "タイトル", Title);
    (py "訪問日", mrtApprovedDate);
    (py "得意先参加者", customer);
    (py "村田同行者", murata);
    (py "概要", summary);
    (py "詳細", detail);
    (py "詳細要約", detail_summary);
    (py "全文ベクトル", full_vector);
    (py "全文要約ベクトル", summary_vector);
    (py "URL", URL);
    (py "source_sharepoint_file_id", ID);
    (py "source_sharepoint_filename", FileLeafRef) ].

(** The body of the [try] block of one record up to the dict literal:
    the fields, the extracted text, the generated summary and the two
    embeddings. *)
Definition enrich (w : world) (c : settings) (env : environ)
    (sp_raw_item : json) : M es_doc :=
  Title <~ lift (get sp_raw_item (py "Title") (JStr NA)) ;;;
  id <~ lift (get sp_raw_item (py "ID") (JStr NA)) ;;;
  let ID := str_of w id in
  mrtApprovedDate <~ lift (get sp_raw_item (py "mrtApprovedDate") (JStr [])) ;;;
  let URL :=
    environ_get env "SITE_URL" []
    ++ py "/Lists/For%20Global/DispForm.aspx?ID=" ++ ID in
  FileLeafRef <~ lift (get sp_raw_item (py "FileLeafRef")
                           (JStr (py "SharePoint_Item_" ++ ID ++ py ".txt"))) ;;;
  mrtBody <~ lift (get sp_raw_item (py "mrtBody") (JStr [])) ;;;
  extracted_body_text <~ lift (extract_text_from_html (soup_text w) mrtBody) ;;;
  summary <~ lift (get sp_raw_item (py "mrtSummary") (JStr NA)) ;;;
  summary_text <~ summarize_text_with_bedrock w c extracted_body_text ;;;
  match summary_text with
  | None | Some [] => continue
  | Some detail_summary =>
    customer <~ lift (get sp_raw_item (py "mrtCustomerParticipant") (JStr NA)) ;;;
    murata <~ lift (get sp_raw_item (py "mrtMurataParticipant") (JStr NA)) ;;;
    let full_embedding_text :=
      py "タイトル: " ++ str_of w Title ++ [10%N]
      ++ py "概要: " ++ str_of w summary ++ [10%N]
      ++ py "詳細: " ++ extracted_body_text in
    full_vector <~ get_embedding_from_bedrock w c full_embedding_text ;;;
    match full_vector with
    | JNull => continue
    | _ =>
      let summary_embedding_text :=
        py "タイトル: " ++ str_of w Title ++ [10%N]
        ++ py "概要: " ++ str_of w summary ++ [10%N]
        ++ py "詳細要約: " ++ detail_summary in
      summary_vector <~ get_embedding_from_bedrock w c summary_embedding_text ;;;
      match summary_vector with
      | JNull => continue
      | _ =>
        ret (make_es_doc Title mrtApprovedDate customer murata summary
               (JStr extracted_body_text) (JStr detail_summary)
               full_vector summary_vector (JStr URL) (JStr ID) FileLeafRef)
      end
    end
  end.

(** The call [index_data_to_elasticsearch(es_client, es_doc)] in a
    module that binds [names]: the document is handed to the call, the
    name is evaluated, and the writer runs if there is one. *)
Definition index_call (names : list string) (w : world) (c : settings)
    (doc : es_doc) : M bool :=
  fun st =>
    let st := {| invocations := invocations st;
                 attempts := attempts st ++ [doc];
                 upserts := upserts st |} in
    match resolve names "index_data_to_elasticsearch" with
    | Raise e => (Throw e, st)
    | Ok _ =>
      let '(written, st) := index_data_to_elasticsearch w c doc st in
      (Go written, st)
    end.

(** One iteration of the loop over the records of a file: [true] when
    the record adds one to [successful_indexes_in_file]. The handler of
    the [try] block goes on with the next record. *)
Definition process_record (names : list string) (w : world) (c : settings)
    (env : environ) (sp_raw_item : json) (st : state) : bool * state :=
  match (doc <~ enrich w c env sp_raw_item ;;;
         index_call names w c doc) st with
  | (Go written, st') => (written, st')
  | (Continue, st') => (false, st')
  | (Throw _, st') => (false, st')
  end.

Fixpoint process_records (names : list string) (w : world) (c : settings)
    (env : environ) (raw_reports_in_file : list json)
    (successful_indexes_in_file : Z) (st : state) : Z * state :=
  match raw_reports_in_file with
  | [] => (successful_indexes_in_file, st)
  | sp_raw_item :: rest =>
    let '(written, st) := process_record names w c env sp_raw_item st in
    process_records names w c env rest
      (if written then successful_indexes_in_file + 1
       else successful_indexes_in_file)%Z st
  end.

(** ** The files *)

(** The two counters of the run. *)
Record totals := {
  total_reports_indexed : Z;
  total_files_processed : Z
}.

(** One iteration of the loop over the keys. A file that cannot be
    read or parsed, that is not a list, or that is empty, is left. *)
Definition process_file (names : list string) (w : world) (c : settings)
    (env : environ) (s3_key : pystr) (t : totals) (st : state)
    : totals * state :=
  match read_json w s3_key with
  | Raise _ => (t, st)
  | Ok (JArr []) => (t, st)
  | Ok (JArr raw_reports_in_file) =>
    let '(successful_indexes_in_file, st) :=
      process_records names w c env raw_reports_in_file 0%Z st in
    ({| total_reports_indexed :=
          (total_reports_indexed t + successful_indexes_in_file)%Z;
        total_files_processed := (total_files_processed t + 1)%Z |}, st)
  | Ok _ => (t, st)
  end.

Fixpoint process_files (names : list string) (w : world) (c : settings)
    (env : environ) (all_json_keys : list pystr) (t : totals) (st : state)
    : totals * state :=
  match all_json_keys with
  | [] => (t, st)
  | s3_key :: rest =>
    let '(t, st) := process_file names w c env s3_key t st in
    process_files names w c env rest t st
  end.

(** The dict the function returns, with the two counters it prints
    before returning when it has processed files. *)
Record run_result := {
  status : pystr;
  message : pystr;
  printed_totals : option totals
}.

Definition required_envs : list string :=
  [ "ELASTICSEARCH_HOST"; "ELASTICSEARCH_INDEX_NAME"; "S3_BUCKET_NAME";
    "S3_INPUT_PREFIX"; "BEDROCK_EMBEDDING_MODEL_ID";
    "BEDROCK_SUMMARY_MODEL_ID"; "AWS_REGION" ]%string.

Fixpoint check_required_envs (env : environ) (names : list string)
    : result unit :=
  match names with
  | [] => Ok tt
  | env_var :: rest =>
    if unset (env env_var)
    then Raise (ValueError ("必須環境変数 '" ++ env_var
                            ++ "' が設定されてないわよ！")%string)
    else check_required_envs env rest
  end.

(** The outer handler prints and raises again what it caught. *)
Definition process_s3_data_and_index_es (names : list string) (w : world)
    (env : environ) : result run_result * state :=
  let c := settings_of env in
  match check_required_envs env required_envs with
  | Raise e => (Raise e, initial)
  | Ok _ =>
    match list_json_files_from_s3 w c with
    | Raise e => (Raise e, initial)
    | Ok [] =>
      (Ok {| status := py "SUCCESS";
             message := py "インデックスすべきJSONファイルがS3に見つからなかったわ。";
             printed_totals := None |}, initial)
    | Ok all_json_keys =>
      match get_elasticsearch_client w c with
      | Raise e => (Raise e, initial)
      | Ok _ =>
        let '(t, st) :=
          process_files names w c env all_json_keys
            {| total_reports_indexed := 0; total_files_processed := 0 |}
            initial in
        (Ok {| status := py "SUCCESS";
               message := py "S3の全過去データインデックスが完了したわ！合計 "
                          ++ decimal (total_reports_indexed t)
                          ++ py " 件インデックス済み。";
               printed_totals := Some t |}, st)
      end
    end
  end.

(** The exit status the entry point gives for the outcome. *)
Definition exit_status (outcome : result run_result) : Z :=
  match outcome with
  | Ok result =>
    if str_eqb (status result) (py "SUCCESS") then 0%Z else 1%Z
  | Raise _ => 1%Z
  end.

Definition main (w : world) (env : environ) : Z * state :=
  let '(outcome, st) := process_s3_data_and_index_es module_names w env in
  (exit_status outcome, st).

(** A step that makes at most [k] model invocations, and never takes
    one back. *)
Definition costs {A} (m : M A) (k : nat) : Prop :=
  forall st r st', m st = (r, st') ->
    (invocations st <= invocations st' <= invocations st + k)%nat.

(** Whether the object under [s3_key] reads as a JSON list that is not
    empty, which is when the loop over the keys gets to its records. *)
Definition holds_reports (w : world) (s3_key : pystr) : bool :=
  match read_json w s3_key with
  | Ok (JArr (_ :: _)) => true
  | _ => false
  end.

(** The two separators the first two patterns accept in front of the
    next label: the tag of a line break and a line feed. *)
Definition line_break_tag : pystr := py "<br/>".

Definition separator (sep : pystr) : Prop :=
  sep = line_break_tag \/ sep = [10%N].

(** The first character of a label. *)
Definition mark (label : pystr) : N := hd 0%N label.

(** Sample inputs of [extract_sections]: the unseparated one, and the same three segments with each label
    after a line feed, or after a [<br/>] tag. *)
Definition sections_unseparated : pystr := py "概要：A詳細：B所感：C".
Definition sections_on_lines : pystr :=
  py "概要：A" ++ [10%N] ++ py "詳細：B" ++ [10%N] ++ py "所感：C".
Definition sections_with_br : pystr := py "概要：A<br/>詳細：B<br/>所感：C".

End Indexer.

(* ================================================================= *)
(** * Sample configurations and worlds *)

Module Samples.

Import Datetime Extractor.

(** An environment given by its bindings. *)
Definition env_of (bindings : list (string * pystr)) : environ :=
  fun name =>
    match find (fun kv => String.eqb (fst kv) name) bindings with
    | Some kv => Some (snd kv)
    | None => None
    end.

Definition extractor_env : environ :=
  env_of [ ("DOMAIN_PASSWORD", py "pw"); ("SITE_URL", py "https://sp.example/sites/r");
           ("DOMAIN", py "CORP"); ("LOGINNAME", py "batch");
           ("LOGINPASSWORD", py "pw"); ("BUCKET_NAME", py "reports");
           ("TARGET_DATE", py "2024-01-15") ]%string.

(** The same environment for the last day a [datetime] can hold. *)
Definition extractor_env_last_day : environ :=
  env_of [ ("DOMAIN_PASSWORD", py "pw"); ("SITE_URL", py "https://sp.example/sites/r");
           ("DOMAIN", py "CORP"); ("LOGINNAME", py "batch");
           ("LOGINPASSWORD", py "pw"); ("BUCKET_NAME", py "reports");
           ("TARGET_DATE", py "9999-12-31") ]%string.

(** A remote API that answers the requests of a run from a list, and
    with [otherwise] once the list is used up. *)
Definition scripted (replies : list http_reply) (otherwise : http_reply)
    : nat -> json -> http_reply :=
  fun n _ => nth n replies otherwise.

(** A stand-in for [urllib.parse.urlencode] that joins the pairs and
    escapes nothing. *)
Definition plain_urlencode (params : list (pystr * pystr)) : pystr :=
  join (py "&") (map (fun kv => fst kv ++ py "=" ++ snd kv) params).

(** The UTF-8 encoder refuses a surrogate code point, which
    [json.dumps] with [ensure_ascii=False] leaves as it is in a key or a
    string; [UnicodeEncodeError] is a [ValueError]. *)
Definition is_surrogate (c : N) : bool := ((55296 <=? c) && (c <=? 57343))%N.

Definition str_encodable (s : pystr) : bool :=
  forallb (fun c => negb (is_surrogate c)) s.

Fixpoint encodable (v : json) : bool :=
  match v with
  | JStr s => str_encodable s
  | JArr items => forallb encodable items
  | JObj fields =>
    forallb (fun kv => match kv with
                       | (k, v') => str_encodable k && encodable v'
                       end) fields
  | _ => true
  end.

Definition encode_utf8 (v : json) : result unit :=
  if encodable v then Ok tt
  else Raise (ValueError "'utf-8' codec can't encode character: surrogates not allowed").

Definition world_of (replies : list http_reply) (otherwise : http_reply)
    (put : result unit) : world :=
  {| remote := scripted replies otherwise;
     put_object := fun _ _ _ => put;
     urlencode := plain_urlencode;
     dumps_utf8 := encode_utf8 |}.

Definition unauthorized : http_reply :=
  Response 401 (py "Unauthorized") (Raise JSONDecodeError).

Definition server_error : http_reply :=
  Response 500 (py "Internal Server Error") (Raise JSONDecodeError).

Definition report (id : Z) (title : string) : json :=
  JObj [ (py "ID", JInt id); (py "Title", JStr (py title)) ].

(** A last page: items and no link to a next page. *)
Definition page (items : list json) : http_reply :=
  Response 200 (py "OK") (Ok (JObj [ (py "value", JArr items) ])).

Definition page_url : json :=
  JStr (py "https://sp.example/sites/r/_api/web/lists/getbytitle('For Global')/items").

Definition jan15 : datetime :=
  {| year := 2024; month := 1; day := 15;
     hour := 0; minute := 0; second := 0; microsecond := 0 |}.

Definition jan15_last_second : datetime :=
  {| year := 2024; month := 1; day := 15;
     hour := 23; minute := 59; second := 59; microsecond := 0 |}.

(** ** The indexing stage *)

Definition indexer_env : Indexer.environ :=
  env_of [ ("ELASTICSEARCH_HOST", py "http://search.example:9200");
           ("ELASTICSEARCH_INDEX_NAME", py "reports");
           ("S3_BUCKET_NAME", py "reports");
           ("S3_INPUT_PREFIX", py "raw_sharepoint_reports_daily/");
           ("BEDROCK_EMBEDDING_MODEL_ID", py "amazon.titan-embed-text-v1");
           ("BEDROCK_SUMMARY_MODEL_ID", py "anthropic.claude-instant-v1");
           ("AWS_REGION", py "ap-northeast-1");
           ("SITE_URL", py "https://sp.example/sites/r") ]%string.

Definition daily_key : pystr :=
  py "raw_sharepoint_reports_daily/2024-01-15_raw_reports.json".

(** [str()] on the scalars of a record; a list or a dict is not
    rendered. *)
Definition str_of_scalar (v : json) : pystr :=
  match v with
  | JNull => py "None"
  | JBool true => py "True"
  | JBool false => py "False"
  | JInt z => decimal z
  | JFloat shown => shown
  | JStr s => s
  | JArr _ => py "[...]"
  | JObj _ => py "{...}"
  end.

Definition raw_report (id : Z) (title body : string) : json :=
  JObj [ (py "ID", JInt id); (py "Title", JStr (py title));
         (py "mrtBody", JStr (py body));
         (py "mrtApprovedDate", JStr (py "2024-01-15T03:00:00Z"));
         (py "mrtSummary", JStr (py "visit"));
         (py "FileLeafRef", JStr (py (title ++ ".txt"))) ].

Definition completion_body : json :=
  JObj [ (py "completion", JStr (py " A short summary. ")) ].

Definition embedding_body : json :=
  JObj [ (py "embedding", JArr [JFloat (py "0.25"); JFloat (py "-0.5")]) ].

(** An inference service that answers every invocation except one: the
    invocation numbered [failing] raises. *)
Definition inference (failing : nat) (n : nat) (model_id input : pystr)
    : result json :=
  if Nat.eqb n failing then Raise (ClientError "ModelErrorException")
  else if str_eqb model_id (py "anthropic.claude-instant-v1")
       then Ok completion_body
       else Ok embedding_body.

(** One stored daily file with two records. The second invocation of
    the run, which is the first embedding of the first record, fails;
    everything else answers. *)
Definition two_record_world : Indexer.world :=
  {| Indexer.bucket_listing := Indexer.LastPage (Some [daily_key]);
     Indexer.read_json := fun _ =>
       Ok (JArr [ raw_report 7 "Osaka" "Line stop at the Osaka plant.";
                  raw_report 8 "Kyoto" "Audit of the Kyoto site." ]);
     Indexer.es_ping := true;
     Indexer.invoke_model := inference 1;
     Indexer.soup_text := Indexer.soup_of_plain_text;
     Indexer.str_of := str_of_scalar;
     Indexer.es_accepts := fun _ _ => true |}.

(** The document of the second record of that file. *)
Definition kyoto_doc : Indexer.es_doc :=
  Indexer.make_es_doc
    (JStr (py "Kyoto")) (JStr (py "2024-01-15T03:00:00Z"))
    (JStr (py "N/A")) (JStr (py "N/A")) (JStr (py "visit"))
    (JStr (py "Audit of the Kyoto site.")) (JStr (py "A short summary."))
    (JArr [JFloat (py "0.25"); JFloat (py "-0.5")])
    (JArr [JFloat (py "0.25"); JFloat (py "-0.5")])
    (JStr (py "https://sp.example/sites/r/Lists/For%20Global/DispForm.aspx?ID=8"))
    (JStr (py "8")) (JStr (py "Kyoto.txt")).

(** A page with a link to a next page. *)
Definition linked_page (items : list json) (link : json) : http_reply :=
  Response 200 (py "OK")
           (Ok (JObj [ (py "value", JArr items); (py "odata.nextLink", link) ])).

Definition second_page_url : json :=
  JStr (py "https://sp.example/sites/r/_api/web/lists/getbytitle('For Global')/items?$skiptoken=Paged%3dTRUE").

Definition no_content : http_reply :=
  Response 204 (py "No Content") (Raise JSONDecodeError).

(** A bucket listed in two pages, with keys that are not JSON files. *)
Definition paged_listing_world : Indexer.world :=
  {| Indexer.bucket_listing :=
       Indexer.MorePages (Some [py "raw/a.json"; py "raw/readme.txt"])
         (Indexer.LastPage (Some [py "raw/b.JSON"; py "raw/c.json"]));
     Indexer.read_json := fun _ => Raise JSONDecodeError;
     Indexer.es_ping := true;
     Indexer.invoke_model := inference 1;
     Indexer.soup_text := Indexer.soup_of_plain_text;
     Indexer.str_of := str_of_scalar;
     Indexer.es_accepts := fun _ _ => true |}.

End Samples.

(* ================================================================= *)
(** * Properties *)

Example utf8_labels :
  Indexer.label_summary = [27010; 35201; 65306]%N
  /\ Indexer.label_detail = [35443; 32048; 65306]%N
  /\ Indexer.label_comment = [25152; 24863; 65306]%N.
Proof. repeat split; reflexivity. Qed.

(* ----------------------------------------------------------------- *)
(** ** Strings *)

Section TextExtraction.
Import Indexer.

Section StringFacts.

Variable P : N -> Prop.

Lemma Forall_lstrip (s : pystr) : Forall P s -> Forall P (lstrip s).
Proof.
  induction 1 as [|c t Hc Ht IH]; simpl; [constructor|].
  destruct (isspace c); [exact IH | constructor; assumption].
Qed.

Lemma Forall_strip (s : pystr) : Forall P s -> Forall P (strip s).
Proof.
  intros H. unfold strip, rstrip.
  apply Forall_rev, Forall_lstrip, Forall_rev, Forall_lstrip, H.
Qed.

Lemma Forall_splitlines_from (n : nat) :
  forall s cur, (List.length s <= n)%nat ->
    Forall P cur -> Forall P s ->
    Forall (Forall P) (splitlines_from cur s).
Proof.
  induction n as [|n IH]; intros s cur Hn Hcur Hs.
  - destruct s; [|simpl in Hn; lia]. simpl.
    destruct cur; constructor; [apply Forall_rev; exact Hcur | constructor].
  - destruct s as [|c t]; simpl.
    + destruct cur; constructor; [apply Forall_rev; exact Hcur | constructor].
    + inversion Hs as [|? ? Hc Ht]; subst. simpl in Hn.
      assert (Hline : Forall P (rev cur)) by (apply Forall_rev; exact Hcur).
      destruct (c =? 13)%N.
      * destruct t as [|c' t'].
        -- constructor; [exact Hline | apply IH; [simpl; lia | constructor | constructor]].
        -- inversion Ht; subst. simpl in Hn.
           destruct (c' =? 10)%N; constructor; try exact Hline;
             apply IH; simpl; try lia; try constructor; assumption.
      * destruct (is_linebreak c).
        -- constructor; [exact Hline | apply IH; [lia | constructor | exact Ht]].
        -- apply IH; [lia | constructor; assumption | exact Ht].
Qed.

Lemma Forall_splitlines (s : pystr) :
  Forall P s -> Forall (Forall P) (splitlines s).
Proof.
  intros H. apply (Forall_splitlines_from (List.length s)); auto.
Qed.

Lemma Forall_join (sep : pystr) (parts : list pystr) :
  Forall P sep -> Forall (Forall P) parts -> Forall P (join sep parts).
Proof.
  intros Hsep. induction 1 as [|p rest Hp Hrest IH]; simpl; [constructor|].
  destruct rest; [exact Hp|].
  apply Forall_app; split; [exact Hp|].
  apply Forall_app; split; [exact Hsep | exact IH].
Qed.

End StringFacts.

Lemma lstrip_edged (s : pystr) : edged s -> lstrip s = s.
Proof. destruct s as [|c t]; simpl; [tauto|]. intros ->. reflexivity. Qed.

Lemma lstrip_result (s : pystr) : lstrip s = [] \/ edged (lstrip s).
Proof.
  induction s as [|c t IH]; simpl; [left; reflexivity|].
  destruct (isspace c) eqn:E; [exact IH | right; exact E].
Qed.

Lemma lstrip_suffix (s : pystr) : exists w, s = w ++ lstrip s.
Proof.
  induction s as [|c t [w Hw]]; simpl; [exists []; reflexivity|].
  destruct (isspace c).
  - exists (c :: w). simpl. f_equal. exact Hw.
  - exists []. reflexivity.
Qed.

Lemma edged_app (a b : pystr) : edged a -> edged (a ++ b).
Proof. destruct a; simpl; tauto. Qed.

Lemma rstrip_prefix (s : pystr) : exists w, s = rstrip s ++ w.
Proof.
  unfold rstrip. destruct (lstrip_suffix (rev s)) as [w Hw].
  exists (rev w). rewrite <- rev_app_distr, <- Hw, rev_involutive. reflexivity.
Qed.

Lemma strip_result (s : pystr) :
  strip s = [] \/ (edged (strip s) /\ edged (rev (strip s))).
Proof.
  unfold strip.
  destruct (lstrip_result s) as [E | E].
  - left. rewrite E. reflexivity.
  - set (l := lstrip s) in *.
    destruct (lstrip_result (rev l)) as [R | R].
    + left. unfold rstrip. rewrite R. reflexivity.
    + right. split.
      * destruct (rstrip_prefix l) as [w Hw].
        unfold rstrip in *. destruct (rev (lstrip (rev l))) as [|c t] eqn:Eq.
        -- apply (f_equal (@rev N)) in Eq. rewrite rev_involutive in Eq.
           rewrite Eq in R. destruct R.
        -- rewrite Hw in E. exact E.
      * unfold rstrip. rewrite rev_involutive. exact R.
Qed.

Lemma strip_fixed (s : pystr) : edged s -> edged (rev s) -> strip s = s.
Proof.
  intros H1 H2. unfold strip, rstrip.
  rewrite (lstrip_edged _ H1), (lstrip_edged _ H2). apply rev_involutive.
Qed.

Lemma join_edged (sep : pystr) (parts : list pystr) :
  parts <> [] -> Forall (fun p => edged p /\ edged (rev p)) parts ->
  edged (join sep parts) /\ edged (rev (join sep parts)).
Proof.
  intros Hne H. induction H as [|p rest [Hp Hq] Hrest IH]; [congruence|].
  simpl. destruct rest as [|p' rest']; [split; assumption|].
  destruct IH as [_ IH2]; [discriminate|]. split.
  - apply edged_app. exact Hp.
  - rewrite !rev_app_distr, <- app_assoc. apply edged_app. exact IH2.
Qed.

Lemma replace_fixed (old new : N) (s : pystr) :
  Forall (fun c => c <> old) s -> replace old new s = s.
Proof.
  unfold replace. induction 1 as [|c t Hc Ht IH]; simpl; [reflexivity|].
  rewrite IH. destruct (N.eqb_spec c old); [contradiction | reflexivity].
Qed.

Lemma splitlines_from_one_line (s cur : pystr) :
  Forall (fun c => is_linebreak c = false) s ->
  splitlines_from cur s =
    match rev cur ++ s with [] => [] | l => [l] end.
Proof.
  intros H. revert cur. induction H as [|c t Hc Ht IH]; intros cur; simpl.
  - rewrite app_nil_r. destruct cur as [|a cur']; [reflexivity|].
    simpl. destruct (rev cur' ++ [a]) eqn:E; [|reflexivity].
    destruct (rev cur'); discriminate.
  - assert ((c =? 13)%N = false) as ->.
    { destruct (N.eqb_spec c 13); [subst; discriminate | reflexivity]. }
    rewrite Hc, IH. simpl. rewrite <- app_assoc. reflexivity.
Qed.

(* ----------------------------------------------------------------- *)
(** ** HTML to text *)

Lemma replaced_text (text : pystr) :
  Forall (fun c => c <> 8203%N /\ c <> 12288%N /\ c <> 160%N)
         (replace 160 32 (replace 12288 32 (replace 8203 32 text))).
Proof.
  unfold replace. rewrite !map_map. apply Forall_forall.
  intros c Hc. apply in_map_iff in Hc. destruct Hc as (a & <- & _).
  destruct (N.eqb_spec a 8203); simpl.
  - repeat split; discriminate.
  - destruct (N.eqb_spec a 12288); simpl.
    + repeat split; discriminate.
    + destruct (N.eqb_spec a 160); simpl; repeat split; try discriminate; assumption.
Qed.

Lemma lines_settled (s : pystr) : forall cur n,
  (List.length s <= n)%nat ->
  Forall (fun c => is_linebreak c = false) cur ->
  Forall (Forall (fun c => is_linebreak c = false)) (splitlines_from cur s).
Proof.
  intros cur n. revert s cur.
  induction n as [|n IH]; intros s cur Hn Hcur.
  - destruct s; [|simpl in Hn; lia]. simpl.
    destruct cur; constructor; [apply Forall_rev; exact Hcur | constructor].
  - destruct s as [|c t]; simpl.
    + destruct cur; constructor; [apply Forall_rev; exact Hcur | constructor].
    + simpl in Hn.
      assert (Hline : Forall (fun c => is_linebreak c = false) (rev cur))
        by (apply Forall_rev; exact Hcur).
      destruct (c =? 13)%N.
      * destruct t as [|c' t'].
        -- constructor; [exact Hline | apply IH; [simpl; lia | constructor]].
        -- simpl in Hn. destruct (c' =? 10)%N; constructor; try exact Hline;
             apply IH; simpl; try lia; constructor.
      * destruct (is_linebreak c) eqn:E.
        -- constructor; [exact Hline | apply IH; [lia | constructor]].
        -- apply IH; [lia | constructor; assumption].
Qed.

Lemma normalize_text_flat (text : pystr) : flat (normalize_text text).
Proof.
  unfold normalize_text.
  set (t := replace 160 32 (replace 12288 32 (replace 8203 32 text))).
  set (lines := map strip (filter _ (splitlines t))).
  assert (Hall : Forall (fun l => (edged l /\ edged (rev l)) /\ Forall settled l) lines).
  { unfold lines. apply Forall_forall. intros l Hl.
    apply in_map_iff in Hl. destruct Hl as (raw & <- & Hraw).
    apply filter_In in Hraw. destruct Hraw as [Hin Hne].
    split.
    - destruct (strip_result raw) as [E | E]; [|exact E].
      rewrite E in Hne. discriminate.
    - apply Forall_strip.
      pose proof (Forall_splitlines _ _ (replaced_text text)) as H1.
      pose proof (lines_settled t [] (List.length t) (le_n _) (Forall_nil _)) as H2.
      fold t in H1. fold (splitlines t) in H2.
      rewrite Forall_forall in H1, H2.
      specialize (H1 raw Hin). specialize (H2 raw Hin).
      rewrite Forall_forall in H1, H2. apply Forall_forall.
      intros c Hc. split; [apply H2, Hc | apply H1, Hc]. }
  destruct lines as [|l rest] eqn:E; [left; reflexivity|].
  right.
  assert (Hedges : Forall (fun p => edged p /\ edged (rev p)) (l :: rest)).
  { eapply Forall_impl; [|exact Hall]. simpl. tauto. }
  destruct (join_edged (py " ") (l :: rest)) as [J1 J2];
    [discriminate | exact Hedges |].
  repeat split; try assumption.
  apply Forall_join.
  - repeat constructor; discriminate.
  - eapply Forall_impl; [|exact Hall]. simpl. tauto.
Qed.

Lemma normalize_text_fixed (y : pystr) : flat y -> normalize_text y = y.
Proof.
  intros [-> | (H1 & H2 & H3)]; [reflexivity|].
  unfold normalize_text.
  rewrite (replace_fixed 8203 32 y), (replace_fixed 12288 32 y),
          (replace_fixed 160 32 y);
    try (eapply Forall_impl; [|exact H3]; unfold settled; simpl; tauto).
  unfold splitlines. rewrite splitlines_from_one_line;
    [|eapply Forall_impl; [|exact H3]; unfold settled; simpl; tauto].
  destruct y as [|c t]; [destruct H1|].
  cbn [rev app filter]. rewrite (strip_fixed _ H1 H2).
  cbn [truthy map]. rewrite (strip_fixed _ H1 H2). reflexivity.
Qed.

(** The normalisation is idempotent on every string. *)
Lemma normalize_text_idempotent (text : pystr) :
  normalize_text (normalize_text text) = normalize_text text.
Proof. apply normalize_text_fixed, normalize_text_flat. Qed.

Lemma lstrip_all_space (s : pystr) :
  Forall (fun c => isspace c = true) s -> lstrip s = [].
Proof.
  induction 1 as [|c t Hc Ht IH]; simpl; [reflexivity|]. rewrite Hc. exact IH.
Qed.

Lemma strip_all_space (s : pystr) :
  Forall (fun c => isspace c = true) s -> strip s = [].
Proof. intros H. unfold strip. rewrite (lstrip_all_space _ H). reflexivity. Qed.

Lemma normalize_text_blank (t : pystr) :
  ascii_blank t = true -> normalize_text t = [].
Proof.
  intros Hb. unfold normalize_text.
  set (t' := replace 160 32 (replace 12288 32 (replace 8203 32 t))).
  assert (Hsp : Forall (fun c => isspace c = true) t').
  { unfold t', replace. rewrite !map_map. apply Forall_forall.
    intros c Hc. apply in_map_iff in Hc. destruct Hc as (a & <- & Ha).
    unfold ascii_blank in Hb. rewrite forallb_forall in Hb.
    specialize (Hb a Ha).
    destruct (N.eqb_spec a 32); [subst; reflexivity|].
    destruct (N.eqb_spec a 10); [subst; reflexivity|].
    destruct (N.eqb_spec a 9); [subst; reflexivity|].
    destruct (N.eqb_spec a 12); [subst; reflexivity|].
    destruct (N.eqb_spec a 13); [subst; reflexivity|].
    discriminate. }
  apply Forall_splitlines in Hsp.
  generalize dependent (splitlines t'). clear. intros lines Hsp.
  induction Hsp as [|l ls Hl Hls IH]; [reflexivity|].
  cbn [filter]. rewrite (strip_all_space _ Hl). cbn. exact IH.
Qed.

Lemma edged_not_blank (y : pystr) : edged y -> ascii_blank y = false.
Proof.
  destruct y as [|c t]; simpl; [tauto|]. intros Hc.
  destruct (N.eqb_spec c 32); [subst; discriminate|].
  destruct (N.eqb_spec c 10); [subst; discriminate|].
  destruct (N.eqb_spec c 9); [subst; discriminate|].
  destruct (N.eqb_spec c 12); [subst; discriminate|].
  destruct (N.eqb_spec c 13); [subst; discriminate|].
  reflexivity.
Qed.

Lemma normalize_text_markup_free (x : pystr) :
  markup_free x = true -> markup_free (normalize_text x) = true.
Proof.
  set (Q := fun c : N => negb ((c =? 60) || (c =? 38))%N = true).
  intros H. unfold markup_free in *. rewrite forallb_forall in *.
  assert (Hx : Forall Q x) by (apply Forall_forall; exact H).
  apply Forall_forall. unfold normalize_text.
  apply Forall_join; [repeat constructor|].
  apply Forall_forall. intros l Hl.
  apply in_map_iff in Hl. destruct Hl as (raw & <- & Hraw).
  apply filter_In in Hraw. destruct Hraw as [Hin _].
  apply Forall_strip.
  assert (Hr : forall o s, o <> 60%N -> o <> 38%N -> Forall Q s ->
                           Forall Q (replace o 32 s)).
  { intros o s _ _ Hs. unfold replace. apply Forall_forall. intros c Hc.
    apply in_map_iff in Hc. destruct Hc as (a & <- & Ha).
    rewrite Forall_forall in Hs.
    destruct (a =? o)%N; [reflexivity | apply Hs, Ha]. }
  pose proof (Forall_splitlines _ _
    (Hr 160%N _ ltac:(discriminate) ltac:(discriminate)
      (Hr 12288%N _ ltac:(discriminate) ltac:(discriminate)
        (Hr 8203%N _ ltac:(discriminate) ltac:(discriminate) Hx)))) as Hs.
  rewrite Forall_forall in Hs. apply Hs, Hin.
Qed.

Section HtmlToText.

(** The parser, with what is used of it: on a string in which nothing
    is markup it returns the text as it is, except that a text made only
    of ASCII spaces (the empty text included) comes back as some text
    made only of ASCII spaces. *)
Variable soup_text : json -> result pystr.

Hypothesis soup_text_plain : forall x,
  markup_free x = true -> ascii_blank x = false -> soup_text (JStr x) = Ok x.

Hypothesis soup_text_blank : forall x,
  ascii_blank x = true ->
  exists t, soup_text (JStr x) = Ok t /\ ascii_blank t = true.

Lemma extract_text_of_plain (x : pystr) :
  markup_free x = true ->
  exists y, extract_text_from_html soup_text (JStr x) = Ok y
            /\ flat y /\ markup_free y = true.
Proof.
  intros Hx. unfold extract_text_from_html.
  destruct (ascii_blank x) eqn:Hb.
  - destruct (soup_text_blank _ Hb) as (t & -> & Ht). simpl.
    rewrite (normalize_text_blank _ Ht). exists []. repeat split. left. reflexivity.
  - rewrite (soup_text_plain _ Hx Hb). simpl. eexists. split; [reflexivity|].
    split; [apply normalize_text_flat | apply normalize_text_markup_free, Hx].
Qed.

Lemma extract_text_of_flat (y : pystr) :
  flat y -> markup_free y = true ->
  extract_text_from_html soup_text (JStr y) = Ok y.
Proof.
  intros Hflat Hy. unfold extract_text_from_html.
  destruct Hflat as [-> | (H1 & H2 & H3)].
  - destruct (soup_text_blank [] eq_refl) as (t & -> & Ht). simpl.
    rewrite (normalize_text_blank _ Ht). reflexivity.
  - rewrite (soup_text_plain _ Hy (edged_not_blank _ H1)). simpl.
    rewrite normalize_text_fixed; [reflexivity|]. right. tauto.
Qed.

(** C10. [extract_text_from_html] is a function of its argument (it is
    defined as one, given the parser), and on input without markup it is
    idempotent: the text extracted from a markup-free string [x] is
    extracted to itself. *)
Theorem extract_text_idempotent_on_plain_text (x : pystr) :
  markup_free x = true ->
  exists y, extract_text_from_html soup_text (JStr x) = Ok y
            /\ extract_text_from_html soup_text (JStr y) = Ok y.
Proof.
  intros Hx. destruct (extract_text_of_plain _ Hx) as (y & E & Hflat & Hy).
  exists y. split; [exact E | apply extract_text_of_flat; assumption].
Qed.

End HtmlToText.

Lemma soup_of_plain_text_plain (x : pystr) :
  markup_free x = true -> ascii_blank x = false ->
  soup_of_plain_text (JStr x) = Ok x.
Proof. intros _ Hb. simpl. rewrite Hb. reflexivity. Qed.

Lemma soup_of_plain_text_blank (x : pystr) :
  ascii_blank x = true ->
  exists t, soup_of_plain_text (JStr x) = Ok t /\ ascii_blank t = true.
Proof.
  intros Hb. simpl. rewrite Hb. eexists. split; [reflexivity|].
  destruct x; [reflexivity|]. destruct (existsb _ _); reflexivity.
Qed.

Lemma extract_text_idempotent_witness :
  markup_free (py "  Visit   report " ++ [10; 12288; 10]%N ++ py " Osaka plant") = true
  /\ exists y,
       extract_text_from_html soup_of_plain_text
         (JStr (py "  Visit   report " ++ [10; 12288; 10]%N ++ py " Osaka plant")) = Ok y
       /\ extract_text_from_html soup_of_plain_text (JStr y) = Ok y.
Proof.
  split; [reflexivity|].
  apply (extract_text_idempotent_on_plain_text
           _ soup_of_plain_text_plain soup_of_plain_text_blank).
  reflexivity.
Defined.

Example extract_text_sample :
  extract_text_from_html soup_of_plain_text
    (JStr (py "  Visit   report " ++ [10; 12288; 10]%N ++ py " Osaka plant"))
  = Ok (py "Visit   report Osaka plant").
Proof. reflexivity. Qed.

(* ----------------------------------------------------------------- *)
(** ** Section splitter *)

Lemma startswith_split (p s : pystr) :
  startswith p s = true -> exists b, s = p ++ b.
Proof.
  revert s. induction p as [|a p IH]; intros s H; simpl in *.
  - exists s. reflexivity.
  - destruct s as [|c t]; [discriminate|].
    apply andb_true_iff in H. destruct H as [Hac Hp].
    apply N.eqb_eq in Hac. subst c.
    destruct (IH _ Hp) as [b ->]. exists b. reflexivity.
Qed.

Lemma startswith_app (p s : pystr) : startswith p (p ++ s) = true.
Proof.
  induction p as [|a p IH]; simpl; [reflexivity|].
  rewrite N.eqb_refl. exact IH.
Qed.

Lemma skipn_label (p s : pystr) : skipn (List.length p) (p ++ s) = s.
Proof. induction p as [|a p IH]; simpl; [reflexivity | exact IH]. Qed.

Lemma occurs_cons (p s : pystr) (c : N) : occurs p s -> occurs p (c :: s).
Proof. intros (a & b & ->). exists (c :: a), b. reflexivity. Qed.

Lemma occurs_skipn (p s : pystr) (n : nat) : occurs p (skipn n s) -> occurs p s.
Proof.
  revert s. induction n as [|n IH]; intros s H; [exact H|].
  destruct s as [|c t]; [exact H|]. apply occurs_cons, IH, H.
Qed.

Lemma boundary_then_occurs (next s : pystr) :
  boundary_then next s = true -> occurs next s.
Proof.
  unfold boundary_then. intros H.
  apply orb_true_iff in H. destruct H as [H | H].
  - apply orb_true_iff in H. destruct H as [H | H].
    + apply startswith_split in H. destruct H as [b ->].
      exists (py "<br/>"), b. rewrite <- app_assoc. reflexivity.
    + apply startswith_split in H. destruct H as [b ->].
      exists [10%N], b. reflexivity.
  - apply andb_true_iff in H. destruct H as [_ H].
    apply startswith_split in H. destruct H as [b ->]. exists [], b. reflexivity.
Qed.

Lemma lazy_group_occurs (next s acc g : pystr) :
  lazy_group next acc s = Some g -> occurs next s.
Proof.
  revert acc. induction s as [|c t IH]; intros acc; simpl.
  - destruct (boundary_then next []) eqn:E; [|discriminate].
    intros _. apply boundary_then_occurs, E.
  - destruct (boundary_then next (c :: t)) eqn:E.
    + intros _. apply boundary_then_occurs, E.
    + intros H. apply occurs_cons. eapply IH, H.
Qed.

Lemma spaces_then_group_occurs (next s g : pystr) :
  spaces_then_group next s = Some g -> occurs next s.
Proof.
  revert g. induction s as [|c t IH]; intros g; cbn [spaces_then_group].
  - apply lazy_group_occurs.
  - destruct (isspace c); [|apply lazy_group_occurs].
    destruct (spaces_then_group next t) as [g'|] eqn:E.
    + intros _. apply occurs_cons. eapply IH. reflexivity.
    + apply lazy_group_occurs.
Qed.

Lemma search_until_occurs (label next s g : pystr) :
  search_until label next s = Some g -> occurs label s /\ occurs next s.
Proof.
  induction s as [|c t IH]; simpl.
  - destruct (startswith label []) eqn:E; [|discriminate].
    destruct (spaces_then_group next (skipn (List.length label) [])) eqn:F;
      [|discriminate].
    intros _. split.
    + apply startswith_split in E. destruct E as [b E]. exists [], b. exact E.
    + eapply occurs_skipn, spaces_then_group_occurs, F.
  - destruct (startswith label (c :: t)) eqn:E.
    + destruct (spaces_then_group next (skipn (List.length label) (c :: t))) eqn:F.
      * intros _. split.
        -- apply startswith_split in E. destruct E as [b E]. exists [], b. exact E.
        -- eapply occurs_skipn, spaces_then_group_occurs, F.
      * intros H. destruct (IH H). split; apply occurs_cons; assumption.
    + intros H. destruct (IH H). split; apply occurs_cons; assumption.
Qed.

Lemma search_rest_occurs (label s g : pystr) :
  search_rest label s = Some g -> occurs label s.
Proof.
  induction s as [|c t IH]; simpl.
  - destruct (startswith label []) eqn:E; [|discriminate].
    intros _. apply startswith_split in E. destruct E as [b E]. exists [], b. exact E.
  - destruct (startswith label (c :: t)) eqn:E.
    + intros _. apply startswith_split in E. destruct E as [b E].
      exists [], b. exact E.
    + intros H. apply occurs_cons, IH, H.
Qed.

Lemma search_until_absent (label next s : pystr) :
  ~ occurs label s \/ ~ occurs next s -> search_until label next s = None.
Proof.
  intros H. destruct (search_until label next s) as [g|] eqn:E; [|reflexivity].
  apply search_until_occurs in E. tauto.
Qed.

Lemma search_rest_absent (label s : pystr) :
  ~ occurs label s -> search_rest label s = None.
Proof.
  intros H. destruct (search_rest label s) as [g|] eqn:E; [|reflexivity].
  apply search_rest_occurs in E. tauto.
Qed.

(** C5, as stated, fails: on the unseparated input the first two
    patterns do not match, because each asks for a [<br/>] tag or a line
    feed in front of the next label. *)
Lemma extract_sections_unseparated_differs :
  extract_sections sections_unseparated
  <> [ (key_summary, py "A"); (key_detail, py "B"); (key_comment, py "C") ].
Proof. vm_compute. discriminate. Qed.

(** C5, amended. With each following label after a line feed or a
    [<br/>] tag, the three segments come back trimmed; on the
    unseparated input the first two entries are the sentinel and the
    third is [C]. For every input the function returns the three
    entries, and an entry is the sentinel whenever its pattern does not
    match, in particular whenever the input lacks its label or the
    label that must follow it. *)
Theorem extract_sections_behaviour :
  extract_sections sections_on_lines
    = [ (key_summary, py "A"); (key_detail, py "B"); (key_comment, py "C") ]
  /\ extract_sections sections_with_br
    = [ (key_summary, py "A"); (key_detail, py "B"); (key_comment, py "C") ]
  /\ extract_sections sections_unseparated
    = [ (key_summary, NA); (key_detail, NA); (key_comment, py "C") ]
  /\ forall s, exists v1 v2 v3,
       extract_sections s
         = [ (key_summary, v1); (key_detail, v2); (key_comment, v3) ]
       /\ (search_until label_summary label_detail s = None -> v1 = NA)
       /\ (search_until label_detail label_comment s = None -> v2 = NA)
       /\ (search_rest label_comment s = None -> v3 = NA)
       /\ (~ occurs label_summary s -> v1 = NA)
       /\ (~ occurs label_detail s -> v1 = NA /\ v2 = NA)
       /\ (~ occurs label_comment s -> v2 = NA /\ v3 = NA).
Proof.
  split; [vm_compute; reflexivity|].
  split; [vm_compute; reflexivity|].
  split; [vm_compute; reflexivity|].
  intros s. unfold extract_sections. do 3 eexists.
  split; [reflexivity|].
  assert (H1 : search_until label_summary label_detail s = None ->
               section_value (search_until label_summary label_detail s) = NA)
    by (intros ->; reflexivity).
  assert (H2 : search_until label_detail label_comment s = None ->
               section_value (search_until label_detail label_comment s) = NA)
    by (intros ->; reflexivity).
  assert (H3 : search_rest label_comment s = None ->
               section_value (search_rest label_comment s) = NA)
    by (intros ->; reflexivity).
  split; [exact H1|]. split; [exact H2|]. split; [exact H3|].
  split; [|split].
  - intros H. apply H1, search_until_absent. left. exact H.
  - intros H. split.
    + apply H1, search_until_absent. right. exact H.
    + apply H2, search_until_absent. left. exact H.
  - intros H. split.
    + apply H2, search_until_absent. right. exact H.
    + apply H3, search_rest_absent. exact H.
Qed.

Lemma not_occurs_in_ascii (label : pystr) :
  (exists c rest, label = c :: rest /\ ~ In c (py "meeting notes")) ->
  ~ occurs label (py "meeting notes").
Proof.
  intros (c & rest & -> & Hc) (a & b & E). apply Hc. rewrite E.
  apply in_or_app. right. left. reflexivity.
Qed.

Lemma extract_sections_behaviour_witness :
  search_until label_summary label_detail (py "meeting notes") = None
  /\ search_until label_detail label_comment (py "meeting notes") = None
  /\ search_rest label_comment (py "meeting notes") = None
  /\ ~ occurs label_summary (py "meeting notes")
  /\ ~ occurs label_detail (py "meeting notes")
  /\ ~ occurs label_comment (py "meeting notes")
  /\ extract_sections (py "meeting notes")
     = [ (key_summary, NA); (key_detail, NA); (key_comment, NA) ].
Proof.
  assert (N1 : ~ occurs label_summary (py "meeting notes")).
  { apply not_occurs_in_ascii. do 2 eexists. split; [reflexivity|].
    vm_compute. intuition discriminate. }
  assert (N2 : ~ occurs label_detail (py "meeting notes")).
  { apply not_occurs_in_ascii. do 2 eexists. split; [reflexivity|].
    vm_compute. intuition discriminate. }
  assert (N3 : ~ occurs label_comment (py "meeting notes")).
  { apply not_occurs_in_ascii. do 2 eexists. split; [reflexivity|].
    vm_compute. intuition discriminate. }
  repeat (split; [first [reflexivity | assumption]|]).
  destruct extract_sections_behaviour as (_ & _ & _ & H).
  destruct (H (py "meeting notes")) as (v1 & v2 & v3 & E & H1 & H2 & H3 & H4 & H5 & H6).
  rewrite E, (H4 N1), (proj2 (H5 N2)), (proj2 (H6 N3)). reflexivity.
Defined.

End TextExtraction.

(* ----------------------------------------------------------------- *)
(** ** Calendar arithmetic *)

Section Calendar.

Import Datetime.
Local Open Scope Z_scope.

Lemma is_leap_cycle (a b c e : Z) :
  0 <= b <= 3 -> 0 <= c <= 24 -> 0 <= e <= 3 ->
  is_leap (a * 400 + 1 + b * 100 + c * 4 + e)
  = (e =? 3) && (negb (c =? 24) || (b =? 3)).
Proof.
  intros Hb Hc He. unfold is_leap.
  set (y := a * 400 + 1 + b * 100 + c * 4 + e).
  assert (M4 : y mod 4 = (e + 1) mod 4).
  { unfold y.
    replace (a * 400 + 1 + b * 100 + c * 4 + e)
      with ((e + 1) + (a * 100 + b * 25 + c) * 4) by lia.
    apply Z.mod_add. lia. }
  assert (M100 : y mod 100 = (c * 4 + e + 1) mod 100).
  { unfold y.
    replace (a * 400 + 1 + b * 100 + c * 4 + e)
      with ((c * 4 + e + 1) + (a * 4 + b) * 100) by lia.
    apply Z.mod_add. lia. }
  assert (M400 : y mod 400 = (b * 100 + c * 4 + e + 1) mod 400).
  { unfold y.
    replace (a * 400 + 1 + b * 100 + c * 4 + e)
      with ((b * 100 + c * 4 + e + 1) + a * 400) by lia.
    apply Z.mod_add. lia. }
  rewrite M4, M100, M400.
  destruct (Z.eqb_spec e 3) as [->|He3].
  - destruct (Z.eqb_spec c 24) as [->|Hc24].
    + destruct (Z.eqb_spec b 3) as [->|Hb3]; [reflexivity|].
      change ((3 + 1) mod 4) with 0. change ((24 * 4 + 3 + 1) mod 100) with 0.
      rewrite Z.mod_small by lia.
      destruct (Z.eqb_spec (b * 100 + 24 * 4 + 3 + 1) 0); [lia | reflexivity].
    + change ((3 + 1) mod 4) with 0.
      rewrite (Z.mod_small (c * 4 + 3 + 1)) by lia.
      destruct (Z.eqb_spec (c * 4 + 3 + 1) 0); [lia | reflexivity].
  - rewrite (Z.mod_small (e + 1)) by lia.
    destruct (Z.eqb_spec (e + 1) 0); [lia|].
    destruct (Z.eqb_spec (e + 1) 4); [lia | reflexivity].
Qed.

Lemma days_before_year_cycle (a b c e : Z) :
  0 <= b <= 3 -> 0 <= c <= 24 -> 0 <= e <= 3 ->
  days_before_year (a * 400 + 1 + b * 100 + c * 4 + e)
  = 146097 * a + 36524 * b + 1461 * c + 365 * e.
Proof.
  intros Hb Hc He. unfold days_before_year.
  replace (a * 400 + 1 + b * 100 + c * 4 + e - 1)
    with (a * 400 + b * 100 + c * 4 + e) by lia.
  set (p := a * 400 + b * 100 + c * 4 + e).
  assert (p / 4 = a * 100 + b * 25 + c)
    by (symmetry; apply (Z.div_unique p 4 _ e); lia).
  assert (p / 100 = a * 4 + b)
    by (symmetry; apply (Z.div_unique p 100 _ (c * 4 + e)); lia).
  assert (p / 400 = a)
    by (symmetry; apply (Z.div_unique p 400 _ (b * 100 + c * 4 + e)); lia).
  lia.
Qed.

Lemma valid_date_spec (y m d : Z) :
  valid_date y m d = true <->
  1 <= y <= 9999 /\ 1 <= m <= 12 /\ 1 <= d <= days_in_month y m.
Proof.
  unfold valid_date. rewrite !andb_true_iff, !Z.leb_le. tauto.
Qed.

(** The date of an ordinal has that ordinal, and exists. *)
Lemma ymd2ord_ord2ymd (n : Z) :
  1 <= n <= MAXORDINAL ->
  let '(y, m, d) := ord2ymd n in
  ymd2ord y m d = n /\ valid_date y m d = true.
Proof.
  intros Hn. unfold ord2ymd.
  set (n0 := n - 1).
  set (n400 := n0 / 146097). set (r400 := n0 mod 146097).
  set (n100 := r400 / 36524). set (r100 := r400 mod 36524).
  set (n4 := r100 / 1461). set (r4 := r100 mod 1461).
  set (n1 := r4 / 365). set (r1 := r4 mod 365).
  assert (B400 : 0 <= r400 < 146097) by (apply Z.mod_pos_bound; lia).
  assert (B100 : 0 <= r100 < 36524) by (apply Z.mod_pos_bound; lia).
  assert (B4 : 0 <= r4 < 1461) by (apply Z.mod_pos_bound; lia).
  assert (B1 : 0 <= r1 < 365) by (apply Z.mod_pos_bound; lia).
  assert (E400 : n0 = 146097 * n400 + r400) by (apply Z.div_mod; lia).
  assert (E100 : r400 = 36524 * n100 + r100) by (apply Z.div_mod; lia).
  assert (E4 : r100 = 1461 * n4 + r4) by (apply Z.div_mod; lia).
  assert (E1 : r4 = 365 * n1 + r1) by (apply Z.div_mod; lia).
  assert (Hn400 : 0 <= n400 <= 24) by (unfold MAXORDINAL in Hn; lia).
  assert (Hn100 : 0 <= n100 <= 4) by lia.
  assert (Hn4 : 0 <= n4 <= 24) by lia.
  assert (Hn1 : 0 <= n1 <= 4) by lia.
  clearbody n400 r400 n100 r100 n4 r4 n1 r1.
  unfold MAXORDINAL in Hn.
  destruct ((n1 =? 4) || (n100 =? 4)) eqn:Hedge.
  - (* the last day of a leap year *)
    apply orb_true_iff in Hedge. rewrite !Z.eqb_eq in Hedge.
    assert (Hr1 : r1 = 0) by lia.
    assert (exists b c e,
              0 <= b <= 3 /\ 0 <= c <= 24 /\ e = 3 /\ (c <> 24 \/ b = 3)
              /\ n400 * 400 + 1 + n100 * 100 + n4 * 4 + n1 - 1
                 = n400 * 400 + 1 + b * 100 + c * 4 + e
              /\ n0 = 146097 * n400 + 36524 * b + 1461 * c + 365 * e + 365)
      as (b & c & e & Hb & Hc & He & Hleap & EY & En).
    { destruct Hedge as [H|H].
      - exists n100, n4, 3. repeat split; try lia.
      - exists 3, 24, 3. repeat split; try lia. }
    rewrite EY. rewrite valid_date_spec.
    unfold ymd2ord, days_before_month, days_in_month.
    rewrite days_before_year_cycle, is_leap_cycle by lia.
    subst e. simpl (3 =? 3). simpl (12 =? 2). simpl (2 <? 12).
    assert ((negb (c =? 24) || (b =? 3)) = true) as ->.
    { destruct Hleap as [H|H];
        [apply Z.eqb_neq in H; rewrite H
        | apply Z.eqb_eq in H; rewrite H, orb_true_r]; reflexivity. }
    cbn -[Z.mul Z.add Z.sub]. lia.
  - apply orb_false_iff in Hedge. rewrite !Z.eqb_neq in Hedge.
    set (y := n400 * 400 + 1 + n100 * 100 + n4 * 4 + n1).
    set (leapyear := (n1 =? 3) && (negb (n4 =? 24) || (n100 =? 3))).
    assert (HL : is_leap y = leapyear) by (apply is_leap_cycle; lia).
    assert (HD : days_before_year y = n0 - r1)
      by (unfold y; rewrite days_before_year_cycle; lia).
    rewrite Z.shiftr_div_pow2 by lia. change (2 ^ 5) with 32.
    set (m := (r1 + 50) / 32).
    assert (Em : r1 + 50 = 32 * m + (r1 + 50) mod 32) by (apply Z.div_mod; lia).
    assert (Bm : 0 <= (r1 + 50) mod 32 < 32) by (apply Z.mod_pos_bound; lia).
    assert (Hm : 1 <= m <= 12) by lia.
    assert (Hy : 1 <= y <= 9999) by (unfold y; lia).
    clearbody m y. clear E400 E100 E4 E1 Hedge.
    assert (Cases : m = 1 \/ m = 2 \/ m = 3 \/ m = 4 \/ m = 5 \/ m = 6
                    \/ m = 7 \/ m = 8 \/ m = 9 \/ m = 10 \/ m = 11 \/ m = 12)
      by lia.
    clearbody leapyear.
    repeat (destruct Cases as [-> | Cases]); [..|subst m];
      destruct leapyear; cbn -[Z.add Z.mul valid_date ymd2ord];
      match goal with
      | |- context [?a <? ?b] => destruct (Z.ltb_spec a b)
      end;
      rewrite valid_date_spec; unfold ymd2ord, days_before_month, days_in_month;
      rewrite HL, HD;
      repeat match goal with
             | |- context [Z.pos ?p - 1] =>
               let v := eval vm_compute in (Z.pos p - 1) in
               change (Z.pos p - 1) with v
             end;
      cbn -[Z.add Z.mul]; lia.
Qed.

Lemma days_before_year_mono (y y' : Z) :
  y <= y' -> days_before_year y <= days_before_year y'.
Proof.
  intros H. unfold days_before_year.
  Z.div_mod_to_equations. lia.
Qed.

Lemma is_leap_true (y : Z) :
  is_leap y = true <-> (y mod 4 = 0 /\ (y mod 100 <> 0 \/ y mod 400 = 0)).
Proof.
  unfold is_leap.
  rewrite andb_true_iff, orb_true_iff, negb_true_iff, !Z.eqb_eq, Z.eqb_neq.
  tauto.
Qed.

Lemma days_before_next_year (y : Z) :
  days_before_year (y + 1)
  = days_before_year y + 365 + (if is_leap y then 1 else 0).
Proof.
  unfold days_before_year.
  replace (y + 1 - 1) with y by lia.
  destruct (is_leap y) eqn:E.
  - apply is_leap_true in E. Z.div_mod_to_equations. lia.
  - assert (N : ~ (y mod 4 = 0 /\ (y mod 100 <> 0 \/ y mod 400 = 0))).
    { intros H. apply is_leap_true in H. congruence. }
    Z.div_mod_to_equations. lia.
Qed.

Lemma month_cases (m : Z) : 1 <= m <= 12 ->
  m = 1 \/ m = 2 \/ m = 3 \/ m = 4 \/ m = 5 \/ m = 6 \/ m = 7 \/ m = 8
  \/ m = 9 \/ m = 10 \/ m = 11 \/ m = 12.
Proof. lia. Qed.

Lemma ymd2ord_in_year (y m d : Z) :
  valid_date y m d = true ->
  days_before_year y < ymd2ord y m d <= days_before_year (y + 1).
Proof.
  intros H. apply valid_date_spec in H. destruct H as (Hy & Hm & Hd).
  rewrite days_before_next_year. unfold ymd2ord, days_before_month.
  unfold days_in_month in Hd.
  destruct (month_cases m Hm) as [->|[->|[->|[->|[->|[->|[->|[->|[->|[->|[->| ->]]]]]]]]]]];
    destruct (is_leap y); cbn in *; lia.
Qed.

Lemma ymd2ord_year_unique (y m d y' m' d' : Z) :
  valid_date y m d = true -> valid_date y' m' d' = true ->
  ymd2ord y m d = ymd2ord y' m' d' -> y = y'.
Proof.
  intros H H' E.
  pose proof (ymd2ord_in_year _ _ _ H) as B.
  pose proof (ymd2ord_in_year _ _ _ H') as B'.
  destruct (Z.lt_trichotomy y y') as [L | [L | L]]; [|exact L|].
  - pose proof (days_before_year_mono (y + 1) y' ltac:(lia)). lia.
  - pose proof (days_before_year_mono (y' + 1) y ltac:(lia)). lia.
Qed.

Lemma ymd2ord_injective (y m d y' m' d' : Z) :
  valid_date y m d = true -> valid_date y' m' d' = true ->
  ymd2ord y m d = ymd2ord y' m' d' -> y = y' /\ m = m' /\ d = d'.
Proof.
  intros H H' E.
  assert (Hy : y = y') by (eapply ymd2ord_year_unique; eassumption).
  subst y'. split; [reflexivity|].
  apply valid_date_spec in H, H'.
  destruct H as (Hy & Hm & Hd). destruct H' as (_ & Hm' & Hd').
  unfold ymd2ord, days_before_month in E. unfold days_in_month in Hd, Hd'.
  destruct (month_cases m Hm) as [->|[->|[->|[->|[->|[->|[->|[->|[->|[->|[->| ->]]]]]]]]]]];
    destruct (month_cases m' Hm') as [->|[->|[->|[->|[->|[->|[->|[->|[->|[->|[->| ->]]]]]]]]]]];
    destruct (is_leap y); cbn in *; lia.
Qed.

Lemma ymd2ord_range (y m d : Z) :
  valid_date y m d = true -> 1 <= ymd2ord y m d <= MAXORDINAL.
Proof.
  intros H. pose proof (ymd2ord_in_year _ _ _ H) as B.
  apply valid_date_spec in H. destruct H as (Hy & _).
  pose proof (days_before_year_mono 1 y ltac:(lia)) as L.
  pose proof (days_before_year_mono (y + 1) 10000 ltac:(lia)) as U.
  change (days_before_year 1) with 0 in L.
  change (days_before_year 10000) with 3652059 in U.
  unfold MAXORDINAL. lia.
Qed.

Lemma ord2ymd_ymd2ord (y m d : Z) :
  valid_date y m d = true -> ord2ymd (ymd2ord y m d) = (y, m, d).
Proof.
  intros H. pose proof (ymd2ord_ord2ymd _ (ymd2ord_range _ _ _ H)) as R.
  destruct (ord2ymd (ymd2ord y m d)) as [[y' m'] d']. destruct R as [E V].
  destruct (ymd2ord_injective _ _ _ _ _ _ V H E) as (-> & -> & ->).
  reflexivity.
Qed.

Lemma last_ordinal (y m d : Z) :
  valid_date y m d = true -> ymd2ord y m d = MAXORDINAL ->
  y = 9999 /\ m = 12 /\ d = 31.
Proof.
  intros H E. apply (ymd2ord_injective y m d 9999 12 31 H eq_refl).
  rewrite E. reflexivity.
Qed.

Lemma In_numbers (lo x : Z) (n : nat) :
  lo <= x < lo + Z.of_nat n -> In x (numbers lo n).
Proof.
  intros H. unfold numbers. apply in_map_iff.
  exists (Z.to_nat (x - lo)). split; [lia|]. apply in_seq. lia.
Qed.

Lemma month_day_read_all :
  forallb (fun m => forallb (month_day_read m) (numbers 1 31)) (numbers 1 12)
  = true.
Proof. vm_compute. reflexivity. Qed.

Lemma digit_digit_char (v : Z) : 0 <= v <= 9 -> digit (digit_char v) = Some v.
Proof.
  intros H. unfold digit, digit_char.
  assert (E1 : (48 <=? Z.to_N (48 + v))%N = true) by (apply N.leb_le; lia).
  assert (E2 : (Z.to_N (48 + v) <=? 57)%N = true) by (apply N.leb_le; lia).
  rewrite E1, E2. cbn [andb]. f_equal. rewrite Z2N.id by lia. lia.
Qed.

Lemma decimal_digit_char (v : Z) :
  0 <= v <= 9 -> decimal_digit (digit_char v) = Some v.
Proof.
  intros H.
  assert (C : v = 0 \/ v = 1 \/ v = 2 \/ v = 3 \/ v = 4 \/ v = 5 \/ v = 6
              \/ v = 7 \/ v = 8 \/ v = 9) by lia.
  repeat (destruct C as [-> | C]); [..|subst v]; reflexivity.
Qed.

Lemma strptime_iso_date (y m d : Z) :
  valid_date y m d = true -> strptime (iso_date y m d) = Ok (midnight y m d).
Proof.
  intros H. pose proof H as V. apply valid_date_spec in V.
  destruct V as (Hy & Hm & Hd).
  assert (Hd31 : d <= 31).
  { unfold days_in_month in Hd.
    destruct ((m =? 2) && is_leap y); [lia|].
    assert (C : m = 1 \/ m = 2 \/ m = 3 \/ m = 4 \/ m = 5 \/ m = 6 \/ m = 7
                \/ m = 8 \/ m = 9 \/ m = 10 \/ m = 11 \/ m = 12) by lia.
    repeat (destruct C as [-> | C]); [..|subst m]; cbn in Hd; lia. }
  unfold strptime, iso_date.
  rewrite !decimal_digit_char by (Z.div_mod_to_equations; lia).
  change (45 =? 45)%N with true. cbv iota.
  pose proof month_day_read_all as A. rewrite forallb_forall in A.
  specialize (A m (In_numbers 1 m 12 ltac:(lia))).
  rewrite forallb_forall in A.
  specialize (A d (In_numbers 1 d 31 ltac:(lia))).
  unfold month_day_read in A.
  destruct (first_month_day _) as [[[m' d'] [|c rest]]|]; try discriminate A.
  apply andb_true_iff in A. destruct A as [Am Ad].
  apply Z.eqb_eq in Am, Ad. subst m' d'.
  replace (1000 * (y / 1000) + 100 * ((y / 100) mod 10)
           + 10 * ((y / 10) mod 10) + y mod 10) with y
    by (Z.div_mod_to_equations; lia).
  rewrite H. reflexivity.
Qed.

(** The year is read in any script, as the library's pattern for it
    does: a date whose year is written with fullwidth digits is accepted,
    one whose month is written so is not. *)
Example strptime_reads_fullwidth_year :
  Datetime.strptime ([65298; 65296; 65298; 65300]%N ++ py "-01-15")
  = Datetime.strptime (py "2024-01-15")
  /\ Extractor.day_bounds ([65298; 65296; 65298; 65300]%N ++ py "-01-15")
     = Extractor.day_bounds (py "2024-01-15")
  /\ (exists e, Datetime.strptime (py "2024-" ++ [65296; 65297]%N ++ py "-15")
                = Raise e).
Proof.
  split; [vm_compute; reflexivity|]. split; [vm_compute; reflexivity|].
  eexists. vm_compute. reflexivity.
Qed.

End Calendar.

(* ----------------------------------------------------------------- *)
(** ** The query window *)

Section QueryWindow.

Import Datetime Extractor Samples.
Local Open Scope Z_scope.

Lemma strptime_midnight (s : pystr) (dt : datetime) :
  strptime s = Ok dt ->
  valid_date (year dt) (month dt) (day dt) = true
  /\ hour dt = 0 /\ minute dt = 0 /\ second dt = 0 /\ microsecond dt = 0.
Proof.
  unfold strptime. intros H.
  repeat match type of H with
         | match ?x with _ => _ end = _ => destruct x eqn:?; try discriminate
         | (if ?x then _ else _) = _ => destruct x eqn:?; try discriminate
         | (let '(_, _) := ?x in _) = _ => destruct x eqn:?
         end.
  inversion H; subst; simpl. repeat split; try reflexivity. assumption.
Qed.



Lemma day_bounds_of_date (s : pystr) (start : datetime) :
  strptime s = Ok start ->
  (year start, month start, day start) <> (9999, 12, 31) ->
  day_bounds s = Ok (start, last_second start).
Proof.
  intros Hs Hlast. destruct (strptime_midnight _ _ Hs) as (V & Hh & Hm & Hsec & Hus).
  pose proof (ymd2ord_range _ _ _ V) as R.
  assert (Hlt : ymd2ord (year start) (month start) (day start) < MAXORDINAL).
  { destruct (Z.eq_dec (ymd2ord (year start) (month start) (day start)) MAXORDINAL) as [E|E]; [|lia].
    destruct (last_ordinal _ _ _ V E) as (E1 & E2 & E3). exfalso. apply Hlast. congruence. }
  set (n := ymd2ord (year start) (month start) (day start)) in *.
  unfold day_bounds. rewrite Hs. cbn [bind].
  assert (E1 : add_seconds start 86400
               = Ok (let '(y, m, d) := ord2ymd (n + 1) in midnight y m d)).
  { unfold add_seconds. fold n. rewrite Hh, Hm, Hsec.
    replace (n * 86400 + 0 * 3600 + 0 * 60 + 0 + 86400) with ((n + 1) * 86400) by lia.
    rewrite Z.div_mul, Z.mod_mul by lia.
    destruct ((0 <? n + 1) && (n + 1 <=? MAXORDINAL)) eqn:B.
    - destruct (ord2ymd (n + 1)) as [[y m] d]. unfold midnight. rewrite Hus. reflexivity.
    - apply andb_false_iff in B. destruct B as [B|B]; [apply Z.ltb_ge in B | apply Z.leb_gt in B]; lia. }
  rewrite E1. cbn [bind].
  pose proof (ymd2ord_ord2ymd (n + 1) ltac:(lia)) as A.
  destruct (ord2ymd (n + 1)) as [[y m] d]. destruct A as [A _].
  assert (E2 : add_seconds (midnight y m d) (-1) = Ok (last_second start)).
  { unfold add_seconds, midnight. cbn [year month day hour minute second microsecond].
    rewrite A.
    replace ((n + 1) * 86400 + 0 * 3600 + 0 * 60 + 0 + -1) with (86399 + n * 86400) by lia.
    rewrite Z.div_add, Z.mod_add by lia.
    change (86399 / 86400) with 0. change (86399 mod 86400) with 86399.
    rewrite Z.add_0_l.
    destruct ((0 <? n) && (n <=? MAXORDINAL)) eqn:B.
    - unfold n. rewrite (ord2ymd_ymd2ord _ _ _ V). reflexivity.
    - apply andb_false_iff in B. destruct B as [B|B]; [apply Z.ltb_ge in B | apply Z.leb_gt in B]; lia. }
  rewrite E2. reflexivity.
Qed.


(** Every date of the calendar but the last one, written with padding,
    passes the date block. *)
Lemma day_bounds_accepts (y m d : Z) :
  valid_date y m d = true -> (y, m, d) <> (9999, 12, 31) ->
  day_bounds (iso_date y m d)
  = Ok (midnight y m d, last_second (midnight y m d)).
Proof.
  intros V Hlast. apply day_bounds_of_date; [apply strptime_iso_date, V|].
  exact Hlast.
Qed.



















Example filter_text_sample :
  filter_text (strftime_iso jan15) (strftime_iso jan15_last_second)
  = py "mrtApprovedDate ge datetime'2024-01-15T00:00:00Z' and mrtApprovedDate le datetime'2024-01-15T23:59:59Z'".
Proof. reflexivity. Qed.

Example day_bounds_leap_day :
  day_bounds (py "2024-02-29")
  = Ok ({| year := 2024; month := 2; day := 29;
           hour := 0; minute := 0; second := 0; microsecond := 0 |},
        {| year := 2024; month := 2; day := 29;
           hour := 23; minute := 59; second := 59; microsecond := 0 |}).
Proof. reflexivity. Qed.

Example day_bounds_first_day :
  day_bounds (py "0001-01-01")
  = Ok ({| year := 1; month := 1; day := 1;
           hour := 0; minute := 0; second := 0; microsecond := 0 |},
        {| year := 1; month := 1; day := 1;
           hour := 23; minute := 59; second := 59; microsecond := 0 |}).
Proof. reflexivity. Qed.

(** The next day of the last day does not exist: the addition overflows
    and the handler's [print] raises. *)
Example day_bounds_last_day :
  day_bounds (py "9999-12-31")
  = Raise (TypeError "invalid keyword argument for print()").
Proof. reflexivity. Qed.

Example day_bounds_not_a_date :
  day_bounds (py "2023-02-29")
  = Raise (TypeError "invalid keyword argument for print()").
Proof. reflexivity. Qed.

End QueryWindow.

(* ----------------------------------------------------------------- *)
(** ** The paginated fetcher *)

Section Fetcher.

Import Datetime Extractor Samples.

Lemma requests_made_get (c : settings) (url : json) (tr : trace) :
  requests_made (tr ++ [get_event c url]) = S (requests_made tr).
Proof.
  unfold requests_made. rewrite filter_app, length_app. simpl. lia.
Qed.

(** A caught failure before the last attempt is followed by the next
    attempt; on the last attempt it is raised. *)
Lemma for_count_caught (w : world) (c : settings) (url : json)
    (count : Z) (later : list Z) (tr : trace) (e : exn) :
  caught (remote w (requests_made tr) url) = Some e ->
  for_count w c url (count :: later) tr =
    if (count <? 2)%Z
    then for_count w c url later (tr ++ [get_event c url])
    else (Raise e, tr ++ [get_event c url]).
Proof.
  intros H. cbn [for_count http_get].
  destruct (remote w (requests_made tr) url) as [s r b | x]; simpl in H.
  - destruct (s =? 200)%Z; [discriminate|].
    destruct (s =? 401)%Z; [discriminate|]. simpl in H.
    destruct (raise_for_status s r); [discriminate|].
    inversion H; subst. reflexivity.
  - destruct (is_RequestException x); [|discriminate].
    inversion H; subst. reflexivity.
Qed.

Lemma for_count_unauthorized (w : world) (c : settings) (url : json)
    (count : Z) (later : list Z) (tr : trace) (r : pystr) (b : result json) :
  remote w (requests_made tr) url = Response 401 r b ->
  for_count w c url (count :: later) tr =
    if (count <? 2)%Z
    then for_count w c url later (tr ++ [get_event c url])
    else (Raise auth_failed, tr ++ [get_event c url]).
Proof. intros H. cbn [for_count http_get]. rewrite H. reflexivity. Qed.

Lemma for_count_ok (w : world) (c : settings) (url : json)
    (count : Z) (later : list Z) (tr : trace) (r : pystr) (b : result json) :
  remote w (requests_made tr) url = Response 200 r b ->
  for_count w c url (count :: later) tr
  = (Ok (Some b), tr ++ [get_event c url]).
Proof. intros H. cbn [for_count http_get]. rewrite H. reflexivity. Qed.

(** An attempt before the last one whose answer is tried again is
    followed by the next attempt. *)
Lemma for_count_retried (w : world) (c : settings) (url : json)
    (count : Z) (later : list Z) (tr : trace) :
  retried (remote w (requests_made tr) url) = true -> (count < 2)%Z ->
  for_count w c url (count :: later) tr
  = for_count w c url later (tr ++ [get_event c url]).
Proof.
  intros H Hc. cbn [for_count http_get].
  apply Z.ltb_lt in Hc. rewrite Hc.
  destruct (remote w (requests_made tr) url) as [s r b | x]; simpl in H.
  - destruct (s =? 200)%Z; [discriminate|].
    destruct (s =? 401)%Z; [reflexivity|].
    destruct (raise_for_status s r); reflexivity.
  - rewrite H. reflexivity.
Qed.

(** An attempt whose answer is not tried again ends the page: with the
    page, or with an exception that is not one of the [requests]
    library. *)
Lemma for_count_final (w : world) (c : settings) (url : json)
    (count : Z) (later : list Z) (tr : trace) :
  retried (remote w (requests_made tr) url) = false ->
  forall e, fst (for_count w c url (count :: later) tr) = Raise e ->
            is_RequestException e = false.
Proof.
  intros H e. cbn [for_count http_get].
  destruct (remote w (requests_made tr) url) as [s r b | x]; simpl in H.
  - apply negb_false_iff in H. rewrite H. discriminate.
  - rewrite H. intros E. inversion E; subst. exact H.
Qed.

(** The last attempt raises an exception of the [requests] library
    exactly when its answer is caught as that exception. *)
Lemma last_attempt (w : world) (c : settings) (url : json) (tr : trace)
    (e : exn) :
  is_RequestException e = true ->
  (fst (for_count w c url [2%Z] tr) = Raise e
   <-> caught (remote w (requests_made tr) url) = Some e).
Proof.
  intros He. cbn [for_count http_get].
  destruct (remote w (requests_made tr) url) as [s r b | x]; cbn [caught].
  - destruct (s =? 200)%Z; cbn [orb fst]; [split; discriminate|].
    destruct (s =? 401)%Z; cbn [orb fst Z.ltb Z.compare Pos.compare Pos.compare_cont].
    + split; [|discriminate]. intros E. inversion E; subst. discriminate He.
    + destruct (raise_for_status s r) as [[]|e'];
        cbn [fst]; split; intros E; inversion E; reflexivity.
  - destruct (is_RequestException x) eqn:R; cbn [fst].
    + change (2 <? 2)%Z with false. cbn [fst].
      split; intros E; inversion E; reflexivity.
    + split; [|discriminate]. intros E. inversion E; subst. congruence.
Qed.

(** C4, as stated, fails: a page request answered with status 500 is
    attempted again, and the page is fetched when the second attempt is
    answered with 200. *)
Lemma server_error_is_attempted_again :
  remote (world_of [server_error; page [report 7 "Osaka"]] server_error (Ok tt))
         0 page_url
  = Response 500 (py "Internal Server Error") (Raise JSONDecodeError)
  /\ fetch_pages
       (world_of [server_error; page [report 7 "Osaka"]] server_error (Ok tt))
       (settings_of extractor_env) 1 page_url [] []
     = Some (Ok [report 7 "Osaka"],
             [get_event (settings_of extractor_env) page_url;
              get_event (settings_of extractor_env) page_url]).
Proof. split; reflexivity. Qed.

(** C4, amended. An HTTP error status other than 401 is handled like a
    connection-level error: the request is attempted again, three
    attempts in all. A page request ends with an exception of the
    [requests] library exactly when its first two attempts are tried
    again (an answer with any status but 200, or such an exception) and
    the third attempt fails with that exception: the [HTTPError] of an
    error status (4xx or 5xx, 401 apart) with the status code and reason
    of the third response, or the exception [requests.get] raised. Three
    requests have then been sent, and the fetch ends with that
    exception. *)
Theorem failed_requests_are_retried (w : world) (c : settings) (url : json)
    (tr : trace) :
  let first := remote w (requests_made tr) url in
  let second := remote w (S (requests_made tr)) url in
  let third := remote w (S (S (requests_made tr))) url in
  let sent := tr ++ [get_event c url; get_event c url; get_event c url] in
  (forall e0 e1 e2,
     caught first = Some e0 -> caught second = Some e1 ->
     caught third = Some e2 ->
     request_page w c url tr = (Raise e2, sent))
  /\ (forall status_code reason body,
        (400 <= status_code < 600)%Z -> status_code <> 401%Z ->
        caught (Response status_code reason body)
        = Some (HTTPError status_code reason))
  /\ (forall e, is_RequestException e = true -> caught (Failed e) = Some e)
  /\ (forall e,
        is_RequestException e = true ->
        (fst (request_page w c url tr) = Raise e
         <-> retried first = true /\ retried second = true
             /\ caught third = Some e))
  /\ (forall e,
        retried first = true -> retried second = true ->
        caught third = Some e ->
        is_RequestException e = true
        /\ request_page w c url tr = (Raise e, sent)
        /\ forall fuel seen,
             truthy url = true ->
             fetch_pages w c (S fuel) url seen tr = Some (Raise e, sent)).
Proof.
  intros first second third sent.
  assert (Hthree : forall e,
            retried first = true -> retried second = true ->
            caught third = Some e ->
            request_page w c url tr = (Raise e, sent)).
  { intros e R0 R1 C2. unfold request_page.
    rewrite (for_count_retried _ _ _ _ _ _ R0) by lia.
    unfold second in R1.
    rewrite <- requests_made_get with (c := c) (url := url) in R1.
    rewrite (for_count_retried _ _ _ _ _ _ R1) by lia.
    unfold third in C2.
    rewrite <- !requests_made_get with (c := c) (url := url) in C2.
    rewrite (for_count_caught _ _ _ _ _ _ _ C2). simpl (2 <? 2)%Z. cbv iota.
    unfold sent. rewrite <- !app_assoc. reflexivity. }
  assert (Hretried : forall reply e, caught reply = Some e ->
                                     retried reply = true).
  { intros [s r b | x] e; simpl.
    - destruct (s =? 200)%Z; [discriminate | reflexivity].
    - destruct (is_RequestException x); [reflexivity | discriminate]. }
  assert (Hkind : forall reply e, caught reply = Some e ->
                                  is_RequestException e = true).
  { intros [s r b | x] e; simpl.
    - destruct ((s =? 200)%Z || (s =? 401)%Z); [discriminate|].
      unfold raise_for_status.
      destruct ((400 <=? s)%Z && (s <? 600)%Z); [|discriminate].
      intros E. inversion E. reflexivity.
    - destruct (is_RequestException x) eqn:R; [|discriminate].
      intros E. inversion E; subst. exact R. }
  split; [|split; [|split; [|split]]].
  - intros e0 e1 e2 H0 H1 H2.
    exact (Hthree e2 (Hretried _ _ H0) (Hretried _ _ H1) H2).
  - intros s r b Hs Hne. unfold caught, raise_for_status.
    destruct (Z.eqb_spec s 200); [lia|].
    destruct (Z.eqb_spec s 401); [lia|]. simpl.
    destruct (Z.leb_spec 400 s); [|lia].
    destruct (Z.ltb_spec s 600); [|lia]. reflexivity.
  - intros e He. simpl. rewrite He. reflexivity.
  - intros e He. split.
    + intros E. unfold request_page in E.
      destruct (retried first) eqn:R0.
      2:{ rewrite (for_count_final _ _ _ _ _ _ R0 e E) in He. discriminate. }
      rewrite (for_count_retried _ _ _ _ _ _ R0) in E by lia.
      destruct (retried second) eqn:R1.
      2:{ unfold second in R1.
          rewrite <- requests_made_get with (c := c) (url := url) in R1.
          rewrite (for_count_final _ _ _ _ _ _ R1 e E) in He. discriminate. }
      pose proof R1 as R1'. unfold second in R1'.
      rewrite <- requests_made_get with (c := c) (url := url) in R1'.
      rewrite (for_count_retried _ _ _ _ _ _ R1') in E by lia.
      apply (last_attempt _ _ _ _ _ He) in E.
      rewrite !requests_made_get in E.
      split; [reflexivity|]. split; [reflexivity | exact E].
    + intros (R0 & R1 & C2). rewrite (Hthree e R0 R1 C2). reflexivity.
  - intros e R0 R1 C2. split; [exact (Hkind _ _ C2)|].
    split; [exact (Hthree e R0 R1 C2)|].
    intros fuel seen Hu. cbn [fetch_pages]. rewrite Hu. cbn [negb].
    rewrite (Hthree e R0 R1 C2). reflexivity.
Qed.

Lemma failed_requests_are_retried_witness :
  caught (remote (world_of [] server_error (Ok tt)) 0 page_url)
  = Some (HTTPError 500 (py "Internal Server Error"))
  /\ request_page (world_of [] server_error (Ok tt))
                  (settings_of extractor_env) page_url []
     = (Raise (HTTPError 500 (py "Internal Server Error")),
        [] ++ [get_event (settings_of extractor_env) page_url;
               get_event (settings_of extractor_env) page_url;
               get_event (settings_of extractor_env) page_url])
  /\ fetch_pages (world_of [unauthorized; no_content; server_error]
                           (page []) (Ok tt))
                 (settings_of extractor_env) 1 page_url [] []
     = Some (Raise (HTTPError 500 (py "Internal Server Error")),
             [] ++ [get_event (settings_of extractor_env) page_url;
                    get_event (settings_of extractor_env) page_url;
                    get_event (settings_of extractor_env) page_url])
  /\ (fst (request_page (world_of [server_error; server_error; unauthorized]
                                  (page []) (Ok tt))
                        (settings_of extractor_env) page_url [])
      = Raise (HTTPError 500 (py "Internal Server Error"))
      <-> retried server_error = true /\ retried server_error = true
          /\ caught unauthorized
             = Some (HTTPError 500 (py "Internal Server Error"))).
Proof.
  split; [reflexivity|]. split; [|split].
  - exact (proj1 (failed_requests_are_retried
                    (world_of [] server_error (Ok tt))
                    (settings_of extractor_env) page_url [])
                 (HTTPError 500 (py "Internal Server Error"))
                 (HTTPError 500 (py "Internal Server Error"))
                 (HTTPError 500 (py "Internal Server Error"))
                 eq_refl eq_refl eq_refl).
  - exact (proj2 (proj2 (proj2 (proj2 (proj2 (proj2
             (failed_requests_are_retried
                (world_of [unauthorized; no_content; server_error]
                          (page []) (Ok tt))
                (settings_of extractor_env) page_url []))))
             (HTTPError 500 (py "Internal Server Error"))
             eq_refl eq_refl eq_refl)) 0%nat [] eq_refl).
  - exact (proj1 (proj2 (proj2 (proj2
             (failed_requests_are_retried
                (world_of [server_error; server_error; unauthorized]
                          (page []) (Ok tt))
                (settings_of extractor_env) page_url []))))
             (HTTPError 500 (py "Internal Server Error")) eq_refl).
Defined.

(** C8. On status 401 the same request, with the same credentials, is
    sent again, three times in all. Three 401 answers in a row end the
    fetch with the authentication failure; two 401 answers followed by a
    200 answer whose page has no next link end it with the items fetched
    before plus the items of that page, the 401 answers adding none. *)
Theorem unauthorized_is_retried (w : world) (c : settings) (url : json)
    (items : list json) (tr : trace) (fuel : nat)
    (r0 r1 : pystr) (b0 b1 : result json) :
  truthy url = true ->
  remote w (requests_made tr) url = Response 401 r0 b0 ->
  remote w (S (requests_made tr)) url = Response 401 r1 b1 ->
  (forall r2 b2,
     remote w (S (S (requests_made tr))) url = Response 401 r2 b2 ->
     fetch_pages w c (S fuel) url items tr
     = Some (Raise auth_failed,
             tr ++ [get_event c url; get_event c url; get_event c url]))
  /\ (forall r2 page_items,
        remote w (S (S (requests_made tr))) url
        = Response 200 r2 (Ok (JObj [(py "value", JArr page_items)])) ->
        fetch_pages w c (S fuel) url items tr
        = Some (Ok (items ++ page_items),
                tr ++ [get_event c url; get_event c url; get_event c url])).
Proof.
  intros Hurl H0 H1.
  assert (Hpage : forall tail,
    for_count w c url [2%Z] ((tr ++ [get_event c url]) ++ [get_event c url])
    = (tail, ((tr ++ [get_event c url]) ++ [get_event c url]) ++ [get_event c url]) ->
    request_page w c url tr
    = (tail, tr ++ [get_event c url; get_event c url; get_event c url])).
  { intros tail Ht. unfold request_page.
    rewrite (for_count_unauthorized _ _ _ _ _ _ _ _ H0). simpl (0 <? 2)%Z. cbv iota.
    rewrite <- requests_made_get with (c := c) (url := url) in H1.
    rewrite (for_count_unauthorized _ _ _ _ _ _ _ _ H1). simpl (1 <? 2)%Z. cbv iota.
    rewrite Ht, <- !app_assoc. reflexivity. }
  split.
  - intros r2 b2 H2.
    rewrite <- !requests_made_get with (c := c) (url := url) in H2.
    cbn [fetch_pages]. rewrite Hurl. cbn [negb].
    rewrite (Hpage (Raise auth_failed)); [reflexivity|].
    rewrite (for_count_unauthorized _ _ _ _ _ _ _ _ H2). reflexivity.
  - intros r2 page_items H2.
    rewrite <- !requests_made_get with (c := c) (url := url) in H2.
    cbn [fetch_pages]. rewrite Hurl. cbn [negb].
    rewrite (Hpage (Ok (Some (Ok (JObj [(py "value", JArr page_items)])))));
      [|rewrite (for_count_ok _ _ _ _ _ _ _ _ H2); reflexivity].
    change (read_page (Ok (JObj [(py "value", JArr page_items)])) items)
      with (Ok (items ++ page_items, JNull)).
    destruct fuel; reflexivity.
Qed.

Lemma unauthorized_is_retried_witness :
  fetch_pages (world_of [unauthorized; unauthorized; unauthorized]
                        (page []) (Ok tt))
              (settings_of extractor_env) 1 page_url [] []
  = Some (Raise auth_failed,
          [get_event (settings_of extractor_env) page_url;
           get_event (settings_of extractor_env) page_url;
           get_event (settings_of extractor_env) page_url])
  /\ fetch_pages (world_of [unauthorized; unauthorized;
                            page [report 7 "Osaka"; report 8 "Kyoto"]]
                           (page []) (Ok tt))
                 (settings_of extractor_env) 1 page_url [] []
     = Some (Ok [report 7 "Osaka"; report 8 "Kyoto"],
             [get_event (settings_of extractor_env) page_url;
              get_event (settings_of extractor_env) page_url;
              get_event (settings_of extractor_env) page_url]).
Proof.
  split.
  - apply (proj1 (unauthorized_is_retried
             (world_of [unauthorized; unauthorized; unauthorized] (page []) (Ok tt))
             (settings_of extractor_env) page_url [] [] 0
             (py "Unauthorized") (py "Unauthorized")
             (Raise JSONDecodeError) (Raise JSONDecodeError)
             eq_refl eq_refl eq_refl)
           (py "Unauthorized") (Raise JSONDecodeError)).
    reflexivity.
  - apply (proj2 (unauthorized_is_retried
             (world_of [unauthorized; unauthorized;
                        page [report 7 "Osaka"; report 8 "Kyoto"]]
                       (page []) (Ok tt))
             (settings_of extractor_env) page_url [] [] 0
             (py "Unauthorized") (py "Unauthorized")
             (Raise JSONDecodeError) (Raise JSONDecodeError)
             eq_refl eq_refl eq_refl)
           (py "OK") [report 7 "Osaka"; report 8 "Kyoto"]).
    reflexivity.
Defined.

End Fetcher.

(* ----------------------------------------------------------------- *)
(** ** The raw store writer *)

Section RawStore.

Import Datetime Extractor Samples.

(** Without a bucket name nothing is written and the result is
    [False]; with one, a body that can be encoded and a put that
    succeeds give [True]. *)
Lemma store_json_to_s3_unset (w : world) (c : settings) (data : json)
    (filename : pystr) (tr : trace) :
  unset (BUCKET_NAME c) = true ->
  store_json_to_s3 w c data filename tr = (Ok false, tr).
Proof.
  unfold store_json_to_s3.
  destruct (BUCKET_NAME c) as [[|b ucket]|]; simpl; congruence.
Qed.

Lemma store_json_to_s3_stored (w : world) (c : settings) (data : json)
    (filename bucket : pystr) (tr : trace) :
  BUCKET_NAME c = Some bucket -> bucket <> [] ->
  dumps_utf8 w data = Ok tt ->
  put_object w bucket filename data = Ok tt ->
  store_json_to_s3 w c data filename tr
  = (Ok true, tr ++ [S3Put bucket filename data]).
Proof.
  intros Hb Hne Hd Hput. unfold store_json_to_s3. rewrite Hb.
  destruct bucket as [|b ucket]; [congruence|]. rewrite Hd, Hput. reflexivity.
Qed.

(** C3 on the code: when the put raises, the handler's own [print] call
    raises [TypeError], so the function raises to its caller and does
    not return [False]. This holds for every payload, the empty list
    included: the put has been made when the text of the payload could
    be encoded, and a payload whose text cannot be encoded ends the same
    way before any put. *)
Theorem store_json_to_s3_storage_error (w : world) (c : settings)
    (data : json) (filename bucket : pystr) (tr : trace) (e : exn) :
  BUCKET_NAME c = Some bucket -> bucket <> [] ->
  put_object w bucket filename data = Raise e ->
  fst (store_json_to_s3 w c data filename tr)
  = Raise (TypeError "invalid keyword argument for print()")
  /\ (dumps_utf8 w data = Ok tt ->
      store_json_to_s3 w c data filename tr
      = (Raise (TypeError "invalid keyword argument for print()"),
         tr ++ [S3Put bucket filename data]))
  /\ (forall e',
        dumps_utf8 w data = Raise e' ->
        store_json_to_s3 w c data filename tr
        = (Raise (TypeError "invalid keyword argument for print()"), tr)).
Proof.
  intros Hb Hne Hput. unfold store_json_to_s3. rewrite Hb.
  destruct bucket as [|b ucket]; [congruence|].
  destruct (dumps_utf8 w data) as [[]|e0].
  - rewrite Hput. split; [reflexivity|]. split; [reflexivity|].
    intros e' He'. discriminate He'.
  - split; [reflexivity|]. split; [discriminate|]. reflexivity.
Qed.

Lemma store_json_to_s3_storage_error_witness :
  store_json_to_s3
    (world_of [] (page []) (Raise (ClientError "AccessDenied")))
    (settings_of extractor_env) (JArr [])
    (py "raw_sharepoint_reports_daily/2024-01-15_raw_reports.json") []
  = (Raise (TypeError "invalid keyword argument for print()"),
     [S3Put (py "reports")
            (py "raw_sharepoint_reports_daily/2024-01-15_raw_reports.json")
            (JArr [])]).
Proof.
  apply (proj1 (proj2 (store_json_to_s3_storage_error
                  (world_of [] (page []) (Raise (ClientError "AccessDenied")))
                  (settings_of extractor_env) (JArr [])
                  (py "raw_sharepoint_reports_daily/2024-01-15_raw_reports.json")
                  (py "reports") [] (ClientError "AccessDenied")
                  eq_refl ltac:(discriminate) eq_refl))).
  reflexivity.
Defined.

End RawStore.

(* ----------------------------------------------------------------- *)
(** ** The extraction run *)

Section ExtractionRun.

Import Datetime Extractor Samples.

Lemma str_eqb_eq (a b : pystr) : str_eqb a b = true <-> a = b.
Proof.
  revert b. induction a as [|x a IH]; intros [|y b]; simpl;
    try (split; [discriminate | congruence]); [tauto|].
  rewrite andb_true_iff, N.eqb_eq, IH.
  split; [intros [-> ->]; reflexivity | intros H; inversion H; tauto].
Qed.

(** The module does not bind [urllib]. *)
Lemma urllib_unbound :
  resolve module_names "urllib" = Raise (NameError "urllib").
Proof. reflexivity. Qed.

(** As the module does not bind [urllib], no call gets past the query
    URL: whatever the configuration and the target date, the function
    raises before anything is requested or written. *)
Lemma process_always_raises (w : world) (env : environ) (fuel : nat)
    (target_date_str : pystr) :
  exists e, process_sharepoint_data_for_batch w env fuel target_date_str
            = Some (Raise e, []).
Proof.
  unfold process_sharepoint_data_for_batch.
  destruct (check_required_envs env required_envs) as [u|e]; [|eauto].
  destruct (day_bounds target_date_str) as [[dt ed]|e]; [|eauto].
  rewrite urllib_unbound. eauto.
Qed.

(** So the script exits with status 1 on every input, having requested
    and written nothing. *)
Lemma main_always_exits_one (w : world) (env : environ) (fuel : nat) :
  main w env fuel = Some (1%Z, []).
Proof.
  unfold main. destruct (env "TARGET_DATE"%string) as [[|t arget]|];
    try reflexivity.
  destruct (process_always_raises w env fuel (t :: arget)) as [e ->].
  reflexivity.
Qed.

(** C2, as stated, fails on one well-formed date: for 9999-12-31, the
    last day a [datetime] can hold, the date block itself fails when it
    adds a day, and what the function raises is the [TypeError] of the
    handler's [print], not a [NameError]. *)
Lemma last_day_raises_type_error :
  check_required_envs extractor_env_last_day required_envs = Ok tt
  /\ extractor_env_last_day "TARGET_DATE"%string = Some (py "9999-12-31")
  /\ valid_date 9999 12 31 = true
  /\ iso_date 9999 12 31 = py "9999-12-31"
  /\ process_sharepoint_data_for_batch
       (world_of [] (page []) (Ok tt)) extractor_env_last_day 5
       (py "9999-12-31")
     = Some (Raise (TypeError "invalid keyword argument for print()"), [])
  /\ process_sharepoint_data_for_batch
       (world_of [] (page []) (Ok tt)) extractor_env_last_day 5
       (py "9999-12-31")
     <> Some (Raise (NameError "urllib"), []).
Proof.
  split; [reflexivity|]. split; [reflexivity|]. split; [reflexivity|].
  split; [reflexivity|]. split; [reflexivity|].
  vm_compute. discriminate.
Qed.

(** C2, amended. With every required variable set and a target date that
    passes the date block (every date of the calendar written as
    YYYY-MM-DD does, but for the last one, 9999-12-31), the function
    raises [NameError] where the first query URL is built. For every
    target date whatever, the function raises with nothing requested and
    nothing written, and the script exits with status 1. *)
Theorem process_raises_name_error (w : world) (env : environ) (fuel : nat) :
  check_required_envs env required_envs = Ok tt ->
  (forall target_date_str bounds,
     day_bounds target_date_str = Ok bounds ->
     process_sharepoint_data_for_batch w env fuel target_date_str
     = Some (Raise (NameError "urllib"), [])
     /\ (env "TARGET_DATE"%string = Some target_date_str ->
         main w env fuel = Some (1%Z, [])))
  /\ (forall y m d,
        valid_date y m d = true -> (y, m, d) <> (9999, 12, 31)%Z ->
        process_sharepoint_data_for_batch w env fuel (iso_date y m d)
        = Some (Raise (NameError "urllib"), []))
  /\ (forall target_date_str,
        (exists e, process_sharepoint_data_for_batch w env fuel target_date_str
                   = Some (Raise e, []))
        /\ (env "TARGET_DATE"%string = Some target_date_str ->
            main w env fuel = Some (1%Z, []))).
Proof.
  intros Henv.
  assert (Hgen : forall target_date_str bounds,
            day_bounds target_date_str = Ok bounds ->
            process_sharepoint_data_for_batch w env fuel target_date_str
            = Some (Raise (NameError "urllib"), [])).
  { intros d bounds Hday.
    unfold process_sharepoint_data_for_batch. rewrite Henv, Hday.
    destruct bounds. rewrite urllib_unbound. reflexivity. }
  split; [|split].
  - intros d bounds Hday. split; [exact (Hgen _ _ Hday)|].
    intros Ht. unfold main. rewrite Ht.
    destruct d as [|t arget]; [discriminate Hday|].
    rewrite (Hgen _ _ Hday). reflexivity.
  - intros y m d V Hlast. exact (Hgen _ _ (day_bounds_accepts y m d V Hlast)).
  - intros d. split; [exact (process_always_raises w env fuel d)|].
    intros _. exact (main_always_exits_one w env fuel).
Qed.

Lemma process_raises_name_error_witness :
  process_sharepoint_data_for_batch
    (world_of [page [report 7 "Osaka"]] (page []) (Ok tt))
    extractor_env 5 (py "2024-01-15")
  = Some (Raise (NameError "urllib"), [])
  /\ main (world_of [page [report 7 "Osaka"]] (page []) (Ok tt))
          extractor_env 5
     = Some (1%Z, [])
  /\ process_sharepoint_data_for_batch
       (world_of [page [report 7 "Osaka"]] (page []) (Ok tt))
       extractor_env 5 (iso_date 2024 2 29)
     = Some (Raise (NameError "urllib"), [])
  /\ process_sharepoint_data_for_batch
       (world_of [page [report 7 "Osaka"]] (page []) (Ok tt))
       extractor_env 5 ([65298; 65296; 65298; 65300]%N ++ py "-01-15")
     = Some (Raise (NameError "urllib"), [])
  /\ (exists e,
        process_sharepoint_data_for_batch
          (world_of [] (page []) (Ok tt)) extractor_env_last_day 5
          (py "9999-12-31")
        = Some (Raise e, []))
  /\ main (world_of [] (page []) (Ok tt)) extractor_env_last_day 5
     = Some (1%Z, []).
Proof.
  destruct (process_raises_name_error
              (world_of [page [report 7 "Osaka"]] (page []) (Ok tt))
              extractor_env 5 eq_refl) as (Hstr & Hdate & _).
  destruct (Hstr (py "2024-01-15") (jan15, jan15_last_second) eq_refl)
    as [H1 H2].
  split; [exact H1|]. split; [apply H2; reflexivity|].
  split; [apply Hdate; [reflexivity | discriminate]|].
  split.
  { refine (proj1 (Hstr ([65298; 65296; 65298; 65300]%N ++ py "-01-15")
                        (jan15, jan15_last_second) _)).
    vm_compute. reflexivity. }
  destruct (process_raises_name_error
              (world_of [] (page []) (Ok tt))
              extractor_env_last_day 5 eq_refl) as (_ & _ & Hany).
  destruct (Hany (py "9999-12-31")) as [H3 H4].
  split; [exact H3 | apply H4; reflexivity].
Defined.

(** The return of the path without records carries the status SUCCESS
    and no output key, and nothing is written; as the module is written
    no run reaches it. *)
Lemma store_batch_without_records (w : world) (c : settings)
    (target_date_str : pystr) (target_dt_utc : datetime) (tr : trace) :
  exists r, store_batch w c target_date_str target_dt_utc [] tr = (Ok r, tr)
            /\ status r = py "SUCCESS" /\ s3_output_key r = None.
Proof. eexists. split; [reflexivity|]. split; reflexivity. Qed.



End ExtractionRun.

(* ----------------------------------------------------------------- *)
(** ** The enrichment pipeline *)

Section Enrichment.

Import Indexer Samples.

Lemma quiet_ret {A} (a : A) : quiet (ret a).
Proof. intros st r st' H. inversion H; subst. split; reflexivity. Qed.

Lemma quiet_continue {A} : quiet (@continue A).
Proof. intros st r st' H. inversion H; subst. split; reflexivity. Qed.

Lemma quiet_lift {A} (x : result A) : quiet (lift x).
Proof.
  intros st r st' H. unfold lift in H.
  destruct x; inversion H; subst; split; reflexivity.
Qed.

Lemma quiet_and_then {A B} (m : M A) (k : A -> M B) :
  quiet m -> (forall a, quiet (k a)) -> quiet (and_then m k).
Proof.
  intros Hm Hk st r st' H. unfold and_then in H.
  destruct (m st) as [[a| |e] st1] eqn:E.
  - destruct (Hm _ _ _ E) as [H1 H2]. destruct (Hk a _ _ _ H) as [H3 H4].
    split; congruence.
  - inversion H; subst. exact (Hm _ _ _ E).
  - inversion H; subst. exact (Hm _ _ _ E).
Qed.

Lemma quiet_invoke (w : world) (model_id input : pystr) :
  quiet (invoke w model_id input).
Proof.
  intros st r st' H. unfold invoke in H.
  destruct (invoke_model w (invocations st) model_id input);
    inversion H; subst; split; reflexivity.
Qed.

Lemma quiet_or_none {A} (m : M A) : quiet m -> quiet (or_none m).
Proof.
  intros Hm st r st' H. unfold or_none in H.
  destruct (m st) as [[a| |e] st1] eqn:E.
  - inversion H; subst. exact (Hm _ _ _ E).
  - inversion H; subst. exact (Hm _ _ _ E).
  - destruct (print ["exc_info"%string]); inversion H; subst;
      exact (Hm _ _ _ E).
Qed.

Lemma quiet_summarize (w : world) (c : settings) (text : pystr) :
  quiet (summarize_text_with_bedrock w c text).
Proof.
  unfold summarize_text_with_bedrock.
  destruct (negb (truthy (JStr (BEDROCK_SUMMARY_MODEL_ID c))));
    [apply quiet_ret|].
  apply quiet_or_none, quiet_and_then; [apply quiet_invoke|].
  intros body. apply quiet_and_then; [apply quiet_lift|].
  intros completion. apply quiet_lift.
Qed.

Lemma quiet_embedding (w : world) (c : settings) (text : pystr) :
  quiet (get_embedding_from_bedrock w c text).
Proof.
  unfold get_embedding_from_bedrock.
  destruct (negb (truthy (JStr (BEDROCK_EMBEDDING_MODEL_ID c))));
    [apply quiet_ret|].
  apply quiet_and_then; [|intros r; apply quiet_ret].
  apply quiet_or_none, quiet_and_then; [apply quiet_invoke|].
  intros body. apply quiet_lift.
Qed.

Lemma quiet_enrich (w : world) (c : settings) (env : environ) (item : json) :
  quiet (enrich w c env item).
Proof.
  unfold enrich.
  repeat first
    [ apply quiet_lift | apply quiet_ret | apply quiet_continue
    | apply quiet_summarize | apply quiet_embedding
    | apply quiet_and_then; [|intros ?]
    | match goal with
      | |- quiet (match ?x with _ => _ end) => destruct x
      end ].
Qed.

Lemma and_then_go {A B} (m : M A) (k : A -> M B) (st st' : state) (b : B) :
  and_then m k st = (Go b, st') ->
  exists a st1, m st = (Go a, st1) /\ k a st1 = (Go b, st').
Proof.
  unfold and_then. destruct (m st) as [[a| |e] st1]; try discriminate.
  intros H. exists a, st1. split; [reflexivity | exact H].
Qed.

Lemma lift_go {A} (x : result A) (st st' : state) (a : A) :
  lift x st = (Go a, st') -> x = Ok a /\ st' = st.
Proof.
  unfold lift. destruct x; intros H; inversion H; subst. split; reflexivity.
Qed.

(** A record comes out of the enrichment with a document only when the
    summary helper returned a non-empty text and both embedding calls
    returned a value; those are then the three generated fields. *)
Lemma enrich_go (w : world) (c : settings) (env : environ) (item : json)
    (st st' : state) (doc : es_doc) :
  enrich w c env item st = (Go doc, st') ->
  exists Title date customer murata summary detail url id file
         detail_summary full_vector summary_vector text1 text2 st1 st2,
    doc = make_es_doc Title date customer murata summary (JStr detail)
            (JStr detail_summary) full_vector summary_vector
            (JStr url) (JStr id) file
    /\ detail_summary <> [] /\ full_vector <> JNull /\ summary_vector <> JNull
    /\ summarize_text_with_bedrock w c detail st
       = (Go (Some detail_summary), st1)
    /\ get_embedding_from_bedrock w c text1 st1 = (Go full_vector, st2)
    /\ get_embedding_from_bedrock w c text2 st2 = (Go summary_vector, st').
Proof.
  unfold enrich. intros H.
  repeat match type of H with
         | and_then (lift _) _ _ = (Go _, _) =>
           let a := fresh "a" in let s1 := fresh "s" in
           let E := fresh "E" in let E' := fresh "E" in
           apply and_then_go in H; destruct H as (a & s1 & E & H);
           apply lift_go in E; destruct E as [E E']; subst s1
         end.
  apply and_then_go in H. destruct H as (summary_text & st1 & Hsum & H).
  destruct summary_text as [[|ch detail_summary]|]; try discriminate H.
  repeat match type of H with
         | and_then (lift _) _ _ = (Go _, _) =>
           let a := fresh "a" in let s1 := fresh "s" in
           let E := fresh "E" in let E' := fresh "E" in
           apply and_then_go in H; destruct H as (a & s1 & E & H);
           apply lift_go in E; destruct E as [E E']; subst s1
         end.
  apply and_then_go in H. destruct H as (full_vector & st2 & Hfull & H).
  destruct full_vector; try discriminate H;
    (apply and_then_go in H; destruct H as (sv & st3 & Hsv & H);
     destruct sv; try discriminate H;
     inversion H; subst;
     do 16 eexists;
     (split; [reflexivity|]);
     (split; [discriminate|]); (split; [discriminate|]);
     (split; [discriminate|]);
     (split; [exact Hsum|]); (split; [exact Hfull | exact Hsv])).
Qed.

Lemma enrich_stopped (names : list string) (w : world) (c : settings)
    (env : environ) (item : json) (st st1 : state) (r : flow es_doc) :
  enrich w c env item st = (r, st1) ->
  r = Continue \/ (exists e, r = Throw e) ->
  process_record names w c env item st = (false, st1).
Proof.
  intros H Hr. unfold process_record, and_then. rewrite H.
  destruct Hr as [-> | [e ->]]; reflexivity.
Qed.

Lemma index_call_effect (names : list string) (w : world) (c : settings)
    (doc : es_doc) (st : state) :
  attempts (snd (index_call names w c doc st)) = attempts st ++ [doc]
  /\ (upserts (snd (index_call names w c doc st)) = upserts st
      \/ upserts (snd (index_call names w c doc st))
         = upserts st ++ [(fmt (ELASTICSEARCH_INDEX_NAME c), doc)]).
Proof.
  unfold index_call, index_data_to_elasticsearch.
  destruct (resolve names "index_data_to_elasticsearch"); simpl.
  - destruct (es_accepts w (fmt (ELASTICSEARCH_INDEX_NAME c)) doc); simpl.
    + split; [reflexivity | right; reflexivity].
    + split; [reflexivity | left; reflexivity].
  - split; [reflexivity | left; reflexivity].
Qed.

Lemma process_record_go (names : list string) (w : world) (c : settings)
    (env : environ) (item : json) (st st1 : state) (doc : es_doc) :
  enrich w c env item st = (Go doc, st1) ->
  snd (process_record names w c env item st)
  = snd (index_call names w c doc st1).
Proof.
  intros H. unfold process_record, and_then. rewrite H.
  destruct (index_call names w c doc st1) as [[b| |e] st2]; reflexivity.
Qed.

(** A record hands at most its own document to the index call, after
    those handed before. *)
Lemma process_record_attempts (names : list string) (w : world)
    (c : settings) (env : environ) (item : json) (st : state) :
  exists more,
    attempts (snd (process_record names w c env item st))
    = attempts st ++ more.
Proof.
  destruct (enrich w c env item st) as [[doc| |e] st1] eqn:E.
  - rewrite (process_record_go names _ _ _ _ _ _ _ E).
    destruct (quiet_enrich w c env item _ _ _ E) as [Ha _].
    destruct (index_call_effect names w c doc st1) as [Ha' _].
    exists [doc]. rewrite Ha', Ha. reflexivity.
  - rewrite (enrich_stopped names _ _ _ _ _ _ _ E (or_introl eq_refl)).
    destruct (quiet_enrich w c env item _ _ _ E) as [Ha _].
    exists []. cbn [snd]. rewrite Ha, app_nil_r. reflexivity.
  - rewrite (enrich_stopped names _ _ _ _ _ _ _ E
               (or_intror (ex_intro _ e eq_refl))).
    destruct (quiet_enrich w c env item _ _ _ E) as [Ha _].
    exists []. cbn [snd]. rewrite Ha, app_nil_r. reflexivity.
Qed.

(** The loop over the records of a file keeps the documents handed to
    the index call before it, in front of its own. *)
Lemma process_records_attempts (names : list string) (w : world)
    (c : settings) (env : environ) (items : list json) :
  forall n st,
    exists more,
      attempts (snd (process_records names w c env items n st))
      = attempts st ++ more.
Proof.
  induction items as [|item rest IH]; intros n st.
  - exists []. cbn [process_records snd]. rewrite app_nil_r. reflexivity.
  - cbn [process_records].
    destruct (process_record_attempts names w c env item st) as [m1 E1].
    destruct (process_record names w c env item st) as [written st'].
    cbn [snd] in E1.
    destruct (IH (if written then n + 1 else n)%Z st') as [m2 E2].
    exists (m1 ++ m2). rewrite E2, E1, app_assoc. reflexivity.
Qed.

(** C9. Whatever the module binds, the index call of a record is
    reached only with a document whose generated summary is not empty
    and whose two embeddings were returned, and only that call can
    write to the index. A record whose enrichment stops, by a skip or
    by any exception, is not counted, hands no document to the index
    call and leaves the index as it was. The loop then goes on with the
    next record of the file, from the state the stopped record left:
    when the enrichment of that next record goes through, its document
    is handed to the index call, right after the documents handed
    before the stopped record. The loop over no record changes nothing,
    and over one record it does what that record does. *)
Theorem index_write_needs_full_enrichment (names : list string) (w : world)
    (c : settings) (env : environ) (item : json) (st : state) :
  (forall r st1,
     enrich w c env item st = (r, st1) ->
     r = Continue \/ (exists e, r = Throw e) ->
     process_record names w c env item st = (false, st1)
     /\ attempts st1 = attempts st /\ upserts st1 = upserts st)
  /\ (forall doc st1,
        enrich w c env item st = (Go doc, st1) ->
        (exists Title date customer murata summary detail url id file
                detail_summary full_vector summary_vector text1 text2 s1 s2,
           doc = make_es_doc Title date customer murata summary (JStr detail)
                   (JStr detail_summary) full_vector summary_vector
                   (JStr url) (JStr id) file
           /\ detail_summary <> [] /\ full_vector <> JNull
           /\ summary_vector <> JNull
           /\ summarize_text_with_bedrock w c detail st
              = (Go (Some detail_summary), s1)
           /\ get_embedding_from_bedrock w c text1 s1 = (Go full_vector, s2)
           /\ get_embedding_from_bedrock w c text2 s2
              = (Go summary_vector, st1))
        /\ attempts (snd (process_record names w c env item st))
           = attempts st ++ [doc]
        /\ (upserts (snd (process_record names w c env item st)) = upserts st
            \/ upserts (snd (process_record names w c env item st))
               = upserts st ++ [(fmt (ELASTICSEARCH_INDEX_NAME c), doc)]))
  /\ (forall rest n,
        process_records names w c env (item :: rest) n st
        = process_records names w c env rest
            (if fst (process_record names w c env item st)
             then n + 1 else n)%Z
            (snd (process_record names w c env item st)))
  /\ (forall n, process_records names w c env [] n st = (n, st))
  /\ (forall n,
        process_records names w c env [item] n st
        = ((if fst (process_record names w c env item st)
            then n + 1 else n)%Z,
           snd (process_record names w c env item st)))
  /\ (forall r st1 next doc st2 rest n,
        enrich w c env item st = (r, st1) ->
        r = Continue \/ (exists e, r = Throw e) ->
        enrich w c env next st1 = (Go doc, st2) ->
        process_records names w c env (item :: next :: rest) n st
        = process_records names w c env rest
            (if fst (process_record names w c env next st1)
             then n + 1 else n)%Z
            (snd (index_call names w c doc st2))
        /\ exists more,
             attempts (snd (process_records names w c env
                              (item :: next :: rest) n st))
             = attempts st ++ doc :: more).
Proof.
  split; [|split; [|split; [|split; [|split]]]].
  - intros r st1 H Hr. split; [exact (enrich_stopped names _ _ _ _ _ _ _ H Hr)|].
    exact (quiet_enrich w c env item _ _ _ H).
  - intros doc st1 H. split; [exact (enrich_go _ _ _ _ _ _ _ H)|].
    rewrite (process_record_go names _ _ _ _ _ _ _ H).
    destruct (quiet_enrich w c env item _ _ _ H) as [Ha Hu].
    destruct (index_call_effect names w c doc st1) as [Ha' Hu'].
    rewrite Ha', Ha. split; [reflexivity|].
    destruct Hu' as [Hu' | Hu']; rewrite Hu', Hu; [left | right]; reflexivity.
  - intros rest n. cbn [process_records].
    destruct (process_record names w c env item st) as [written st']. reflexivity.
  - intros n. reflexivity.
  - intros n. cbn [process_records].
    destruct (process_record names w c env item st) as [written st']. reflexivity.
  - intros r st1 next doc st2 rest n H Hr Hnext.
    assert (E : process_records names w c env (item :: next :: rest) n st
                = process_records names w c env rest
                    (if fst (process_record names w c env next st1)
                     then n + 1 else n)%Z
                    (snd (index_call names w c doc st2))).
    { cbn [process_records].
      rewrite (enrich_stopped names _ _ _ _ _ _ _ H Hr).
      rewrite <- (process_record_go names _ _ _ _ _ _ _ Hnext).
      destruct (process_record names w c env next st1) as [written st'].
      reflexivity. }
    split; [exact E|]. rewrite E.
    destruct (process_records_attempts names w c env rest
                (if fst (process_record names w c env next st1)
                 then n + 1 else n)%Z
                (snd (index_call names w c doc st2))) as [more Em].
    exists more. rewrite Em.
    destruct (index_call_effect names w c doc st2) as [Ha' _].
    destruct (quiet_enrich w c env next _ _ _ Hnext) as [Ha2 _].
    destruct (quiet_enrich w c env item _ _ _ H) as [Ha1 _].
    rewrite Ha', Ha2, Ha1, <- app_assoc. reflexivity.
Qed.

Lemma index_write_needs_full_enrichment_witness :
  enrich two_record_world (settings_of indexer_env) indexer_env
         (raw_report 7 "Osaka" "Line stop at the Osaka plant.") initial
  = (Throw (TypeError "invalid keyword argument for print()"),
     {| invocations := 2; attempts := []; upserts := [] |})
  /\ process_record module_names two_record_world (settings_of indexer_env)
       indexer_env (raw_report 7 "Osaka" "Line stop at the Osaka plant.")
       initial
     = (false, {| invocations := 2; attempts := []; upserts := [] |})
  /\ attempts
       (snd (process_record module_names two_record_world
               (settings_of indexer_env) indexer_env
               (raw_report 8 "Kyoto" "Audit of the Kyoto site.")
               {| invocations := 2; attempts := []; upserts := [] |}))
     = [kyoto_doc]
  /\ (exists more,
        attempts
          (snd (process_records module_names two_record_world
                  (settings_of indexer_env) indexer_env
                  [ raw_report 7 "Osaka" "Line stop at the Osaka plant.";
                    raw_report 8 "Kyoto" "Audit of the Kyoto site." ]
                  0%Z initial))
        = attempts initial ++ kyoto_doc :: more).
Proof.
  split; [reflexivity|]. split; [|split].
  - apply (proj1 (index_write_needs_full_enrichment module_names
                    two_record_world (settings_of indexer_env) indexer_env
                    (raw_report 7 "Osaka" "Line stop at the Osaka plant.")
                    initial)
             (Throw (TypeError "invalid keyword argument for print()"))
             {| invocations := 2; attempts := []; upserts := [] |}).
    + reflexivity.
    + right. eexists. reflexivity.
  - apply (proj1 (proj2 (index_write_needs_full_enrichment module_names
                    two_record_world (settings_of indexer_env) indexer_env
                    (raw_report 8 "Kyoto" "Audit of the Kyoto site.")
                    {| invocations := 2; attempts := []; upserts := [] |}))
             kyoto_doc {| invocations := 5; attempts := []; upserts := [] |}).
    reflexivity.
  - refine (proj2 (proj2 (proj2 (proj2 (proj2 (proj2
             (index_write_needs_full_enrichment module_names
                two_record_world (settings_of indexer_env) indexer_env
                (raw_report 7 "Osaka" "Line stop at the Osaka plant.")
                initial)))))
             (Throw (TypeError "invalid keyword argument for print()"))
             {| invocations := 2; attempts := []; upserts := [] |}
             (raw_report 8 "Kyoto" "Audit of the Kyoto site.")
             kyoto_doc {| invocations := 5; attempts := []; upserts := [] |}
             [] 0%Z _ _ _)).
    + vm_compute. reflexivity.
    + right. eexists. reflexivity.
    + vm_compute. reflexivity.
Defined.

End Enrichment.

(* ----------------------------------------------------------------- *)
(** ** The indexing run *)

Section IndexingRun.

Import Indexer Samples.

(** The module does not bind the index writer. *)
Lemma index_writer_unbound :
  resolve module_names "index_data_to_elasticsearch"
  = Raise (NameError "index_data_to_elasticsearch").
Proof. reflexivity. Qed.

Lemma process_record_unbound (w : world) (c : settings) (env : environ)
    (item : json) (st : state) :
  fst (process_record module_names w c env item st) = false
  /\ upserts (snd (process_record module_names w c env item st)) = upserts st.
Proof.
  unfold process_record, and_then.
  destruct (enrich w c env item st) as [[doc| |e] st1] eqn:E;
    pose proof (quiet_enrich w c env item _ _ _ E) as [_ Hu].
  - unfold index_call. rewrite index_writer_unbound. simpl.
    split; [reflexivity | exact Hu].
  - split; [reflexivity | exact Hu].
  - split; [reflexivity | exact Hu].
Qed.

Lemma process_records_unbound (w : world) (c : settings) (env : environ)
    (items : list json) (n : Z) (st : state) :
  fst (process_records module_names w c env items n st) = n
  /\ upserts (snd (process_records module_names w c env items n st))
     = upserts st.
Proof.
  revert n st. induction items as [|item rest IH]; intros n st;
    [split; reflexivity|].
  cbn [process_records].
  destruct (process_record_unbound w c env item st) as [Hw Hu].
  destruct (process_record module_names w c env item st) as [written st'].
  simpl in Hw, Hu. subst written.
  destruct (IH n st') as [IH1 IH2]. split; congruence.
Qed.

Lemma process_files_unbound (w : world) (c : settings) (env : environ)
    (keys : list pystr) (t : totals) (st : state) :
  total_reports_indexed
    (fst (process_files module_names w c env keys t st))
  = total_reports_indexed t
  /\ upserts (snd (process_files module_names w c env keys t st))
     = upserts st.
Proof.
  revert t st. induction keys as [|key rest IH]; intros t st;
    [split; reflexivity|].
  cbn [process_files].
  assert (Hfile :
    total_reports_indexed (fst (process_file module_names w c env key t st))
    = total_reports_indexed t
    /\ upserts (snd (process_file module_names w c env key t st))
       = upserts st).
  { unfold process_file.
    destruct (read_json w key) as [[| | | | |items|]|]; try (split; reflexivity).
    destruct items as [|i items']; [split; reflexivity|].
    destruct (process_records_unbound w c env (i :: items') 0%Z st) as [H1 H2].
    destruct (process_records module_names w c env (i :: items') 0%Z st)
      as [n st'].
    simpl in *. subst n. split; [lia | exact H2]. }
  destruct (process_file module_names w c env key t st) as [t' st'].
  simpl in Hfile. destruct Hfile as [H1 H2].
  destruct (IH t' st') as [IH1 IH2]. split; congruence.
Qed.

(** As the module does not bind the index writer, no run upserts a
    document, and a run that counts reports counts none. *)
Lemma no_run_indexes (w : world) (env : environ) :
  upserts (snd (process_s3_data_and_index_es module_names w env)) = []
  /\ forall r t,
       fst (process_s3_data_and_index_es module_names w env) = Ok r ->
       printed_totals r = Some t -> total_reports_indexed t = 0%Z.
Proof.
  unfold process_s3_data_and_index_es.
  destruct (check_required_envs env required_envs);
    [|split; [reflexivity | discriminate]].
  destruct (list_json_files_from_s3 w (settings_of env)) as [[|k keys]|];
    [split; [reflexivity | intros r t H; inversion H; subst; discriminate]
    | | split; [reflexivity | discriminate]].
  destruct (get_elasticsearch_client w (settings_of env));
    [|split; [reflexivity | discriminate]].
  destruct (process_files_unbound w (settings_of env) env (k :: keys)
              {| total_reports_indexed := 0; total_files_processed := 0 |}
              initial) as [H1 H2].
  destruct (process_files module_names w (settings_of env) env (k :: keys) _ _)
    as [t' st'].
  simpl in *. split; [exact H2|].
  intros r t H Ht. inversion H; subst r. simpl in Ht. inversion Ht; subst t.
  exact H1.
Qed.

(** C1 on the code: for the stored daily file with two records, the
    first failing at its first embedding and the second fully valid,
    the valid record reaches the index call with its document, built
    with the twelve field names of the index; the name of the writer is
    not bound, the handler of the record swallows the [NameError], and
    the run ends with no document upserted and a reported total of 0,
    not 1. No run of the module upserts a document or reports a total
    other than 0. *)
Theorem two_record_file_indexes_nothing :
  process_s3_data_and_index_es module_names two_record_world indexer_env
  = (Ok {| status := py "SUCCESS";
           message := py "S3の全過去データインデックスが完了したわ！合計 0 件インデックス済み。";
           printed_totals :=
             Some {| total_reports_indexed := 0;
                     total_files_processed := 1 |} |},
     {| invocations := 5; attempts := [kyoto_doc]; upserts := [] |})
  /\ map fst kyoto_doc
     = [ py "タイトル"; py "訪問日"; py "得意先参加者"; py "村田同行者"; py "概要";
         py "詳細"; py "詳細要約"; py "全文ベクトル"; py "全文要約ベクトル"; py "URL";
         py "source_sharepoint_file_id"; py "source_sharepoint_filename" ]
  /\ forall w env,
       upserts (snd (process_s3_data_and_index_es module_names w env)) = []
       /\ forall r t,
            fst (process_s3_data_and_index_es module_names w env) = Ok r ->
            printed_totals r = Some t -> total_reports_indexed t = 0%Z.
Proof.
  split; [vm_compute; reflexivity|].
  split; [reflexivity|].
  intros w env. apply no_run_indexes.
Qed.

Lemma two_record_file_indexes_nothing_witness :
  fst (process_s3_data_and_index_es module_names two_record_world indexer_env)
  = Ok {| status := py "SUCCESS";
          message := py "S3の全過去データインデックスが完了したわ！合計 0 件インデックス済み。";
          printed_totals :=
            Some {| total_reports_indexed := 0;
                    total_files_processed := 1 |} |}
  /\ total_reports_indexed
       {| total_reports_indexed := 0; total_files_processed := 1 |} = 0%Z.
Proof.
  split; [vm_compute; reflexivity|].
  destruct two_record_file_indexes_nothing as (_ & _ & H).
  destruct (H two_record_world indexer_env) as [_ Ht].
  apply (Ht {| status := py "SUCCESS";
               message := py "S3の全過去データインデックスが完了したわ！合計 0 件インデックス済み。";
               printed_totals :=
                 Some {| total_reports_indexed := 0;
                         total_files_processed := 1 |} |}
            {| total_reports_indexed := 0; total_files_processed := 1 |}).
  - vm_compute. reflexivity.
  - reflexivity.
Defined.

(** With a writer as the specification describes it bound to the name,
    the same file gives one upsert, of the valid record's document under
    the configured index name, and a reported total of 1. *)
Lemma two_record_file_with_writer :
  process_s3_data_and_index_es
    ("index_data_to_elasticsearch"%string :: module_names)
    two_record_world indexer_env
  = (Ok {| status := py "SUCCESS";
           message := py "S3の全過去データインデックスが完了したわ！合計 1 件インデックス済み。";
           printed_totals :=
             Some {| total_reports_indexed := 1;
                     total_files_processed := 1 |} |},
     {| invocations := 5; attempts := [kyoto_doc];
        upserts := [(py "reports", kyoto_doc)] |}).
Proof. vm_compute. reflexivity. Qed.

End IndexingRun.

(* ================================================================= *)
(** * Further properties *)

(* ----------------------------------------------------------------- *)
(** ** Visit dates *)

Section VisitDates.

Import Datetime Extractor Samples.


Lemma digit_not_mark (c : N) (v : Z) :
  decimal_digit c = Some v -> date_separator c = false /\ range_mark c = false.
Proof.
  intros H. unfold date_separator, range_mark.
  destruct (N.eqb_spec c 47) as [->|_]; [vm_compute in H; discriminate|].
  destruct (N.eqb_spec c 45) as [->|_]; [vm_compute in H; discriminate|].
  destruct (N.eqb_spec c 65374) as [->|_]; [vm_compute in H; discriminate|].
  destruct (N.eqb_spec c 126) as [->|_]; [vm_compute in H; discriminate|].
  split; reflexivity.
Qed.

(** Of two readings of a group of one or two digits, the second leaves
    a digit ahead. *)
Lemma one_or_two_digits_cases (s : pystr) :
  one_or_two_digits s = []
  \/ (exists r, one_or_two_digits s = [r])
  \/ (exists r a t, one_or_two_digits s = [r; (a, t)] /\ digit_ahead t = true).
Proof.
  unfold one_or_two_digits.
  destruct s as [|c1 [|c2 t]].
  - left. reflexivity.
  - destruct (decimal_digit c1); [right; left; eexists|left]; reflexivity.
  - destruct (decimal_digit c1) eqn:E1; [|left; reflexivity].
    destruct (decimal_digit c2) eqn:E2.
    + right. right. do 3 eexists. split; [reflexivity|].
      simpl. rewrite E2. reflexivity.
    + right. left. eexists. reflexivity.
Qed.

Lemma digit_ahead_not_mark (t : pystr) :
  digit_ahead t = true ->
  match t with
  | c :: _ => date_separator c = false /\ range_mark c = false
  | [] => False
  end.
Proof.
  destruct t as [|c t]; simpl; [discriminate|].
  destruct (decimal_digit c) eqn:E; [|discriminate].
  intros _. exact (digit_not_mark _ _ E).
Qed.

(** Of the readings of a date, every one after the first leaves a digit
    ahead. *)
Lemma date_readings_tail (s : pystr) :
  Forall (fun r => digit_ahead (snd r) = true) (tl (date_readings s)).
Proof.
  unfold date_readings.
  destruct (four_digits s) as [[y [|c after_year]]|]; try constructor.
  destruct (date_separator c); [|constructor].
  match goal with |- context [flat_map ?g _] => set (f := g) end.
  assert (Hf : forall month, Forall (fun r => digit_ahead (snd r) = true)
                                    (tl (f month))).
  { intros [m [|c' after_month]]; unfold f; simpl; [constructor|].
    destruct (date_separator c'); [|constructor].
    destruct (one_or_two_digits_cases after_month) as [E|[[r E]|[r [a [t [E D]]]]]];
      rewrite E; simpl; repeat constructor. exact D. }
  destruct (one_or_two_digits_cases after_year) as [E|[[r E]|[r [a [t [E D]]]]]];
    rewrite E; simpl.
  - constructor.
  - rewrite app_nil_r. apply Hf.
  - replace (f (a, t)) with (@nil (Z * Z * Z * pystr)).
    + rewrite app_nil_r. apply Hf.
    + unfold f. simpl. apply digit_ahead_not_mark in D.
      destruct t as [|c' t']; [reflexivity|]. destruct D as [-> _]. reflexivity.
Qed.

Lemma match_range_date_single (s : pystr) (ymd : Z * Z * Z) :
  match_range_date s = Some ymd -> match_single_date s = Some ymd.
Proof.
  unfold match_range_date, match_single_date.
  pose proof (date_readings_tail s) as T.
  destruct (date_readings s) as [|[[[y m] d] rest] later]; [discriminate|].
  simpl in T.
  match goal with |- context [find ?p _] => set (p_ := p) end.
  cbn [find].
  replace (find p_ later) with (@None (Z * Z * Z * pystr)).
  - destruct (p_ (y, m, d, rest)); [intros H; exact H|discriminate].
  - symmetry. induction T as [|r l D _ IH]; [reflexivity|]. simpl.
    replace (p_ r) with false; [exact IH|].
    unfold p_. destruct r as [ymd' t]. apply digit_ahead_not_mark in D.
    cbn [snd] in *. destruct t as [|c t]; [reflexivity|].
    destruct D as [_ ->]. reflexivity.
Qed.

(** X1. The second pattern of [parse_visit_date], the one for a range of
    two dates, never decides the result: whenever it matches, the first
    pattern matches too and reads the same year, month and day. So the
    function returns the first date read by the first pattern when that
    date exists, and [None] otherwise, also for a range whose first date
    does not exist. *)
Theorem parse_visit_date_ignores_range (date_str : option pystr) :
  parse_visit_date date_str
  = match date_str with
    | Some s =>
      match match_single_date s with
      | Some ymd => formatted_date ymd
      | None => None
      end
    | None => None
    end.
Proof.
  destruct date_str as [[|c s]|]; try reflexivity.
  unfold parse_visit_date.
  destruct (match_range_date (c :: s)) as [ymd|] eqn:R.
  - rewrite (match_range_date_single _ _ R).
    destruct (formatted_date ymd); reflexivity.
  - destruct (match_single_date (c :: s)) as [ymd|]; [|reflexivity].
    destruct (formatted_date ymd); reflexivity.
Qed.


Local Open Scope Z_scope.

Lemma script_digits_read :
  forallb (fun zero =>
             forallb (fun v =>
                        match decimal_digit (script_digit zero v) with
                        | Some v' => v' =? v
                        | None => false
                        end)
                     (numbers 0 10))
          decimal_zeros = true.
Proof. vm_compute. reflexivity. Qed.

Lemma decimal_digit_script (zero : N) (v : Z) :
  In zero decimal_zeros -> 0 <= v <= 9 ->
  decimal_digit (script_digit zero v) = Some v.
Proof.
  intros Hz Hv. pose proof script_digits_read as H.
  rewrite forallb_forall in H. specialize (H _ Hz).
  rewrite forallb_forall in H.
  specialize (H v (In_numbers 0 v 10 ltac:(simpl; lia))).
  destruct (decimal_digit (script_digit zero v)); [|discriminate].
  apply Z.eqb_eq in H. congruence.
Qed.

Lemma separator_not_digit (c : N) :
  date_separator c = true -> decimal_digit c = None.
Proof.
  unfold date_separator. rewrite orb_true_iff, !N.eqb_eq.
  intros [-> | ->]; reflexivity.
Qed.

Lemma four_digits_year (zero : N) (y : Z) (rest : pystr) :
  In zero decimal_zeros -> 0 <= y <= 9999 ->
  four_digits (year_field zero y ++ rest) = Some (y, rest).
Proof.
  intros Hz Hy. unfold four_digits, year_field. cbn [app].
  rewrite !(decimal_digit_script zero) by
    (try assumption; Z.div_mod_to_equations; lia).
  do 2 f_equal. Z.div_mod_to_equations. lia.
Qed.

Lemma one_or_two_digits_field (zero : N) (padded : bool) (n : Z)
    (rest : pystr) :
  In zero decimal_zeros -> 0 <= n <= 99 ->
  (padded = false -> n < 10 -> digit_ahead rest = false) ->
  exists later,
    one_or_two_digits (date_field zero padded n ++ rest) = (n, rest) :: later.
Proof.
  intros Hz Hn Hrest. unfold date_field.
  destruct (padded || (10 <=? n)) eqn:E.
  - unfold one_or_two_digits. cbn [app].
    rewrite !(decimal_digit_script zero) by
      (try assumption; Z.div_mod_to_equations; lia).
    eexists. cbn [app]. do 2 f_equal. Z.div_mod_to_equations. lia.
  - apply orb_false_iff in E. destruct E as [-> E]. apply Z.leb_gt in E.
    specialize (Hrest eq_refl E).
    unfold one_or_two_digits. cbn [app].
    rewrite (decimal_digit_script zero) by (try assumption; lia).
    destruct rest as [|c rest]; [eexists; reflexivity|].
    simpl in Hrest. destruct (decimal_digit c); [discriminate|].
    eexists. reflexivity.
Qed.

Lemma year_digits :
  forallb (fun y => str_eqb (decimal y) (year_field 48 y)) (numbers 1000 (Z.to_nat 9000))
  = true.
Proof. vm_compute. reflexivity. Qed.

Lemma pad2_digits :
  forallb (fun n => str_eqb (pad2 n) (date_field 48 true n)) (numbers 0 100)
  = true.
Proof. vm_compute. reflexivity. Qed.

(** From year 1000 on, a formatted date has its three fields padded. *)
Lemma strftime_date_iso (y m d : Z) :
  1000 <= y <= 9999 -> 0 <= m <= 99 -> 0 <= d <= 99 ->
  strftime_date (midnight y m d) = iso_date y m d.
Proof.
  intros Hy Hm Hd. unfold strftime_date, midnight. cbn [year month day].
  pose proof year_digits as Y. rewrite forallb_forall in Y.
  specialize (Y y (In_numbers 1000 y (Z.to_nat 9000) ltac:(rewrite Z2Nat.id; lia))).
  apply str_eqb_eq in Y. rewrite Y.
  pose proof pad2_digits as P. rewrite forallb_forall in P.
  pose proof (P m (In_numbers 0 m 100 ltac:(simpl; lia))) as Pm.
  pose proof (P d (In_numbers 0 d 100 ltac:(simpl; lia))) as Pd.
  apply str_eqb_eq in Pm, Pd. rewrite Pm, Pd.
  unfold date_field, year_field, iso_date, script_digit, digit_char. cbn [orb app].
  change (py "-") with [45%N]. cbn [app].
  repeat (f_equal; try (rewrite <- (Z2N.inj_add 48) by
                          (Z.div_mod_to_equations; lia); reflexivity)).
Qed.

Lemma days_in_month_le (y m : Z) : days_in_month y m <= 31.
Proof.
  unfold days_in_month. destruct ((m =? 2) && is_leap y); [lia|].
  unfold days_in_month_table.
  destruct m as [|p|p]; try lia.
  do 4 (destruct p as [p|p|]; try lia).
Qed.

Lemma date_readings_written (zero : N) (y m d : Z) (sep1 sep2 : N)
    (month_padded day_padded : bool) (rest : pystr) :
  In zero decimal_zeros ->
  0 <= y <= 9999 -> 0 <= m <= 99 -> 0 <= d <= 99 ->
  date_separator sep1 = true -> date_separator sep2 = true ->
  (day_padded = false -> d < 10 -> digit_ahead rest = false) ->
  match_single_date
    (year_field zero y ++ [sep1] ++ date_field zero month_padded m
     ++ [sep2] ++ date_field zero day_padded d ++ rest)
  = Some (y, m, d).
Proof.
  intros Hz Hy Hm Hd S1 S2 Hrest.
  unfold match_single_date, date_readings.
  rewrite four_digits_year by assumption. cbn [app]. rewrite S1.
  destruct (one_or_two_digits_field zero month_padded m
              (sep2 :: date_field zero day_padded d ++ rest) Hz Hm)
    as [later Em].
  { intros _ _. simpl. rewrite (separator_not_digit _ S2). reflexivity. }
  rewrite Em. cbn [flat_map fst snd]. rewrite S2.
  destruct (one_or_two_digits_field zero day_padded d rest Hz Hd Hrest)
    as [later' Ed].
  rewrite Ed. reflexivity.
Qed.

(** X2. A date of the calendar from year 1000 on comes back as
    YYYY-MM-DD, with a hyphen and two digits for month and day, however
    it was written: with slashes or hyphens, the month and the day
    padded or not, in the decimal digits of any one script (ASCII,
    fullwidth, ...), and whatever follows the day, as long as no digit
    follows a day written with one digit. *)
Theorem parse_visit_date_normalises (zero : N) (y m d : Z) (sep1 sep2 : N)
    (month_padded day_padded : bool) (rest : pystr) :
  In zero decimal_zeros ->
  valid_date y m d = true -> 1000 <= y ->
  date_separator sep1 = true -> date_separator sep2 = true ->
  (day_padded = false -> d < 10 -> digit_ahead rest = false) ->
  parse_visit_date
    (Some (year_field zero y ++ [sep1] ++ date_field zero month_padded m
           ++ [sep2] ++ date_field zero day_padded d ++ rest))
  = Some (iso_date y m d).
Proof.
  intros Hz V Hy S1 S2 Hrest.
  pose proof V as V'. apply valid_date_spec in V'.
  destruct V' as [Vy [Vm Vd]]. pose proof (days_in_month_le y m) as Hdm.
  unfold parse_visit_date.
  rewrite date_readings_written by (try assumption; lia).
  unfold formatted_date. rewrite V.
  rewrite strftime_date_iso by lia.
  unfold year_field. cbn [app]. reflexivity.
Qed.

Lemma parse_visit_date_normalises_witness :
  parse_visit_date (Some (py "２０２４/２/２９(木)")) = Some (py "2024-02-29")
  /\ parse_visit_date (Some (py "2024-12-01~2024-12-05")) = Some (py "2024-12-01").
Proof.
  split.
  - apply (parse_visit_date_normalises 65296 2024 2 29 47 47 false false
             (py "(木)")%N);
      try reflexivity; try lia.
    vm_compute. tauto.
  - apply (parse_visit_date_normalises 48 2024 12 1 45 45 true true
             (py "~2024-12-05")%N);
      try reflexivity; try lia; try discriminate.
    vm_compute. tauto.
Defined.

End VisitDates.

(* ----------------------------------------------------------------- *)
(** ** Pages and attempts *)

Section Pagination.

Import Datetime Extractor Samples.


(** X3. When every page is answered with status 200 at the first attempt,
    the loop follows the links from page to page: it sends one request
    for each page, in order, stops at the first page without a link, and
    returns the items of all pages in the order received, after the
    items it already had. *)
Theorem fetch_pages_follows_links (w : world) (c : settings)
    (pages : list (list json * json)) :
  forall (fuel : nat) (url : json) (seen : list json) (tr : trace),
    serves w (requests_made tr) url pages ->
    (List.length pages <= fuel)%nat ->
    fetch_pages w c fuel url seen tr
    = Some (Ok (seen ++ List.concat (map fst pages)),
            tr ++ page_requests c url pages).
Proof.
  induction pages as [|[items next] later IH]; intros fuel url seen tr S L.
  - simpl in S. destruct fuel; simpl; rewrite S; simpl; rewrite !app_nil_r;
      reflexivity.
  - destruct S as (T & (reason & body & R & B) & S').
    destruct fuel as [|fuel]; [simpl in L; lia|].
    cbn [fetch_pages]. rewrite T. cbn [negb].
    unfold request_page. rewrite (for_count_ok _ _ _ _ _ _ _ _ R).
    rewrite B. rewrite <- requests_made_get with (c := c) (url := url) in S'.
    rewrite (IH fuel next _ _ S') by (simpl in L; lia).
    cbn [map fst List.concat page_requests].
    rewrite <- !app_assoc. reflexivity.
Qed.

Lemma fetch_pages_follows_links_witness :
  fetch_pages
    (world_of [ linked_page [report 7 "Osaka"] second_page_url;
                page [report 8 "Kyoto"] ] server_error (Ok tt))
    (settings_of extractor_env) 2 page_url [] []
  = Some (Ok [report 7 "Osaka"; report 8 "Kyoto"],
          [ get_event (settings_of extractor_env) page_url;
            get_event (settings_of extractor_env) second_page_url ]).
Proof.
  apply (fetch_pages_follows_links
           (world_of [ linked_page [report 7 "Osaka"] second_page_url;
                       page [report 8 "Kyoto"] ] server_error (Ok tt))
           (settings_of extractor_env)
           [ ([report 7 "Osaka"], second_page_url);
             ([report 8 "Kyoto"], JNull) ]
           2 page_url [] []).
  - simpl. split; [reflexivity|]. split.
    + do 2 eexists. split; [reflexivity|]. intros seen. reflexivity.
    + split; [reflexivity|]. split; [|reflexivity].
      do 2 eexists. split; [reflexivity|]. intros seen. reflexivity.
  - simpl. lia.
Defined.

Lemma extend_keeps (seen : list json) (v : json) (all_items : list json) :
  extend seen v = Ok all_items -> exists more, all_items = seen ++ more.
Proof.
  destruct v; simpl; intros H; inversion H; eexists; reflexivity.
Qed.

Lemma read_page_keeps (body : result json) (seen all_items : list json)
    (next : json) :
  read_page body seen = Ok (all_items, next) ->
  exists more, all_items = seen ++ more.
Proof.
  unfold read_page. destruct body as [json_data|e]; [|discriminate].
  cbn [bind]. destruct (get json_data (py "value") (JArr [])) as [v|e];
    [|discriminate].
  cbn [bind]. destruct (extend seen v) as [all'|e] eqn:E; [|discriminate].
  cbn [bind]. destruct (get json_data (py "__next") JNull) as [n|e];
    [|discriminate].
  cbn [bind].
  destruct (get json_data (py "odata.nextLink") n) as [l|e]; [|discriminate].
  cbn [bind]. intros H. inversion H; subst. exact (extend_keeps _ _ _ E).
Qed.

Lemma requests_made_repeat (c : settings) (url : json) (tr : trace) (k : nat) :
  requests_made (tr ++ repeat (get_event c url) k) = (requests_made tr + k)%nat.
Proof.
  revert tr. induction k as [|k IH]; intros tr.
  - simpl. rewrite app_nil_r. lia.
  - change (repeat (get_event c url) (S k))
      with ([get_event c url] ++ repeat (get_event c url) k).
    rewrite app_assoc, IH, requests_made_get. lia.
Qed.

(** A page costs one to three requests, all the same, and a page that is
    received is the body of the answer, with status 200, to the last of
    them. *)
Lemma request_page_visit (w : world) (c : settings) (url : json)
    (tr : trace) :
  exists k, (1 <= k <= 3)%nat
            /\ snd (request_page w c url tr) = tr ++ repeat (get_event c url) k
            /\ forall body,
                 fst (request_page w c url tr) = Ok (Some body) ->
                 exists reason,
                   remote w (requests_made tr + k - 1) url
                   = Response 200 reason body.
Proof.
  unfold request_page.
  assert (Hgen : forall counts tr0,
            counts <> [] ->
            exists k, (1 <= k <= List.length counts)%nat
                      /\ snd (for_count w c url counts tr0)
                         = tr0 ++ repeat (get_event c url) k
                      /\ forall body,
                           fst (for_count w c url counts tr0) = Ok (Some body) ->
                           exists reason,
                             remote w (requests_made tr0 + k - 1) url
                             = Response 200 reason body).
  { induction counts as [|count later IH]; intros tr0 Hne; [congruence|].
    assert (Hnext : exists k, (1 <= k <= List.length (count :: later))%nat
               /\ snd (for_count w c url later (tr0 ++ [get_event c url]))
                  = tr0 ++ repeat (get_event c url) k
               /\ forall body,
                    fst (for_count w c url later (tr0 ++ [get_event c url]))
                    = Ok (Some body) ->
                    exists reason,
                      remote w (requests_made tr0 + k - 1) url
                      = Response 200 reason body).
    { destruct later as [|c2 l2].
      - exists 1%nat. simpl. split; [lia|]. split; [reflexivity|].
        intros body E. discriminate E.
      - destruct (IH (tr0 ++ [get_event c url]) ltac:(discriminate))
          as (k & Hk & E & B).
        exists (S k). split; [simpl in *; lia|].
        split; [rewrite E, <- app_assoc; reflexivity|].
        intros body Eb. destruct (B body Eb) as [reason R].
        exists reason. rewrite requests_made_get in R.
        replace (requests_made tr0 + S k - 1)%nat
          with (S (requests_made tr0) + k - 1)%nat by lia.
        exact R. }
    assert (Hstop : forall o,
              (forall body, o = Ok (Some body) ->
                 exists reason,
                   remote w (requests_made tr0) url = Response 200 reason body) ->
              exists k, (1 <= k <= List.length (count :: later))%nat
               /\ snd (o, tr0 ++ [get_event c url])
                  = tr0 ++ repeat (get_event c url) k
               /\ forall body,
                    fst (o, tr0 ++ [get_event c url]) = Ok (Some body) ->
                    exists reason,
                      remote w (requests_made tr0 + k - 1) url
                      = Response 200 reason body).
    { intros o Ho. exists 1%nat. simpl. split; [lia|]. split; [reflexivity|].
      intros body E. rewrite Nat.add_sub. exact (Ho body E). }
    cbn [for_count http_get].
    destruct (remote w (requests_made tr0) url) as [s r b | x] eqn:R.
    - destruct (s =? 200)%Z eqn:S200.
      + apply Hstop. intros body E. inversion E; subst.
        apply Z.eqb_eq in S200. subst s. exists r. reflexivity.
      + destruct (s =? 401)%Z.
        * destruct (count <? 2)%Z; [exact Hnext|].
          apply Hstop. intros body E. discriminate E.
        * destruct (raise_for_status s r); [exact Hnext|].
          destruct (count <? 2)%Z; [exact Hnext|].
          apply Hstop. intros body E. discriminate E.
    - destruct (is_RequestException x).
      + destruct (count <? 2)%Z; [exact Hnext|].
        apply Hstop. intros body E. discriminate E.
      + apply Hstop. intros body E. discriminate E. }
  destruct (Hgen [0; 1; 2]%Z tr ltac:(discriminate)) as (k & Hk & E & B).
  exists k. split; [simpl in Hk; lia|]. split; [exact E | exact B].
Qed.

Lemma visit_requests_bound (c : settings) (w : world)
    (visits : list (json * nat)) :
  forall n url, visits_from w n url visits ->
                (List.length (visit_requests c visits)
                 <= 3 * List.length visits)%nat.
Proof.
  induction visits as [|[u k] later IH]; intros n url V; [simpl; lia|].
  unfold visit_requests in *. cbn [flat_map fst snd].
  rewrite length_app, repeat_length. cbn [List.length].
  destruct V as (_ & _ & Hk & V).
  destruct later as [|[u' k'] rest].
  - cbn [flat_map List.length]. lia.
  - destruct V as (_ & V). specialize (IH _ _ V).
    cbn [List.length] in IH |- *. lia.
Qed.

(** X4. Whatever the remote API answers, a fetch that ends has only sent
    page requests, all with the same credentials, page after page: one
    to three requests for each page it went through, each page reached
    by a link the loop follows, and a further page only after the last
    request of the page before was answered with status 200 and a body
    holding the link to it; it goes through no more pages than the loop
    has turns, and writes nothing. When it ends well, the items it had
    before are still there, in front of the new ones. *)
Theorem fetch_pages_only_requests (w : world) (c : settings) (fuel : nat) :
  forall (url : json) (seen : list json) (tr : trace)
         (outcome : result (list json)) (tr' : trace),
    fetch_pages w c fuel url seen tr = Some (outcome, tr') ->
    (exists visits,
        tr' = tr ++ visit_requests c visits
        /\ visits_from w (requests_made tr) url visits
        /\ (List.length visits <= fuel)%nat
        /\ (List.length (visit_requests c visits)
            <= 3 * List.length visits)%nat)
    /\ (forall all_items, outcome = Ok all_items ->
                          exists more, all_items = seen ++ more).
Proof.
  induction fuel as [|fuel IH]; intros url seen tr outcome tr' H.
  - simpl in H. destruct (negb (truthy url)); [|discriminate].
    inversion H; subst. split.
    + exists []. rewrite app_nil_r. simpl. repeat split; lia.
    + intros all_items E. inversion E. exists []. rewrite app_nil_r. reflexivity.
  - cbn [fetch_pages] in H. destruct (truthy url) eqn:Hu; cbn [negb] in H.
    2:{ inversion H; subst. split.
      + exists []. rewrite app_nil_r. simpl. repeat split; lia.
      + intros all_items E. inversion E. exists []. rewrite app_nil_r.
        reflexivity. }
    destruct (request_page_visit w c url tr) as (k & Hk & Etr & Hbody).
    assert (Hstop : forall o, Some (o, snd (request_page w c url tr))
                              = Some (outcome, tr') ->
              exists visits,
                  tr' = tr ++ visit_requests c visits
                  /\ visits_from w (requests_made tr) url visits
                  /\ (List.length visits <= S fuel)%nat
                  /\ (List.length (visit_requests c visits)
                      <= 3 * List.length visits)%nat).
    { intros o E. inversion E; subst.
      exists [(url, k)]. unfold visit_requests. cbn [flat_map fst snd].
      rewrite app_nil_r. split; [exact Etr|].
      split; [simpl; repeat split; (exact Hu || lia)|].
      split; [simpl; lia|]. rewrite repeat_length. simpl. lia. }
    destruct (request_page w c url tr) as [[[body|]|e] tr1] eqn:Ep;
      cbn [snd fst] in *.
    + destruct (read_page body seen) as [[all1 next]|e] eqn:Er.
      * destruct (IH _ _ _ _ _ H) as ((visits & E1 & V1 & L1 & B1) & K1).
        destruct (read_page_keeps _ _ _ _ Er) as [more1 Em].
        destruct (Hbody body eq_refl) as [reason R].
        split.
        -- exists ((url, k) :: visits).
           split.
           { rewrite E1, Etr. unfold visit_requests. cbn [flat_map fst snd].
             rewrite app_assoc. reflexivity. }
           split.
           { cbn [visits_from]. split; [reflexivity|]. split; [exact Hu|].
             split; [exact Hk|].
             destruct visits as [|[u' k'] rest]; [exact I|].
             rewrite Etr, requests_made_repeat in V1.
             pose proof V1 as V1'. destruct V1' as (Eu & _). subst u'.
             split; [|exact V1].
             exists reason, body, seen, all1. split; [exact R | exact Er]. }
           split; [simpl; lia|].
           unfold visit_requests in *. cbn [flat_map fst snd].
           rewrite length_app, repeat_length. cbn [List.length]. lia.
        -- intros all_items E. destruct (K1 _ E) as [more ->]. subst all1.
           exists (more1 ++ more). rewrite app_assoc. reflexivity.
      * split; [exact (Hstop _ H)|].
        intros all_items E. inversion H; subst. discriminate.
    + split; [exact (Hstop _ H)|].
      intros all_items E. inversion H; subst. discriminate.
    + split; [exact (Hstop _ H)|].
      intros all_items E. inversion H; subst. discriminate.
Qed.

Lemma fetch_pages_only_requests_witness :
  exists visits,
    [ get_event (settings_of extractor_env) page_url;
      get_event (settings_of extractor_env) page_url;
      get_event (settings_of extractor_env) second_page_url ]
    = [] ++ visit_requests (settings_of extractor_env) visits
    /\ visits_from (world_of [ server_error;
                               linked_page [report 7 "Osaka"] second_page_url;
                               page [report 8 "Kyoto"] ] server_error (Ok tt))
                   (requests_made []) page_url visits
    /\ (List.length visits <= 2)%nat
    /\ (List.length (visit_requests (settings_of extractor_env) visits)
        <= 3 * List.length visits)%nat.
Proof.
  refine (proj1 (fetch_pages_only_requests
                   (world_of [ server_error;
                               linked_page [report 7 "Osaka"] second_page_url;
                               page [report 8 "Kyoto"] ] server_error (Ok tt))
                   (settings_of extractor_env) 2 page_url [] []
                   (Ok [report 7 "Osaka"; report 8 "Kyoto"])
                   [ get_event (settings_of extractor_env) page_url;
                     get_event (settings_of extractor_env) page_url;
                     get_event (settings_of extractor_env) second_page_url ]
                   _)).
  vm_compute. reflexivity.
Defined.

End Pagination.

Section Attempts.

Import Datetime Extractor Samples.


(** X5. After two attempts that are tried again, for whatever mix of
    reasons (a 401, an error status, any other status but 200, an
    exception of the [requests] library), the third answer alone decides
    the page: 200 gives the page, 401 the authentication failure, an
    error status its [HTTPError], an exception that exception; any other
    status leaves the loop without a response, and the fetch ends with
    the failure raised after the loop. Three requests have been sent. *)
Theorem third_answer_decides (w : world) (c : settings) (url : json)
    (tr : trace) :
  retried (remote w (requests_made tr) url) = true ->
  retried (remote w (S (requests_made tr)) url) = true ->
  let third := remote w (S (S (requests_made tr))) url in
  let sent := tr ++ [get_event c url; get_event c url; get_event c url] in
  (forall reason body,
     third = Response 200 reason body ->
     request_page w c url tr = (Ok (Some body), sent))
  /\ (forall reason body,
        third = Response 401 reason body ->
        request_page w c url tr = (Raise auth_failed, sent))
  /\ (forall status_code reason body,
        third = Response status_code reason body ->
        (400 <= status_code < 600)%Z -> status_code <> 401%Z ->
        request_page w c url tr = (Raise (HTTPError status_code reason), sent))
  /\ (forall status_code reason body,
        third = Response status_code reason body ->
        status_code <> 200%Z -> (status_code < 400 \/ 600 <= status_code)%Z ->
        request_page w c url tr = (Ok None, sent)
        /\ forall fuel seen,
             truthy url = true ->
             fetch_pages w c (S fuel) url seen tr
             = Some (Raise fetch_failed, sent))
  /\ (forall e,
        third = Failed e -> request_page w c url tr = (Raise e, sent)).
Proof.
  intros H0 H1 third sent.
  assert (E : request_page w c url tr
              = for_count w c url [2%Z]
                          ((tr ++ [get_event c url]) ++ [get_event c url])).
  { unfold request_page.
    rewrite (for_count_retried _ _ _ _ _ _ H0) by lia.
    rewrite <- requests_made_get with (c := c) (url := url) in H1.
    rewrite (for_count_retried _ _ _ _ _ _ H1) by lia. reflexivity. }
  assert (N : requests_made ((tr ++ [get_event c url]) ++ [get_event c url])
              = S (S (requests_made tr))).
  { rewrite !requests_made_get. reflexivity. }
  assert (T : ((tr ++ [get_event c url]) ++ [get_event c url])
              ++ [get_event c url] = sent).
  { unfold sent. rewrite <- !app_assoc. reflexivity. }
  rewrite E. cbn [for_count http_get]. rewrite N, T. fold third.
  split; [|split; [|split; [|split]]].
  - intros reason body ->. reflexivity.
  - intros reason body ->. reflexivity.
  - intros s reason body -> Hs Hne.
    destruct (Z.eqb_spec s 200); [lia|]. destruct (Z.eqb_spec s 401); [lia|].
    unfold raise_for_status.
    destruct (Z.leb_spec 400 s); [|lia]. destruct (Z.ltb_spec s 600); [|lia].
    reflexivity.
  - intros s reason body Ht Hne Hs.
    assert (P : for_count w c url [2%Z]
                  ((tr ++ [get_event c url]) ++ [get_event c url])
                = (Ok None, sent)).
    { cbn [for_count http_get]. rewrite N, T. fold third. rewrite Ht.
      destruct (Z.eqb_spec s 200); [lia|]. destruct (Z.eqb_spec s 401); [lia|].
      unfold raise_for_status.
      destruct (Z.leb_spec 400 s); destruct (Z.ltb_spec s 600);
        try lia; reflexivity. }
    split.
    + rewrite Ht.
      destruct (Z.eqb_spec s 200); [lia|]. destruct (Z.eqb_spec s 401); [lia|].
      unfold raise_for_status.
      destruct (Z.leb_spec 400 s); destruct (Z.ltb_spec s 600);
        try lia; reflexivity.
    + intros fuel seen Hu. cbn [fetch_pages]. rewrite Hu. cbn [negb].
      rewrite E, P. reflexivity.
  - intros e ->. destruct (is_RequestException e); reflexivity.
Qed.

Lemma third_answer_decides_witness :
  request_page (world_of [unauthorized; server_error; page [report 7 "Osaka"]]
                         server_error (Ok tt))
               (settings_of extractor_env) page_url []
  = (Ok (Some (Ok (JObj [(py "value", JArr [report 7 "Osaka"])]))),
     [ get_event (settings_of extractor_env) page_url;
       get_event (settings_of extractor_env) page_url;
       get_event (settings_of extractor_env) page_url ])
  /\ fetch_pages (world_of [server_error; unauthorized; no_content]
                           (page []) (Ok tt))
                 (settings_of extractor_env) 1 page_url [] []
     = Some (Raise fetch_failed,
             [ get_event (settings_of extractor_env) page_url;
               get_event (settings_of extractor_env) page_url;
               get_event (settings_of extractor_env) page_url ]).
Proof.
  split.
  - exact (proj1 (third_answer_decides
                    (world_of [unauthorized; server_error;
                               page [report 7 "Osaka"]] server_error (Ok tt))
                    (settings_of extractor_env) page_url [] eq_refl eq_refl)
                 (py "OK") _ eq_refl).
  - refine (proj2 (proj1 (proj2 (proj2 (proj2
              (third_answer_decides
                 (world_of [server_error; unauthorized; no_content]
                           (page []) (Ok tt))
                 (settings_of extractor_env) page_url [] eq_refl eq_refl))))
              204%Z (py "No Content") (Raise JSONDecodeError) eq_refl _ _)
              0%nat [] eq_refl); [discriminate | lia].
Defined.

(** X6. A page answered with status 200 is not requested again: when
    its body cannot be read, because it is not JSON, is not an object,
    or holds a value that cannot be iterated, the fetch ends with that
    exception after this one request. So does an exception of
    [requests.get] that is not one of the [requests] library. *)
Theorem unreadable_page_ends_fetch (w : world) (c : settings) (url : json)
    (seen : list json) (tr : trace) (fuel : nat) :
  truthy url = true ->
  (forall reason body e,
     remote w (requests_made tr) url = Response 200 reason body ->
     read_page body seen = Raise e ->
     fetch_pages w c (S fuel) url seen tr
     = Some (Raise e, tr ++ [get_event c url]))
  /\ (forall e, read_page (Raise e) seen = Raise e)
  /\ (forall v, (forall fields, v <> JObj fields) ->
                read_page (Ok v) seen
                = Raise (AttributeError "object has no attribute 'get'"))
  /\ (forall e,
        remote w (requests_made tr) url = Failed e ->
        is_RequestException e = false ->
        fetch_pages w c (S fuel) url seen tr
        = Some (Raise e, tr ++ [get_event c url])).
Proof.
  intros Hu. split; [|split; [|split]].
  - intros reason body e R B. cbn [fetch_pages]. rewrite Hu. cbn [negb].
    unfold request_page. rewrite (for_count_ok _ _ _ _ _ _ _ _ R), B.
    reflexivity.
  - reflexivity.
  - intros v Hv. destruct v; try reflexivity. exfalso. eapply Hv. reflexivity.
  - intros e R He. cbn [fetch_pages]. rewrite Hu. cbn [negb].
    unfold request_page. cbn [for_count http_get]. rewrite R, He. reflexivity.
Qed.

Lemma unreadable_page_ends_fetch_witness :
  fetch_pages (world_of [Response 200 (py "OK") (Raise JSONDecodeError)]
                        (page [report 7 "Osaka"]) (Ok tt))
              (settings_of extractor_env) 1 page_url [] []
  = Some (Raise JSONDecodeError, [get_event (settings_of extractor_env) page_url]).
Proof.
  exact (proj1 (unreadable_page_ends_fetch
                  (world_of [Response 200 (py "OK") (Raise JSONDecodeError)]
                            (page [report 7 "Osaka"]) (Ok tt))
                  (settings_of extractor_env) page_url [] [] 0 eq_refl)
               (py "OK") (Raise JSONDecodeError) JSONDecodeError
               eq_refl eq_refl).
Defined.

End Attempts.

(* ----------------------------------------------------------------- *)
(** ** The end of the extraction *)

Section Batch.

Import Datetime Extractor Samples.


(** X7. With records fetched whose JSON text can be encoded, for a day
    from year 1000 on, and a store that accepts the put, the end of the
    function writes exactly once: all the records, in order, under the
    key made of the prefix, the day as YYYY-MM-DD and
    [_raw_reports.json]; the result has status SUCCESS and carries that
    key. The key comes from the parsed day, not from the text of the
    target date. *)
Theorem store_batch_puts_once (w : world) (c : settings)
    (target_date_str bucket : pystr) (y m d : Z) (items : list json)
    (tr : trace) :
  let key := S3_OUTPUT_PREFIX c ++ iso_date y m d ++ py "_raw_reports.json" in
  items <> [] ->
  valid_date y m d = true -> (1000 <= y)%Z ->
  BUCKET_NAME c = Some bucket -> bucket <> [] ->
  dumps_utf8 w (JArr items) = Ok tt ->
  put_object w bucket key (JArr items) = Ok tt ->
  exists r,
    store_batch w c target_date_str (midnight y m d) items tr
    = (Ok r, tr ++ [S3Put bucket key (JArr items)])
    /\ status r = py "SUCCESS" /\ s3_output_key r = Some key.
Proof.
  intros key Hi V Hy Hb Hne Hdumps Hput.
  pose proof V as V'. apply valid_date_spec in V'.
  destruct V' as [Vy [Vm Vd]]. pose proof (days_in_month_le y m) as Hdm.
  unfold store_batch.
  destruct items as [|i items]; [congruence|]. cbn [truthy negb].
  rewrite strftime_date_iso by lia. fold key.
  rewrite (store_json_to_s3_stored _ _ _ _ _ _ Hb Hne Hdumps Hput).
  eexists. split; [reflexivity|]. split; reflexivity.
Qed.

Lemma store_batch_puts_once_witness :
  exists r,
    store_batch (world_of [] (page []) (Ok tt)) (settings_of extractor_env)
                (py "2024-1-5") (midnight 2024 1 5)
                [report 7 "Osaka"; report 8 "Kyoto"] []
    = (Ok r,
       [] ++ [S3Put (py "reports")
                    (py "raw_sharepoint_reports_daily/2024-01-05_raw_reports.json")
                    (JArr [report 7 "Osaka"; report 8 "Kyoto"])])
    /\ status r = py "SUCCESS"
    /\ s3_output_key r
       = Some (py "raw_sharepoint_reports_daily/2024-01-05_raw_reports.json").
Proof.
  apply (store_batch_puts_once
           (world_of [] (page []) (Ok tt)) (settings_of extractor_env)
           (py "2024-1-5") (py "reports") 2024 1 5
           [report 7 "Osaka"; report 8 "Kyoto"] []);
    try reflexivity; try discriminate; lia.
Defined.

End Batch.

Section Preconditions.

Import Datetime Extractor Samples.


Lemma check_required_envs_ok (env : environ) (names : list string) :
  check_required_envs env names = Ok tt
  <-> forall name, In name names -> unset (env name) = false.
Proof.
  induction names as [|n rest IH]; simpl.
  - split; [intros _ name [] | reflexivity].
  - destruct (unset (env n)) eqn:U.
    + split; [discriminate|]. intros H. specialize (H n (or_introl eq_refl)).
      congruence.
    + rewrite IH. split.
      * intros H name [<-|Hin]; [exact U | exact (H _ Hin)].
      * intros H name Hin. apply H. right. exact Hin.
Qed.

Lemma check_required_envs_first (env : environ) (names : list string)
    (e : exn) :
  check_required_envs env names = Raise e ->
  exists before name after,
    names = before ++ name :: after
    /\ (forall n, In n before -> unset (env n) = false)
    /\ unset (env name) = true
    /\ e = ValueError ("必須環境変数 '" ++ name ++ "' が設定されてないわよ！").
Proof.
  induction names as [|n rest IH]; simpl; [discriminate|].
  destruct (unset (env n)) eqn:U.
  - intros H. inversion H. exists [], n, rest.
    split; [reflexivity|]. split; [intros ? []|]. split; [exact U | reflexivity].
  - intros H. destruct (IH H) as (before & name & after & -> & Hb & Hu & He).
    exists (n :: before), name, after.
    split; [reflexivity|]. split; [|split; assumption].
    intros x [<-|Hin]; [exact U | exact (Hb _ Hin)].
Qed.

(** X8. The check of the required variables passes exactly when each of
    the six is set to a non-empty value. When it fails, the function
    raises [ValueError] naming the first variable of the list that is
    unset, before the target date is looked at and before anything is
    requested or written. *)
Theorem required_variables_checked_first (w : world) (env : environ)
    (fuel : nat) (target_date_str : pystr) :
  (check_required_envs env required_envs = Ok tt
   <-> forall name, In name required_envs -> unset (env name) = false)
  /\ (forall e,
        check_required_envs env required_envs = Raise e ->
        process_sharepoint_data_for_batch w env fuel target_date_str
        = Some (Raise e, [])
        /\ exists before name after,
             required_envs = before ++ name :: after
             /\ (forall n, In n before -> unset (env n) = false)
             /\ unset (env name) = true
             /\ e = ValueError ("必須環境変数 '" ++ name
                                ++ "' が設定されてないわよ！")).
Proof.
  split; [apply check_required_envs_ok|].
  intros e He. split.
  - unfold process_sharepoint_data_for_batch. rewrite He. reflexivity.
  - exact (check_required_envs_first _ _ _ He).
Qed.

Lemma required_variables_checked_first_witness :
  process_sharepoint_data_for_batch
    (world_of [page [report 7 "Osaka"]] (page []) (Ok tt))
    (env_of [ ("DOMAIN_PASSWORD", py "pw"); ("SITE_URL", py "https://sp.example");
              ("DOMAIN", []); ("LOGINPASSWORD", py "pw") ]%string)
    5 (py "not a date")
  = Some (Raise (ValueError "必須環境変数 'DOMAIN' が設定されてないわよ！"), []).
Proof.
  exact (proj1 (proj2 (required_variables_checked_first
                         (world_of [page [report 7 "Osaka"]] (page []) (Ok tt))
                         (env_of [ ("DOMAIN_PASSWORD", py "pw");
                                   ("SITE_URL", py "https://sp.example");
                                   ("DOMAIN", []);
                                   ("LOGINPASSWORD", py "pw") ]%string)
                         5 (py "not a date")) _ eq_refl)).
Defined.

(** X9. A target date the date block rejects never gives the
    [ValueError] about the date format that the handler is written to
    raise: the handler's [print] call raises [TypeError] first, and that
    is what the function raises, with nothing requested or written. *)
Theorem rejected_date_raises_type_error (w : world) (env : environ)
    (fuel : nat) (target_date_str : pystr) (e : exn) :
  day_bounds target_date_str = Raise e ->
  e = TypeError "invalid keyword argument for print()"
  /\ (check_required_envs env required_envs = Ok tt ->
      process_sharepoint_data_for_batch w env fuel target_date_str
      = Some (Raise (TypeError "invalid keyword argument for print()"), [])).
Proof.
  intros H.
  assert (E : e = TypeError "invalid keyword argument for print()").
  { unfold day_bounds in H.
    destruct (strptime target_date_str) as [dt|x]; cbn [bind] in H.
    - destruct (add_seconds dt 86400) as [nd|x]; cbn [bind] in H.
      + destruct (add_seconds nd (-1)) as [ed|x]; cbn [bind] in H;
          [discriminate|]. inversion H. reflexivity.
      + inversion H. reflexivity.
    - inversion H. reflexivity. }
  split; [exact E|]. intros Henv.
  unfold process_sharepoint_data_for_batch. rewrite Henv, H, E. reflexivity.
Qed.

Lemma rejected_date_raises_type_error_witness :
  process_sharepoint_data_for_batch
    (world_of [page [report 7 "Osaka"]] (page []) (Ok tt))
    extractor_env 5 (py "2024/01/15")
  = Some (Raise (TypeError "invalid keyword argument for print()"), [])
  /\ process_sharepoint_data_for_batch
       (world_of [page [report 7 "Osaka"]] (page []) (Ok tt))
       extractor_env 5 (py "2024-" ++ [65296; 65297]%N ++ py "-15")
     = Some (Raise (TypeError "invalid keyword argument for print()"), [])
  /\ process_sharepoint_data_for_batch
       (world_of [page [report 7 "Osaka"]] (page []) (Ok tt))
       extractor_env 5 (py "9999-12-31")
     = Some (Raise (TypeError "invalid keyword argument for print()"), []).
Proof.
  split; [|split].
  - exact (proj2 (rejected_date_raises_type_error
                    (world_of [page [report 7 "Osaka"]] (page []) (Ok tt))
                    extractor_env 5 (py "2024/01/15") _ eq_refl) eq_refl).
  - refine (proj2 (rejected_date_raises_type_error
                     (world_of [page [report 7 "Osaka"]] (page []) (Ok tt))
                     extractor_env 5
                     (py "2024-" ++ [65296; 65297]%N ++ py "-15")
                     (TypeError "invalid keyword argument for print()") _)
                  eq_refl).
    vm_compute. reflexivity.
  - refine (proj2 (rejected_date_raises_type_error
                     (world_of [page [report 7 "Osaka"]] (page []) (Ok tt))
                     extractor_env 5 (py "9999-12-31")
                     (TypeError "invalid keyword argument for print()") _)
                  eq_refl).
    vm_compute. reflexivity.
Defined.

End Preconditions.

Section CheckedStore.

Import Datetime Extractor Samples.


(** X10. In a run that passed the check of the required variables, the
    bucket name is set, so the end of the function, with records,
    stores or raises: when the JSON text of the records cannot be encoded
    the function raises the [TypeError] of the handler's [print] and
    nothing is put; otherwise exactly one put is made, under the key of
    the day, and the result has status SUCCESS and carries the key when
    the store accepts it, while the function raises that same
    [TypeError] when the store refuses it. The exception written for a
    failed save, after [store_json_to_s3] returned [False], is never
    raised. *)
Theorem stored_or_type_error (w : world) (env : environ)
    (target_date_str : pystr) (target_dt_utc : datetime)
    (items : list json) (tr : trace) :
  check_required_envs env required_envs = Ok tt -> items <> [] ->
  let c := settings_of env in
  let key := S3_OUTPUT_PREFIX c ++ strftime_date target_dt_utc
             ++ py "_raw_reports.json" in
  let run := store_batch w c target_date_str target_dt_utc items tr in
  let failure := TypeError "invalid keyword argument for print()" in
  exists bucket,
    env "BUCKET_NAME"%string = Some bucket /\ bucket <> []
    /\ match dumps_utf8 w (JArr items) with
       | Raise _ => run = (Raise failure, tr)
       | Ok _ =>
         snd run = tr ++ [S3Put bucket key (JArr items)]
         /\ match put_object w bucket key (JArr items) with
            | Ok _ =>
              exists r, fst run = Ok r /\ status r = py "SUCCESS"
                        /\ s3_output_key r = Some key
            | Raise _ => fst run = Raise failure
            end
       end.
Proof.
  intros Henv Hi c key run failure.
  assert (Hb : exists b ucket, env "BUCKET_NAME"%string = Some (b :: ucket)).
  { pose proof (proj1 (check_required_envs_ok env required_envs) Henv
                      "BUCKET_NAME"%string) as U.
    assert (I : In "BUCKET_NAME"%string required_envs) by (simpl; tauto).
    specialize (U I).
    destruct (env "BUCKET_NAME"%string) as [[|b ucket]|];
      [discriminate U | do 2 eexists; reflexivity | discriminate U]. }
  destruct Hb as (b & ucket & Hb).
  exists (b :: ucket). split; [exact Hb|]. split; [discriminate|].
  unfold run, store_batch. destruct items as [|i items]; [congruence|].
  cbn [truthy negb]. fold key. unfold store_json_to_s3.
  replace (BUCKET_NAME c) with (Some (b :: ucket))
    by (unfold c, settings_of; cbn [BUCKET_NAME]; symmetry; exact Hb).
  destruct (dumps_utf8 w (JArr (i :: items))) as [[]|e']; [|reflexivity].
  destruct (put_object w (b :: ucket) key (JArr (i :: items))) as [[]|e].
  - split; [reflexivity|]. eexists. split; [reflexivity|].
    split; reflexivity.
  - split; reflexivity.
Qed.

Lemma stored_or_type_error_witness :
  fst (store_batch (world_of [] (page []) (Raise (ClientError "AccessDenied")))
                   (settings_of extractor_env) (py "2024-01-15") jan15
                   [report 7 "Osaka"] [])
  = Raise (TypeError "invalid keyword argument for print()")
  /\ store_batch (world_of [] (page []) (Ok tt))
                 (settings_of extractor_env) (py "2024-01-15") jan15
                 [JStr [55296%N]] []
     = (Raise (TypeError "invalid keyword argument for print()"), []).
Proof.
  split.
  - destruct (stored_or_type_error
                (world_of [] (page []) (Raise (ClientError "AccessDenied")))
                extractor_env (py "2024-01-15") jan15 [report 7 "Osaka"] []
                eq_refl ltac:(discriminate))
      as (bucket & Hb & _ & H).
    inversion Hb; subst bucket. exact (proj2 H).
  - destruct (stored_or_type_error
                (world_of [] (page []) (Ok tt))
                extractor_env (py "2024-01-15") jan15 [JStr [55296%N]] []
                eq_refl ltac:(discriminate))
      as (bucket & _ & _ & H).
    exact H.
Defined.

End CheckedStore.

Section WindowText.

Import Datetime Extractor Samples.


Local Open Scope Z_scope.

(** X11. For every day of the calendar from year 1000 on but the last
    one, given as YYYY-MM-DD, the date block succeeds and the filter of
    the query reads: approval date [ge] the day at T00:00:00Z and [le]
    the same day at T23:59:59Z. Both bounds carry the target day; the
    window never reaches into the next day. *)
Theorem query_window_text (y m d : Z) :
  valid_date y m d = true -> 1000 <= y -> (y, m, d) <> (9999, 12, 31) ->
  exists start end_,
    day_bounds (iso_date y m d) = Ok (start, end_)
    /\ filter_text (strftime_iso start) (strftime_iso end_)
       = py "mrtApprovedDate ge datetime'" ++ iso_date y m d
         ++ py "T00:00:00Z' and mrtApprovedDate le datetime'"
         ++ iso_date y m d ++ py "T23:59:59Z'".
Proof.
  intros V Hy Hlast.
  pose proof V as V'. apply valid_date_spec in V'.
  destruct V' as [Vy [Vm Vd]]. pose proof (days_in_month_le y m) as Hdm.
  exists (midnight y m d), (last_second (midnight y m d)).
  split; [exact (day_bounds_accepts y m d V Hlast)|].
  unfold filter_text, strftime_iso.
  replace (strftime_date (last_second (midnight y m d)))
    with (strftime_date (midnight y m d)) by reflexivity.
  rewrite strftime_date_iso by lia.
  cbn [last_second midnight hour minute second].
  change (pad2 0) with (py "00"). change (pad2 23) with (py "23").
  change (pad2 59) with (py "59").
  rewrite <- !app_assoc. reflexivity.
Qed.

Lemma query_window_text_witness :
  exists start end_,
    day_bounds (iso_date 2024 2 29) = Ok (start, end_)
    /\ filter_text (strftime_iso start) (strftime_iso end_)
       = py "mrtApprovedDate ge datetime'" ++ iso_date 2024 2 29
         ++ py "T00:00:00Z' and mrtApprovedDate le datetime'"
         ++ iso_date 2024 2 29 ++ py "T23:59:59Z'".
Proof.
  apply (query_window_text 2024 2 29); [reflexivity | lia | discriminate].
Defined.

End WindowText.

(* ----------------------------------------------------------------- *)
(** ** The inference helpers *)

Section Inference.

Import Indexer Samples.


Lemma truncate_firstn (n : Z) (text : pystr) :
  truncate n text = firstn (Z.to_nat n) text.
Proof.
  unfold truncate. destruct (Z.ltb_spec n (Z.of_nat (List.length text)));
    [reflexivity|].
  symmetry. apply firstn_all2. lia.
Qed.

(** X12. The summary helper reads the first 5000 characters of its text
    and the embedding helper the first 8000: each behaves on a text as
    on that prefix of it, so what follows the prefix changes neither the
    request sent to the model nor the result. *)
Theorem helpers_read_a_bounded_prefix (w : world) (c : settings)
    (text : pystr) :
  summarize_text_with_bedrock w c text
  = summarize_text_with_bedrock w c (firstn (Z.to_nat 5000) text)
  /\ get_embedding_from_bedrock w c text
     = get_embedding_from_bedrock w c (firstn (Z.to_nat 8000) text)
  /\ (forall more,
        (Z.to_nat 5000 <= List.length text)%nat ->
        summarize_text_with_bedrock w c (text ++ more)
        = summarize_text_with_bedrock w c text)
  /\ (forall more,
        (Z.to_nat 8000 <= List.length text)%nat ->
        get_embedding_from_bedrock w c (text ++ more)
        = get_embedding_from_bedrock w c text).
Proof.
  assert (F : forall n (s : pystr), firstn n (firstn n s) = firstn n s).
  { intros n s. rewrite firstn_firstn, Nat.min_id. reflexivity. }
  assert (G : forall n (s more : pystr),
            (n <= List.length s)%nat -> firstn n (s ++ more) = firstn n s).
  { intros n s more H. rewrite firstn_app.
    replace (n - List.length s)%nat with 0%nat by lia.
    rewrite firstn_O, app_nil_r. reflexivity. }
  unfold summarize_text_with_bedrock, get_embedding_from_bedrock.
  rewrite !truncate_firstn.
  split; [rewrite F; reflexivity|]. split; [rewrite F; reflexivity|].
  split; intros more H; rewrite !truncate_firstn, (G _ _ _ H); reflexivity.
Qed.

Lemma helpers_read_a_bounded_prefix_witness :
  summarize_text_with_bedrock two_record_world (settings_of indexer_env)
    (repeat 97%N (Z.to_nat 5000) ++ py " and the rest")
  = summarize_text_with_bedrock two_record_world (settings_of indexer_env)
      (repeat 97%N (Z.to_nat 5000)).
Proof.
  apply (proj1 (proj2 (proj2 (helpers_read_a_bounded_prefix
                                two_record_world (settings_of indexer_env)
                                (repeat 97%N (Z.to_nat 5000)))))).
  rewrite repeat_length. apply le_n.
Defined.

Lemma invoke_counts (w : world) (model_id input : pystr) (st : state) :
  invocations (snd (invoke w model_id input st)) = S (invocations st)
  /\ attempts (snd (invoke w model_id input st)) = attempts st
  /\ upserts (snd (invoke w model_id input st)) = upserts st.
Proof.
  unfold invoke. destruct (invoke_model w (invocations st) model_id input);
    repeat split.
Qed.

(** X13. In a run that passed the check of the required variables, both
    model identifiers are set, so each helper makes exactly one
    invocation, and neither returns [None] for a failure: when the
    invocation raises, or the body is not an object, or (for the
    summary) the completion is not a string, the handler's [print] call
    raises [TypeError], which is what the helper raises. The summary
    helper otherwise returns the completion stripped, and the embedding
    helper the value under [embedding], [None] when there is none. *)
Theorem helper_failure_is_type_error (w : world) (env : environ)
    (text : pystr) (st : state) :
  check_required_envs env required_envs = Ok tt ->
  let c := settings_of env in
  let failure := TypeError "invalid keyword argument for print()" in
  (exists r st',
      summarize_text_with_bedrock w c text st = (r, st')
      /\ invocations st' = S (invocations st)
      /\ match invoke_model w (invocations st) (BEDROCK_SUMMARY_MODEL_ID c)
                 ([10; 10]%N ++ py "Human: 以下の出張報告を簡潔に、かつ重要な情報を失わずに要約してください。"
                  ++ [10; 10]%N ++ py "<report>" ++ [10%N]
                  ++ truncate 5000 text ++ [10%N]
                  ++ py "</report>" ++ [10; 10]%N ++ py "Assistant:") with
         | Ok (JObj fields) =>
           match lookup (py "completion") fields with
           | Some (JStr s) => r = Go (Some (strip s))
           | _ => r = Throw failure
           end
         | _ => r = Throw failure
         end)
  /\ (exists r st',
         get_embedding_from_bedrock w c text st = (r, st')
         /\ invocations st' = S (invocations st)
         /\ match invoke_model w (invocations st)
                    (BEDROCK_EMBEDDING_MODEL_ID c) (truncate 8000 text) with
            | Ok (JObj fields) =>
              match lookup (py "embedding") fields with
              | Some v => r = Go v
              | None => r = Go JNull
              end
            | _ => r = Throw failure
            end).
Proof.
  intros Henv c failure.
  assert (Hs : truthy (JStr (BEDROCK_SUMMARY_MODEL_ID c)) = true
               /\ truthy (JStr (BEDROCK_EMBEDDING_MODEL_ID c)) = true).
  { unfold c, settings_of, environ_get. cbn [BEDROCK_SUMMARY_MODEL_ID
      BEDROCK_EMBEDDING_MODEL_ID].
    unfold required_envs in Henv. cbn [check_required_envs] in Henv.
    repeat match type of Henv with
           | (if unset ?x then _ else _) = _ =>
             let U := fresh "U" in destruct (unset x) eqn:U; [discriminate|]
           end.
    split.
    - destruct (env "BEDROCK_SUMMARY_MODEL_ID"%string) as [[|a s]|];
        try discriminate. reflexivity.
    - destruct (env "BEDROCK_EMBEDDING_MODEL_ID"%string) as [[|a s]|];
        try discriminate. reflexivity. }
  destruct Hs as [Hsum Hemb]. split.
  - unfold summarize_text_with_bedrock. rewrite Hsum. cbn [negb].
    unfold or_none, and_then, invoke.
    destruct (invoke_model w (invocations st) _ _) as [[| | | | | |fields]|e];
      try (do 2 eexists; split; [reflexivity|]; split; reflexivity).
    cbn [lift get].
    destruct (lookup (py "completion") fields) as [[| | | |s| |]|];
      do 2 eexists; (split; [reflexivity|]); split; reflexivity.
  - unfold get_embedding_from_bedrock. rewrite Hemb. cbn [negb].
    unfold or_none, and_then, invoke, ret.
    destruct (invoke_model w (invocations st) _ _) as [[| | | | | |fields]|e];
      try (do 2 eexists; split; [reflexivity|]; split; reflexivity).
    cbn [lift get].
    destruct (lookup (py "embedding") fields);
      do 2 eexists; (split; [reflexivity|]); split; reflexivity.
Qed.

Lemma helper_failure_is_type_error_witness :
  fst (get_embedding_from_bedrock two_record_world (settings_of indexer_env)
         (py "Line stop at the Osaka plant.")
         {| invocations := 1; attempts := []; upserts := [] |})
  = Throw (TypeError "invalid keyword argument for print()")
  /\ fst (summarize_text_with_bedrock two_record_world
            (settings_of indexer_env) (py "Line stop at the Osaka plant.")
            initial)
     = Go (Some (py "A short summary.")).
Proof.
  split.
  - destruct (helper_failure_is_type_error two_record_world indexer_env
                (py "Line stop at the Osaka plant.")
                {| invocations := 1; attempts := []; upserts := [] |} eq_refl)
      as [_ (r & st' & E & _ & Hr)].
    rewrite E. vm_compute in Hr. exact Hr.
  - destruct (helper_failure_is_type_error two_record_world indexer_env
                (py "Line stop at the Osaka plant.") initial eq_refl)
      as [(r & st' & E & _ & Hr) _].
    rewrite E. vm_compute in Hr. rewrite Hr. vm_compute. reflexivity.
Defined.

End Inference.

Section Budget.

Import Indexer Samples.


Lemma costs_ret {A} (a : A) : costs (ret a) 0.
Proof. intros st r st' H. inversion H; subst. lia. Qed.

Lemma costs_continue {A} : costs (@continue A) 0.
Proof. intros st r st' H. inversion H; subst. lia. Qed.

Lemma costs_lift {A} (x : result A) : costs (lift x) 0.
Proof.
  intros st r st' H. unfold lift in H. destruct x; inversion H; subst; lia.
Qed.

Lemma costs_more {A} (m : M A) (k k' : nat) :
  costs m k -> (k <= k')%nat -> costs m k'.
Proof. intros H L st r st' E. specialize (H _ _ _ E). lia. Qed.

Lemma costs_and_then {A B} (m : M A) (f : A -> M B) (k1 k2 : nat) :
  costs m k1 -> (forall a, costs (f a) k2) -> costs (and_then m f) (k1 + k2).
Proof.
  intros Hm Hf st r st' H. unfold and_then in H.
  destruct (m st) as [[a| |e] st1] eqn:E; specialize (Hm _ _ _ E).
  - specialize (Hf a _ _ _ H). lia.
  - inversion H; subst. lia.
  - inversion H; subst. lia.
Qed.

Lemma costs_invoke (w : world) (model_id input : pystr) :
  costs (invoke w model_id input) 1.
Proof.
  intros st r st' H. unfold invoke in H.
  destruct (invoke_model w (invocations st) model_id input);
    inversion H; subst; simpl; lia.
Qed.

Lemma costs_or_none {A} (m : M A) (k : nat) : costs m k -> costs (or_none m) k.
Proof.
  intros Hm st r st' H. unfold or_none in H.
  destruct (m st) as [[a| |e] st1] eqn:E; specialize (Hm _ _ _ E).
  - inversion H; subst. exact Hm.
  - inversion H; subst. exact Hm.
  - destruct (print ["exc_info"%string]); inversion H; subst; exact Hm.
Qed.

Lemma costs_summarize (w : world) (c : settings) (text : pystr) :
  costs (summarize_text_with_bedrock w c text) 1.
Proof.
  unfold summarize_text_with_bedrock.
  destruct (negb (truthy (JStr (BEDROCK_SUMMARY_MODEL_ID c))));
    [apply (costs_more _ 0); [apply costs_ret | lia]|].
  apply costs_or_none.
  apply (costs_and_then _ _ 1 0); [apply costs_invoke|].
  intros body. apply (costs_and_then _ _ 0 0); [apply costs_lift|].
  intros completion. apply costs_lift.
Qed.

Lemma costs_embedding (w : world) (c : settings) (text : pystr) :
  costs (get_embedding_from_bedrock w c text) 1.
Proof.
  unfold get_embedding_from_bedrock.
  destruct (negb (truthy (JStr (BEDROCK_EMBEDDING_MODEL_ID c))));
    [apply (costs_more _ 0); [apply costs_ret | lia]|].
  apply (costs_and_then _ _ 1 0); [|intros r; apply costs_ret].
  apply costs_or_none.
  apply (costs_and_then _ _ 1 0); [apply costs_invoke|].
  intros body. apply costs_lift.
Qed.

Ltac costs_step :=
  match goal with
  | |- costs (and_then (lift _) _) ?k =>
    apply (costs_and_then _ _ 0 k); [apply costs_lift | intros ?]
  | |- costs (and_then (summarize_text_with_bedrock _ _ _) _) (S ?k) =>
    apply (costs_and_then _ _ 1 k); [apply costs_summarize | intros ?]
  | |- costs (and_then (get_embedding_from_bedrock _ _ _) _) (S ?k) =>
    apply (costs_and_then _ _ 1 k); [apply costs_embedding | intros ?]
  | |- costs continue ?k =>
    apply (costs_more _ 0); [apply costs_continue | lia]
  | |- costs (ret _) ?k =>
    apply (costs_more _ 0); [apply costs_ret | lia]
  | |- costs (match ?x with _ => _ end) _ => destruct x
  end.

Lemma costs_enrich (w : world) (c : settings) (env : environ) (item : json) :
  costs (enrich w c env item) 3.
Proof. unfold enrich. repeat costs_step. Qed.

Lemma costs_index_call (names : list string) (w : world) (c : settings)
    (doc : es_doc) :
  costs (index_call names w c doc) 0.
Proof.
  intros st r st' H. unfold index_call, index_data_to_elasticsearch in H.
  destruct (resolve names "index_data_to_elasticsearch");
    [destruct (es_accepts w _ doc)|]; inversion H; subst; simpl; lia.
Qed.

Lemma process_record_budget (names : list string) (w : world) (c : settings)
    (env : environ) (item : json) (st : state) :
  (invocations st
   <= invocations (snd (process_record names w c env item st))
   <= invocations st + 3)%nat.
Proof.
  unfold process_record.
  pose proof (costs_and_then _ _ 3 0 (costs_enrich w c env item)
                (fun doc => costs_index_call names w c doc)) as H.
  destruct (and_then (enrich w c env item) _ st) as [[b| |e] st'] eqn:E;
    specialize (H _ _ _ E); simpl; lia.
Qed.

(** X14. A record costs at most three model invocations, one for the
    summary and two for the embeddings, so the records of a file cost at
    most three times their number, whatever the model answers and
    whether or not a record is indexed. *)
Theorem inference_budget (names : list string) (w : world) (c : settings)
    (env : environ) (items : list json) (n : Z) (st : state) :
  (invocations st
   <= invocations (snd (process_records names w c env items n st))
   <= invocations st + 3 * List.length items)%nat.
Proof.
  revert n st. induction items as [|item rest IH]; intros n st.
  - simpl. lia.
  - cbn [process_records].
    pose proof (process_record_budget names w c env item st) as H.
    destruct (process_record names w c env item st) as [written st1].
    cbn [snd] in H.
    specialize (IH (if written then (n + 1)%Z else n) st1).
    cbn [List.length]. lia.
Qed.

End Budget.

(* ----------------------------------------------------------------- *)
(** ** Files and the outcome of the indexing run *)

Section Files.

Import Indexer Samples.


Lemma process_file_counts (names : list string) (w : world) (c : settings)
    (env : environ) (key : pystr) (t : totals) (st : state) :
  total_files_processed (fst (process_file names w c env key t st))
  = (total_files_processed t + if holds_reports w key then 1 else 0)%Z
  /\ (holds_reports w key = false ->
      process_file names w c env key t st = (t, st)).
Proof.
  unfold process_file, holds_reports.
  destruct (read_json w key) as [[| | | | |[|i items]|]|];
    try (split; [simpl; lia | reflexivity]).
  destruct (process_records names w c env (i :: items) 0%Z st) as [n st'].
  split; [reflexivity | discriminate].
Qed.

(** X15. The count of processed files goes up by one exactly for the
    keys whose object reads as a JSON list that is not empty, whether or
    not any of its records is indexed. A key whose object cannot be
    read, is not JSON, is not a list or is an empty list changes
    nothing: neither the counts, nor the index, nor the number of model
    invocations. *)
Theorem files_processed_counts_report_lists (names : list string) (w : world)
    (c : settings) (env : environ) (keys : list pystr) (t : totals)
    (st : state) :
  total_files_processed (fst (process_files names w c env keys t st))
  = (total_files_processed t
     + Z.of_nat (List.length (filter (holds_reports w) keys)))%Z
  /\ (forallb (fun key => negb (holds_reports w key)) keys = true ->
      process_files names w c env keys t st = (t, st)).
Proof.
  revert t st. induction keys as [|key rest IH]; intros t st.
  - split; [simpl; lia | reflexivity].
  - cbn [process_files filter forallb].
    destruct (process_file_counts names w c env key t st) as [H1 H2].
    destruct (process_file names w c env key t st) as [t1 st1].
    cbn [fst] in H1. destruct (IH t1 st1) as [IH1 IH2]. split.
    + rewrite IH1, H1. destruct (holds_reports w key); cbn [List.length]; lia.
    + intros H. apply andb_true_iff in H. destruct H as [Hk Hr].
      apply negb_true_iff in Hk. specialize (H2 Hk). inversion H2; subst.
      apply IH2, Hr.
Qed.

End Files.

Section Outcome.

Import Indexer Samples.


Lemma str_eqb_refl (s : pystr) : str_eqb s s = true.
Proof. induction s as [|c s IH]; simpl; [reflexivity|]. rewrite N.eqb_refl. exact IH. Qed.

(** X16. The indexing run ends with exit status 0 exactly when the seven
    required variables are set, the listing of the bucket succeeds, and
    either no JSON key is listed or the search cluster answers the ping.
    Nothing that happens to a file or a record changes the exit status.
    A run that fails has invoked no model and handed nothing to the
    index, and with no JSON key listed the cluster is not contacted. *)
Theorem run_fails_only_before_the_files (names : list string) (w : world)
    (env : environ) :
  let c := settings_of env in
  (exit_status (fst (process_s3_data_and_index_es names w env)) = 0%Z
   <-> check_required_envs env required_envs = Ok tt
       /\ exists keys,
            list_json_files_from_s3 w c = Ok keys
            /\ (keys = [] \/ es_ping w = true))
  /\ (exit_status (fst (process_s3_data_and_index_es names w env)) = 0%Z
      \/ exit_status (fst (process_s3_data_and_index_es names w env)) = 1%Z)
  /\ (exit_status (fst (process_s3_data_and_index_es names w env)) = 1%Z ->
      snd (process_s3_data_and_index_es names w env) = initial)
  /\ (list_json_files_from_s3 w c = Ok [] ->
      snd (process_s3_data_and_index_es names w env) = initial).
Proof.
  intros c. unfold process_s3_data_and_index_es. fold c.
  destruct (check_required_envs env required_envs) as [[]|e] eqn:Henv.
  2:{ cbn [fst snd exit_status]. split; [|split; [right; reflexivity|split; reflexivity]].
      split; [discriminate | intros [H _]; discriminate]. }
  assert (Hhost : unset (ELASTICSEARCH_HOST c) = false).
  { unfold c, settings_of. cbn [ELASTICSEARCH_HOST].
    unfold required_envs in Henv. cbn [check_required_envs] in Henv.
    destruct (unset (env "ELASTICSEARCH_HOST"%string)); [discriminate|].
    reflexivity. }
  destruct (list_json_files_from_s3 w c) as [[|k keys]|e] eqn:Hl.
  - cbn [fst snd exit_status status]. rewrite str_eqb_refl.
    split; [|split; [left; reflexivity|split; reflexivity]].
    split; [|reflexivity]. intros _. split; [reflexivity|].
    exists []. split; [reflexivity | left; reflexivity].
  - unfold get_elasticsearch_client. rewrite Hhost.
    destruct (es_ping w) eqn:Hp.
    + destruct (process_files names w c env (k :: keys) _ initial) as [t st].
      cbn [fst snd exit_status status]. rewrite str_eqb_refl.
      split; [|split; [left; reflexivity|split; discriminate]].
      split; [|reflexivity]. intros _. split; [reflexivity|].
      exists (k :: keys). split; [reflexivity | right; reflexivity].
    + cbn [fst snd exit_status].
      split; [|split; [right; reflexivity|split; reflexivity]].
      split; [discriminate|].
      intros [_ (keys' & E & [-> | H])]; discriminate.
  - cbn [fst snd exit_status].
    split; [|split; [right; reflexivity|split; reflexivity]].
    split; [discriminate|]. intros [_ (keys' & E & _)]. discriminate.
Qed.

End Outcome.

Section Listing.

Import Indexer Samples.


Lemma endswith_json_spec (key : pystr) :
  endswith_json key = true <-> exists stem, key = stem ++ py ".json".
Proof.
  unfold endswith_json. split.
  - intros H. apply startswith_split in H. destruct H as [b H].
    exists (rev b). apply (f_equal (@rev N)) in H.
    rewrite rev_involutive, rev_app_distr, rev_involutive in H. exact H.
  - intros [stem ->]. rewrite rev_app_distr. apply startswith_app.
Qed.

(** X17. The keys the lister returns are the listed keys that end with
    [.json], in the order of the listing across its pages: a key is
    returned exactly when it is listed and ends with these five
    characters, in lower case. The lister returns only when the bucket
    name is set. *)
Theorem listed_keys_end_with_json (w : world) (c : settings)
    (keys : list pystr) :
  list_json_files_from_s3 w c = Ok keys ->
  exists files,
    listed_files (bucket_listing w) = Ok files
    /\ keys = filter endswith_json files
    /\ (forall key,
          In key keys
          <-> In key files /\ exists stem, key = stem ++ py ".json")
    /\ unset (S3_BUCKET_NAME c) = false.
Proof.
  unfold list_json_files_from_s3.
  destruct (unset (S3_BUCKET_NAME c)); [discriminate|].
  destruct (listed_files (bucket_listing w)) as [files|e]; [|discriminate].
  cbn [bind]. intros H. inversion H; subst. exists files.
  split; [reflexivity|]. split; [reflexivity|]. split; [|reflexivity].
  intros key. rewrite filter_In, endswith_json_spec. reflexivity.
Qed.

Lemma listed_keys_end_with_json_witness :
  exists files,
    listed_files (bucket_listing paged_listing_world) = Ok files
    /\ [py "raw/a.json"; py "raw/c.json"] = filter endswith_json files
    /\ (forall key,
          In key [py "raw/a.json"; py "raw/c.json"]
          <-> In key files /\ exists stem, key = stem ++ py ".json")
    /\ unset (S3_BUCKET_NAME (settings_of indexer_env)) = false.
Proof.
  apply (listed_keys_end_with_json paged_listing_world
           (settings_of indexer_env) [py "raw/a.json"; py "raw/c.json"]).
  vm_compute. reflexivity.
Defined.

End Listing.

(* ----------------------------------------------------------------- *)
(** ** Extracted text and its sections *)

Section ExtractedText.

Import Indexer Samples.


(** X18. Whatever the HTML parser returns, the text extracted from it is
    on one line, holds no zero-width space, ideographic space or
    no-break space, has no white space at either end, and is the
    normalisation of the parser's text; normalising it again changes
    nothing. *)
Theorem extracted_text_is_normalised (soup_text : json -> result pystr)
    (html : json) (y : pystr) :
  extract_text_from_html soup_text html = Ok y ->
  Forall settled y /\ strip y = y /\ normalize_text y = y
  /\ exists text, soup_text html = Ok text /\ y = normalize_text text.
Proof.
  unfold extract_text_from_html.
  destruct (soup_text html) as [text|e]; [|discriminate].
  cbn [bind]. intros H. inversion H; subst y.
  pose proof (normalize_text_flat text) as F.
  split; [|split; [|split]].
  - destruct F as [-> | (_ & _ & F)]; [constructor | exact F].
  - destruct F as [-> | (H1 & H2 & _)]; [reflexivity | apply strip_fixed; assumption].
  - apply normalize_text_idempotent.
  - exists text. split; reflexivity.
Qed.

Lemma extracted_text_is_normalised_witness :
  strip (py "Visit   report Osaka plant") = py "Visit   report Osaka plant"
  /\ normalize_text (py "Visit   report Osaka plant")
     = py "Visit   report Osaka plant".
Proof.
  assert (H : extract_text_from_html soup_of_plain_text
                (JStr (py "  Visit   report " ++ [10; 12288; 10]%N
                       ++ py " Osaka plant"))
              = Ok (py "Visit   report Osaka plant"))
    by (vm_compute; reflexivity).
  destruct (extracted_text_is_normalised _ _ _ H) as (_ & S & E & _).
  split; assumption.
Defined.

Lemma lstrip_lstrip (s : pystr) : lstrip (lstrip s) = lstrip s.
Proof.
  destruct (lstrip_result s) as [-> | E]; [reflexivity | apply lstrip_edged, E].
Qed.

Lemma strip_lstrip (s : pystr) : strip (lstrip s) = strip s.
Proof. unfold strip. rewrite lstrip_lstrip. reflexivity. Qed.

Lemma search_rest_eq (label s : pystr) :
  search_rest label s
  = if startswith label s
    then Some (lstrip (skipn (List.length label) s))
    else match s with [] => None | _ :: t => search_rest label t end.
Proof. destruct s; reflexivity. Qed.

Lemma search_until_eq (label next s : pystr) :
  search_until label next s
  = match (if startswith label s
           then spaces_then_group next (skipn (List.length label) s)
           else None) with
    | Some g => Some g
    | None => match s with [] => None | _ :: t => search_until label next t end
    end.
Proof. destruct s; reflexivity. Qed.

(** The search for the third label stops at its first occurrence. *)
Lemma search_rest_first (label a b : pystr) :
  (forall a' b', a ++ label ++ b = a' ++ label ++ b' ->
                 (List.length a <= List.length a')%nat) ->
  search_rest label (a ++ label ++ b) = Some (lstrip b).
Proof.
  induction a as [|c a IH]; intros Hfirst.
  - rewrite search_rest_eq. cbn [app]. rewrite startswith_app, skipn_label.
    reflexivity.
  - rewrite search_rest_eq.
    destruct (startswith label ((c :: a) ++ label ++ b)) eqn:E.
    + apply startswith_split in E. destruct E as [b' E].
      specialize (Hfirst [] b' E). simpl in Hfirst. lia.
    + cbn [app]. apply IH. intros a' b' E'.
      specialize (Hfirst (c :: a') b'). cbn [app] in Hfirst.
      rewrite E' in Hfirst. specialize (Hfirst eq_refl). simpl in Hfirst. lia.
Qed.

(** X19. The third entry of [extract_sections] is everything after the
    first occurrence of its label, up to the end of the input, stripped:
    later labels, of any section, are part of it. Without the label the
    entry is the sentinel. *)
Theorem comment_runs_to_the_end (s : pystr) :
  (forall a b,
     s = a ++ label_comment ++ b ->
     (forall a' b', s = a' ++ label_comment ++ b' ->
                    (List.length a <= List.length a')%nat) ->
     nth_error (extract_sections s) 2 = Some (key_comment, strip b))
  /\ (~ occurs label_comment s ->
      nth_error (extract_sections s) 2 = Some (key_comment, NA)).
Proof.
  split.
  - intros a b -> Hfirst. unfold extract_sections. cbn [nth_error].
    rewrite (search_rest_first _ _ _ Hfirst). cbn [section_value].
    rewrite strip_lstrip. reflexivity.
  - intros H. unfold extract_sections. cbn [nth_error].
    rewrite (search_rest_absent _ _ H). reflexivity.
Qed.

Lemma comment_runs_to_the_end_witness :
  nth_error (extract_sections ([] ++ label_comment ++ py " good 所感：again "))
            2
  = Some (key_comment, strip (py " good 所感：again ")).
Proof.
  apply (proj1 (comment_runs_to_the_end
                  ([] ++ label_comment ++ py " good 所感：again "))
               [] (py " good 所感：again ") eq_refl).
  intros a' b' _. apply Nat.le_0_l.
Defined.

End ExtractedText.

Section Splitter.

Import Indexer Samples.


Lemma boundary_then_separator (next sep b : pystr) :
  separator sep -> boundary_then next (sep ++ next ++ b) = true.
Proof.
  intros [-> | ->]; unfold boundary_then.
  - rewrite app_assoc, startswith_app. reflexivity.
  - change ([10%N] ++ next ++ b) with ((10%N :: next) ++ b).
    rewrite startswith_app. apply orb_true_iff. left. apply orb_true_r.
Qed.

Lemma boundary_then_split (next s : pystr) (n0 : N) (n' : pystr) :
  next = n0 :: n' -> n0 <> 10%N ->
  boundary_then next s = true ->
  exists sep b, separator sep /\ s = sep ++ next ++ b.
Proof.
  intros Hn Hn0 H. unfold boundary_then in H.
  apply orb_true_iff in H. destruct H as [H | H].
  - apply orb_true_iff in H. destruct H as [H | H].
    + apply startswith_split in H. destruct H as [b ->].
      exists line_break_tag, b. split; [left; reflexivity|].
      rewrite <- app_assoc. reflexivity.
    + apply startswith_split in H. destruct H as [b ->].
      exists [10%N], b. split; [right; reflexivity | reflexivity].
  - apply andb_true_iff in H. destruct H as [D H]. subst next.
    destruct s as [|c [|c' t]]; simpl in D, H; try discriminate.
    apply N.eqb_eq in D. subst c.
    apply andb_true_iff in H. destruct H as [H _]. apply N.eqb_eq in H.
    congruence.
Qed.

Lemma lazy_group_split (next s acc g : pystr) :
  lazy_group next acc s = Some g ->
  exists x t, g = rev acc ++ x /\ s = x ++ t /\ boundary_then next t = true.
Proof.
  revert acc. induction s as [|c t IH]; intros acc; cbn [lazy_group].
  - destruct (boundary_then next []) eqn:E; [|discriminate].
    intros H. inversion H. exists [], []. rewrite app_nil_r. repeat split. exact E.
  - destruct (boundary_then next (c :: t)) eqn:E.
    + intros H. inversion H. exists [], (c :: t). rewrite app_nil_r.
      repeat split. exact E.
    + intros H. destruct (IH _ H) as (x & t' & Hg & Hs & Hb).
      exists (c :: x), t'. split; [|split; [rewrite Hs; reflexivity | exact Hb]].
      rewrite Hg. cbn [rev]. rewrite <- app_assoc. reflexivity.
Qed.

Lemma spaces_then_group_split (next s g : pystr) :
  spaces_then_group next s = Some g ->
  exists w t, s = w ++ g ++ t /\ boundary_then next t = true.
Proof.
  revert g. induction s as [|c t IH]; intros g; cbn [spaces_then_group].
  - intros H. destruct (lazy_group_split _ _ _ _ H) as (x & t' & -> & Hs & Hb).
    exists [], t'. split; [exact Hs | exact Hb].
  - assert (Hlazy : lazy_group next [] (c :: t) = Some g ->
                    exists w t', c :: t = w ++ g ++ t'
                                 /\ boundary_then next t' = true).
    { intros H. destruct (lazy_group_split _ _ _ _ H) as (x & t' & -> & Hs & Hb).
      exists [], t'. split; [exact Hs | exact Hb]. }
    destruct (isspace c); [|exact Hlazy].
    destruct (spaces_then_group next t) as [g'|] eqn:E; [|exact Hlazy].
    intros H. inversion H; subst g'.
    destruct (IH _ eq_refl) as (w & t' & Hs & Hb).
    exists (c :: w), t'. split; [rewrite Hs; reflexivity | exact Hb].
Qed.

Lemma search_until_split (label next s g : pystr) :
  search_until label next s = Some g ->
  exists a w t, s = a ++ label ++ w ++ g ++ t /\ boundary_then next t = true.
Proof.
  induction s as [|c t IH]; rewrite search_until_eq.
  - destruct (startswith label []) eqn:E.
    + destruct (spaces_then_group next (skipn (List.length label) [])) eqn:F;
        [|discriminate].
      intros H. inversion H; subst.
      apply startswith_split in E. destruct E as [b E].
      destruct (spaces_then_group_split _ _ _ F) as (w & t' & Hs & Hb).
      exists [], w, t'. split; [|exact Hb].
      rewrite E, skipn_label in Hs. rewrite E at 1. rewrite Hs. reflexivity.
    + discriminate.
  - assert (Hrec : search_until label next t = Some g ->
                   exists a w t', c :: t = a ++ label ++ w ++ g ++ t'
                                  /\ boundary_then next t' = true).
    { intros H. destruct (IH H) as (a & w & t' & Hs & Hb).
      exists (c :: a), w, t'. split; [rewrite Hs; reflexivity | exact Hb]. }
    destruct (startswith label (c :: t)) eqn:E; [|exact Hrec].
    destruct (spaces_then_group next (skipn (List.length label) (c :: t))) eqn:F;
      [|exact Hrec].
    intros H. inversion H; subst.
    apply startswith_split in E. destruct E as [b E].
    destruct (spaces_then_group_split _ _ _ F) as (w & t' & Hs & Hb).
    exists [], w, t'. split; [|exact Hb].
    rewrite E, skipn_label in Hs. rewrite E at 1. rewrite Hs. reflexivity.
Qed.

Lemma lazy_group_complete (next x t acc : pystr) :
  boundary_then next t = true -> lazy_group next acc (x ++ t) <> None.
Proof.
  intros Hb. revert acc. induction x as [|c x IH]; intros acc.
  - cbn [app]. destruct t as [|c t]; cbn [lazy_group]; rewrite Hb; discriminate.
  - cbn [app lazy_group].
    destruct (boundary_then next (c :: x ++ t)); [discriminate | apply IH].
Qed.

Lemma spaces_then_group_complete (next s : pystr) :
  lazy_group next [] s <> None -> spaces_then_group next s <> None.
Proof.
  destruct s as [|c t]; cbn [spaces_then_group]; [tauto|].
  destruct (isspace c); [|tauto].
  destruct (spaces_then_group next t); [discriminate | tauto].
Qed.

Lemma search_until_complete (label next a rest : pystr) :
  spaces_then_group next rest <> None ->
  search_until label next (a ++ label ++ rest) <> None.
Proof.
  intros H. induction a as [|c a IH]; rewrite search_until_eq.
  - cbn [app]. rewrite startswith_app, skipn_label.
    destruct (spaces_then_group next rest); [discriminate | congruence].
  - destruct (if startswith label ((c :: a) ++ label ++ rest) then _ else None);
      [discriminate | exact IH].
Qed.

Lemma search_until_found (label next s : pystr) (n0 : N) (n' : pystr) :
  next = n0 :: n' -> n0 <> 10%N ->
  (search_until label next s <> None
   <-> exists a g sep b,
         separator sep /\ s = a ++ label ++ g ++ sep ++ next ++ b).
Proof.
  intros Hn Hn0. split.
  - destruct (search_until label next s) as [g|] eqn:E; [|congruence].
    intros _. destruct (search_until_split _ _ _ _ E) as (a & w & t & Hs & Hb).
    destruct (boundary_then_split _ _ _ _ Hn Hn0 Hb) as (sep & b & Hsep & ->).
    exists a, (w ++ g), sep, b. split; [exact Hsep|].
    rewrite Hs, <- !app_assoc. reflexivity.
  - intros (a & g & sep & b & Hsep & ->).
    apply search_until_complete, spaces_then_group_complete, lazy_group_complete.
    apply boundary_then_separator, Hsep.
Qed.

(** X20. The first two entries of [extract_sections] are found exactly
    when, somewhere after the label of the section, the label of the
    next section comes directly after a line break tag or a line feed;
    the pattern's alternative for the end of the input never applies.
    The third entry is found exactly when its label occurs. *)
Theorem section_needs_separated_label (s : pystr) :
  (search_until label_summary label_detail s <> None
   <-> exists a g sep b,
         separator sep
         /\ s = a ++ label_summary ++ g ++ sep ++ label_detail ++ b)
  /\ (search_until label_detail label_comment s <> None
      <-> exists a g sep b,
            separator sep
            /\ s = a ++ label_detail ++ g ++ sep ++ label_comment ++ b)
  /\ (search_rest label_comment s <> None <-> occurs label_comment s).
Proof.
  split; [|split].
  - eapply search_until_found; [reflexivity | discriminate].
  - eapply search_until_found; [reflexivity | discriminate].
  - split.
    + destruct (search_rest label_comment s) as [g|] eqn:E; [|congruence].
      intros _. exact (search_rest_occurs _ _ _ E).
    + intros (a & b & ->).
      induction a as [|c a IH]; rewrite search_rest_eq.
      * cbn [app]. rewrite startswith_app. discriminate.
      * destruct (startswith label_comment ((c :: a) ++ label_comment ++ b));
          [discriminate | exact IH].
Qed.

End Splitter.

Section Regular.

Import Indexer Samples.


Lemma first_mark (n0 : N) (X Y P R : pystr) :
  X ++ n0 :: Y = P ++ n0 :: R -> ~ In n0 X -> ~ In n0 P -> X = P.
Proof.
  revert P. induction X as [|c X IH]; intros [|d P] E HX HP; cbn [app] in E.
  - reflexivity.
  - inversion E; subst. exfalso. apply HP. left. reflexivity.
  - inversion E; subst. exfalso. apply HX. left. reflexivity.
  - inversion E; subst. f_equal. apply IH; [assumption| |].
    + intros H. apply HX. right. exact H.
    + intros H. apply HP. right. exact H.
Qed.

Lemma lazy_group_eq (next acc s : pystr) :
  lazy_group next acc s
  = if boundary_then next s then Some (rev acc)
    else match s with [] => None | c :: t => lazy_group next (c :: acc) t end.
Proof. destruct s; reflexivity. Qed.

Lemma separator_marks (sep : pystr) (n0 : N) :
  separator sep -> ~ In n0 line_break_tag -> n0 <> 10%N ->
  ~ In n0 sep /\ sep <> [].
Proof.
  intros [-> | ->] H1 H2; split; try assumption; try discriminate.
  intros [E | []]. congruence.
Qed.

Lemma boundary_then_inside (next : pystr) (n0 : N) (n' G sep b : pystr) :
  next = n0 :: n' -> G <> [] -> separator sep ->
  ~ In n0 G -> ~ In n0 line_break_tag -> n0 <> 10%N ->
  boundary_then next (G ++ sep ++ next ++ b) = false.
Proof.
  intros -> HG Hsep HnG Hnbr Hn10.
  destruct (separator_marks sep n0 Hsep Hnbr Hn10) as (Hnsep & Hsne).
  assert (HnGs : ~ In n0 (G ++ sep)).
  { intros H. apply in_app_or in H. tauto. }
  assert (Hshape : forall p r,
            G ++ sep ++ (n0 :: n') ++ b = p ++ n0 :: r -> ~ In n0 p ->
            G ++ sep = p).
  { intros p r E Hp. rewrite app_assoc in E. cbn [app] in E.
    exact (first_mark _ _ _ _ _ E HnGs Hp). }
  destruct (boundary_then (n0 :: n') (G ++ sep ++ (n0 :: n') ++ b)) eqn:B;
    [|reflexivity].
  exfalso. unfold boundary_then in B.
  apply orb_true_iff in B. destruct B as [B | B].
  - apply orb_true_iff in B. destruct B as [B | B].
    + apply startswith_split in B. destruct B as [r E].
      rewrite <- app_assoc in E. cbn [app] in E.
      change (py "<br/>") with line_break_tag in E.
      pose proof (Hshape _ _ E Hnbr) as S.
      destruct Hsep as [-> | ->].
      * apply (f_equal (@List.length N)) in S. rewrite length_app in S.
        destruct G; [congruence | simpl in S; lia].
      * apply (f_equal (@rev N)) in S. rewrite rev_app_distr in S.
        vm_compute in S. discriminate S.
    + apply startswith_split in B. destruct B as [r E].
      cbn [app] in E.
      pose proof (Hshape [10%N] _ E) as S.
      assert (Hp : ~ In n0 [10%N]) by (intros [H | []]; congruence).
      specialize (S Hp). apply (f_equal (@List.length N)) in S.
      rewrite length_app in S. destruct G; [congruence|].
      destruct sep; [congruence | simpl in S; lia].
  - apply andb_true_iff in B. destruct B as [D _].
    destruct G as [|c G]; [congruence|]. destruct sep as [|d sep]; [congruence|].
    cbn [app] in D. destruct G; discriminate D.
Qed.

Lemma lazy_group_exact (next : pystr) (n0 : N) (n' G sep b acc : pystr) :
  next = n0 :: n' -> separator sep ->
  ~ In n0 G -> ~ In n0 line_break_tag -> n0 <> 10%N ->
  lazy_group next acc (G ++ sep ++ next ++ b) = Some (rev acc ++ G).
Proof.
  intros Hn Hsep HnG Hnbr Hn10. revert acc.
  induction G as [|c G IH]; intros acc; rewrite lazy_group_eq.
  - cbn [app]. rewrite (boundary_then_separator _ _ _ Hsep), app_nil_r.
    reflexivity.
  - rewrite (boundary_then_inside next n0 n' (c :: G) sep b Hn
               ltac:(discriminate) Hsep HnG Hnbr Hn10).
    cbn [app]. rewrite IH.
    + cbn [rev]. rewrite <- app_assoc. reflexivity.
    + intros H. apply HnG. right. exact H.
Qed.

Lemma spaces_then_group_exact (next w x t g : pystr) :
  Forall (fun c => isspace c = true) w -> edged x ->
  lazy_group next [] (x ++ t) = Some g ->
  spaces_then_group next (w ++ x ++ t) = Some g.
Proof.
  intros Hw Hx Hl. induction Hw as [|c w Hc Hw IH].
  - destruct x as [|c x]; [destruct Hx|]. simpl in Hx.
    cbn [app spaces_then_group]. rewrite Hx. exact Hl.
  - cbn [app spaces_then_group]. rewrite Hc, IH. reflexivity.
Qed.

Lemma lstrip_split (s : pystr) :
  exists w, s = w ++ lstrip s /\ Forall (fun c => isspace c = true) w.
Proof.
  induction s as [|c s (w & E & F)]; [exists []; split; [reflexivity | constructor]|].
  simpl. destruct (isspace c) eqn:Hc.
  - exists (c :: w). split; [cbn [app]; f_equal; exact E | constructor; assumption].
  - exists []. split; [reflexivity | constructor].
Qed.

Lemma search_until_first (label next a rest g : pystr) :
  ~ In (mark label) a -> label <> [] ->
  spaces_then_group next rest = Some g ->
  search_until label next (a ++ label ++ rest) = Some g.
Proof.
  intros Ha Hl Hs. induction a as [|c a IH]; rewrite search_until_eq.
  - cbn [app]. rewrite startswith_app, skipn_label, Hs. reflexivity.
  - destruct label as [|l0 l']; [congruence|]. cbn [mark hd] in *.
    cbn [app startswith].
    destruct (N.eqb_spec l0 c) as [->|_].
    + exfalso. apply Ha. left. reflexivity.
    + cbn [andb]. apply IH. intros H. apply Ha. right. exact H.
Qed.

Lemma search_rest_marked (label a b : pystr) :
  ~ In (mark label) a -> label <> [] ->
  search_rest label (a ++ label ++ b) = Some (lstrip b).
Proof.
  intros Ha Hl. induction a as [|c a IH]; rewrite search_rest_eq.
  - cbn [app]. rewrite startswith_app, skipn_label. reflexivity.
  - destruct label as [|l0 l']; [congruence|]. cbn [mark hd] in *.
    cbn [app startswith].
    destruct (N.eqb_spec l0 c) as [->|_].
    + exfalso. apply Ha. left. reflexivity.
    + cbn [andb]. apply IH. intros H. apply Ha. right. exact H.
Qed.

Lemma In_lstrip (c : N) (s : pystr) : In c (lstrip s) -> In c s.
Proof.
  destruct (lstrip_split s) as (w & E & _). intros H. rewrite E.
  apply in_or_app. right. exact H.
Qed.

(** A section that is not blank, up to the next label on a new line. *)
Lemma search_until_regular (label next a g sep b : pystr) (n0 : N)
    (n' : pystr) :
  next = n0 :: n' -> label <> [] ->
  ~ In (mark label) a -> ~ In n0 g -> ~ In n0 line_break_tag -> n0 <> 10%N ->
  strip g <> [] -> separator sep ->
  search_until label next (a ++ label ++ g ++ sep ++ next ++ b)
  = Some (lstrip g).
Proof.
  intros Hn Hl Ha Hg Hnbr Hn10 Hne Hsep.
  apply search_until_first; [assumption | assumption |].
  destruct (lstrip_split g) as (w & E & Hw).
  rewrite E at 1. rewrite <- app_assoc.
  apply spaces_then_group_exact; [exact Hw | |].
  - destruct (lstrip_result g) as [Z | Z]; [|exact Z].
    exfalso. apply Hne. unfold strip. rewrite Z. reflexivity.
  - rewrite (lazy_group_exact next n0 n' (lstrip g) sep b [] Hn Hsep);
      [reflexivity | | assumption | assumption].
    intros H. apply Hg, In_lstrip, H.
Qed.

(** X21. A report with its three labels in order, each of the last two
    directly after a line break tag or a line feed, gives its three
    segments stripped, when the first two segments are not blank and no
    label starts early: the first character of a label occurs neither
    before the label nor, for the label that ends a segment, in that
    segment. *)
Theorem sections_of_a_regular_report (a g1 sep1 g2 sep2 g3 : pystr) :
  ~ In (mark label_summary) a ->
  ~ In (mark label_detail) (a ++ g1) ->
  ~ In (mark label_comment) (a ++ g1 ++ g2) ->
  strip g1 <> [] -> strip g2 <> [] ->
  separator sep1 -> separator sep2 ->
  extract_sections
    (a ++ label_summary ++ g1 ++ sep1 ++ label_detail ++ g2 ++ sep2
     ++ label_comment ++ g3)
  = [ (key_summary, strip g1); (key_detail, strip g2);
      (key_comment, strip g3) ].
Proof.
  intros Ha Hd Hc N1 N2 S1 S2.
  assert (Hd' : ~ In (mark label_detail) a /\ ~ In (mark label_detail) g1).
  { split; intros H; apply Hd, in_or_app; tauto. }
  assert (Hc' : ~ In (mark label_comment) a /\ ~ In (mark label_comment) g1
                /\ ~ In (mark label_comment) g2).
  { repeat split; intros H; apply Hc; repeat (apply in_or_app; tauto || right);
      try (apply in_or_app; tauto). }
  destruct Hd' as [Hda Hdg]. destruct Hc' as (Hca & Hcg1 & Hcg2).
  assert (Hsep : forall sep n, separator sep -> ~ In n line_break_tag ->
                               n <> 10%N -> ~ In n sep).
  { intros sep n [-> | ->] H1 H2; [exact H1|]. intros [E | []]. congruence. }
  assert (Bd : ~ In (mark label_detail) line_break_tag)
    by (vm_compute; intuition discriminate).
  assert (Bc : ~ In (mark label_comment) line_break_tag)
    by (vm_compute; intuition discriminate).
  assert (Td : mark label_detail <> 10%N) by discriminate.
  assert (Tc : mark label_comment <> 10%N) by discriminate.
  unfold extract_sections.
  rewrite (search_until_regular label_summary label_detail a g1 sep1
             (g2 ++ sep2 ++ label_comment ++ g3) (mark label_detail)
             (tl label_detail) eq_refl ltac:(discriminate)
             Ha Hdg Bd Td N1 S1).
  replace (a ++ label_summary ++ g1 ++ sep1 ++ label_detail ++ g2 ++ sep2
           ++ label_comment ++ g3)
    with ((a ++ label_summary ++ g1 ++ sep1) ++ label_detail ++ g2 ++ sep2
          ++ label_comment ++ g3)
    by (rewrite <- !app_assoc; reflexivity).
  rewrite (search_until_regular label_detail label_comment
             (a ++ label_summary ++ g1 ++ sep1) g2 sep2 g3
             (mark label_comment) (tl label_comment) eq_refl
             ltac:(discriminate)).
  2:{ intros H. repeat (apply in_app_or in H; destruct H as [H | H]);
        try tauto.
      - vm_compute in H. intuition discriminate.
      - exact (Hsep _ _ S1 Bd Td H). }
  2: exact Hcg2. 2: exact Bc. 2: exact Tc. 2: exact N2. 2: exact S2.
  replace ((a ++ label_summary ++ g1 ++ sep1) ++ label_detail ++ g2 ++ sep2
           ++ label_comment ++ g3)
    with ((a ++ label_summary ++ g1 ++ sep1 ++ label_detail ++ g2 ++ sep2)
          ++ label_comment ++ g3)
    by (rewrite <- !app_assoc; reflexivity).
  rewrite (search_rest_marked label_comment); [| |discriminate].
  2:{ intros H. repeat (apply in_app_or in H; destruct H as [H | H]);
        try tauto.
      - vm_compute in H. intuition discriminate.
      - exact (Hsep _ _ S1 Bc Tc H).
      - vm_compute in H. intuition discriminate.
      - exact (Hsep _ _ S2 Bc Tc H). }
  cbn [section_value]. rewrite !strip_lstrip. reflexivity.
Qed.

Lemma sections_of_a_regular_report_witness :
  extract_sections
    ((py "出張報告" ++ [10%N]) ++ label_summary ++ py " 工場訪問 "
     ++ line_break_tag ++ label_detail ++ ([10%N] ++ py "ライン停止の件")
     ++ [10%N] ++ label_comment ++ py " 対応は良好。概要：再掲 ")
  = [ (key_summary, py "工場訪問"); (key_detail, py "ライン停止の件");
      (key_comment, py "対応は良好。概要：再掲") ].
Proof.
  refine (eq_trans
            (sections_of_a_regular_report
               (py "出張報告" ++ [10%N]) (py " 工場訪問 ") line_break_tag
               ([10%N] ++ py "ライン停止の件") [10%N]
               (py " 対応は良好。概要：再掲 ") _ _ _ _ _ _ _) _).
  - vm_compute. intuition discriminate.
  - vm_compute. intuition discriminate.
  - vm_compute. intuition discriminate.
  - vm_compute. discriminate.
  - vm_compute. discriminate.
  - left. reflexivity.
  - right. reflexivity.
  - vm_compute. reflexivity.
Defined.

End Regular.
